(** * pkg/utils/archive.go: archive detection, extraction and compression

    A shallow embedding of the Go package [utils] (file
    [pkg/utils/archive.go]): the path-containment helpers, the three
    magic-byte classifiers, the three extraction adapters, the
    dispatcher [ExtractArchive] and [CompressToZip], together with the
    properties stated about them.

    Conventions.
    - Go strings are [string]; file contents are [list byte].
    - The file system is a finite map from cleaned paths to inodes and is
      threaded explicitly through every operation that touches the disk.
    - The archive codecs (archive/zip, archive/tar, compress/gzip,
      bodgit/sevenzip) are parameters of the development: only their
      entry-iteration contract is used.
    - A Go function returning [(string, error)] returns a pair
      [(string * option error)]; [None] is the nil error. *)

From Stdlib Require Import ZArith NArith List Bool Lia.
From Stdlib.Strings Require Import Ascii String Byte.
From stdpp Require Import base gmap strings.
Import ListNotations.

Local Open Scope string_scope.
Local Open Scope list_scope.

(* ===================================================================== *)
(** ** Package [strings] *)
(* ===================================================================== *)

(** [strings.HasPrefix(s, prefix)]. *)
Definition HasPrefix (s pre : string) : bool := String.prefix pre s.

(** [strings.HasSuffix(s, suffix)]. *)
Definition HasSuffix (s suffix : string) : bool :=
  (String.length suffix <=? String.length s)%nat &&
  String.eqb
    (String.substring (String.length s - String.length suffix)
                      (String.length suffix) s)
    suffix.

(** [strings.TrimSuffix(s, suffix)]: [s] without the trailing [suffix],
    or [s] itself when it does not end in [suffix]. *)
Definition TrimSuffix (s suffix : string) : string :=
  if HasSuffix s suffix
  then String.substring 0 (String.length s - String.length suffix) s
  else s.

(** [strings.ToLower] on the ASCII range.  The extensions it is compared
    with below are plain ASCII without the letters k and i, the only two
    that a non-ASCII rune lowers to. *)
Definition lowerChar (c : ascii) : ascii :=
  let n := nat_of_ascii c in
  if ((65 <=? n) && (n <=? 90))%nat then ascii_of_nat (n + 32) else c.

Fixpoint ToLower (s : string) : string :=
  match s with
  | EmptyString => EmptyString
  | String c t => String (lowerChar c) (ToLower t)
  end.

(* ===================================================================== *)
(** ** Package [path/filepath] (Unix) *)
(* ===================================================================== *)

Definition Separator : ascii := "/"%char.

(** [os.IsPathSeparator]. *)
Definition IsPathSeparator (c : ascii) : bool := Ascii.eqb c Separator.

(** The elements of a path: the pieces between separators, empty ones
    included, so that a path with [n] separators has [n + 1] elements. *)
Fixpoint elements (s : string) : list string :=
  match s with
  | EmptyString => [EmptyString]
  | String c t =>
      if IsPathSeparator c then EmptyString :: elements t
      else match elements t with
           | e :: es => String c e :: es
           | [] => [String c EmptyString]
           end
  end.

Definition isRooted (s : string) : bool :=
  match s with
  | String c _ => IsPathSeparator c
  | EmptyString => false
  end.

(** One turn of the loop of [filepath.Clean], on the element that starts
    at the read index.  [out] is the output buffer as a stack of
    elements, last written first.  The condition [out.w > dotdot] of the
    Go code holds exactly when the last written element is not a [..]
    that had to be kept. *)
Definition cleanStep (rooted : bool) (out : list string) (e : string)
  : list string :=
  if String.eqb e "" then out                    (* empty path element *)
  else if String.eqb e "." then out              (* . element *)
  else if String.eqb e ".." then                 (* .. element *)
    match out with
    | top :: out' =>
        if String.eqb top ".."
        then (if rooted then out else e :: out)  (* cannot backtrack *)
        else out'                                (* can backtrack *)
    | [] => if rooted then out else [e]
    end
  else e :: out.                                 (* real path element *)

Definition cleanElems (rooted : bool) (es : list string) : list string :=
  fold_left (cleanStep rooted) es [].

(** The buffer written back as a string. *)
Definition render (rooted : bool) (comps : list string) : string :=
  if rooted then String Separator (String.concat "/" comps)
  else match comps with
       | [] => "."
       | _ => String.concat "/" comps
       end.

(** [filepath.Clean]. *)
Definition Clean (path : string) : string :=
  if String.eqb path "" then "."
  else render (isRooted path) (rev (cleanElems (isRooted path) (elements path))).

(** [filepath.Join]: empty leading elements are skipped, the rest is
    joined with the separator and cleaned. *)
Fixpoint Join (elem : list string) : string :=
  match elem with
  | [] => ""
  | e :: rest =>
      if String.eqb e "" then Join rest
      else Clean (String.concat "/" elem)
  end.

(** The backward scan of [filepath.Ext]: [before] holds the bytes still
    to be visited, last byte first, [suffix] the bytes already passed. *)
Fixpoint extScan (before : list ascii) (suffix : string) : string :=
  match before with
  | [] => ""
  | c :: before' =>
      if IsPathSeparator c then ""
      else if Ascii.eqb c "."%char then String c suffix
      else extScan before' (String c suffix)
  end.

(** [filepath.Ext]: the suffix starting at the final dot of the final
    element, or the empty string. *)
Definition Ext (path : string) : string :=
  extScan (rev (list_ascii_of_string path)) "".

Fixpoint dropSeparators (l : list ascii) : list ascii :=
  match l with
  | c :: t => if IsPathSeparator c then dropSeparators t else l
  | [] => []
  end.

Fixpoint dropElement (l : list ascii) : list ascii :=
  match l with
  | c :: t => if IsPathSeparator c then l else dropElement t
  | [] => []
  end.

(** [filepath.Base]. *)
Definition Base (path : string) : string :=
  if String.eqb path "" then "."
  else
    let stripped :=
      string_of_list_ascii
        (rev (dropSeparators (rev (list_ascii_of_string path)))) in
    let final := List.last (elements stripped) "" in
    if String.eqb final "" then "/" else final.

(** [filepath.Dir]: everything up to the last separator, cleaned. *)
Definition Dir (path : string) : string :=
  Clean (string_of_list_ascii
           (rev (dropElement (rev (list_ascii_of_string path))))).


(* ===================================================================== *)
(** ** Errors, contexts, byte streams *)
(* ===================================================================== *)

Inductive Errno := ENOENT | EEXIST | ENOTDIR | EISDIR | ESPIPE.

(** Go [error] values.  [Errorf format args] is
    [fmt.Errorf(format, args...)] and [Wrapf format args err] the same
    with [err] as the argument of the format's [%w] verb; the message is
    not rendered. *)
Inductive error :=
| Errorf (format : string) (args : list string)
| Wrapf (format : string) (args : list string) (err : error)
| PathError (op path : string) (errno : Errno)    (* *fs.PathError *)
| io_EOF                                          (* io.EOF *)
| context_Canceled                                (* context.Canceled *)
| context_DeadlineExceeded                        (* context.DeadlineExceeded *)
| CodecError (msg : string).                      (* an error of a codec *)

Inductive result (A : Type) :=
| Ok (a : A)
| Err (e : error).
Arguments Ok {A} a.
Arguments Err {A} e.

(** A [context.Context] as the extraction loops see it: the [i]-th
    non-blocking receive on [ctx.Done()] of a call either falls through
    to [default] ([None]) or finds the channel closed, and [ctx.Err()] is
    then the given error. *)
Definition Context := nat -> option error.

(** [context.Background()]: never cancelled. *)
Definition Background : Context := fun _ => None.

(** An [io.Reader] read to its end: the bytes it yields, then [io.EOF]
    ([None]) or a read error. *)
Record Stream := { s_data : list byte; s_fault : option error }.

Definition maxExtractFileSize : N := N.shiftl 5 30.

(** The first [n] bytes of [l], or all of [l] when it is shorter. *)
Fixpoint takeN (n : N) (l : list byte) : list byte :=
  match l with
  | [] => []
  | b :: t => if N.eqb n 0 then [] else b :: takeN (N.pred n) t
  end.

(** [io.LimitReader(r, n)]: it reports EOF after [n] bytes without
    reading [r] any further. *)
Definition LimitReader (r : Stream) (n : N) : Stream :=
  if (n <=? N.of_nat (List.length (s_data r)))%N
  then {| s_data := takeN n (s_data r); s_fault := None |}
  else r.

(* ===================================================================== *)
(** ** Package [os]: a file system *)
(* ===================================================================== *)

(** Permission bits are kept as given ([0o750], the mode of an entry);
    the umask is not modelled. *)
Inductive inode :=
| Regular (perm : Z) (data : list byte)
| Directory (perm : Z)
| CharDevice (input : list byte).   (* a terminal or pipe: not seekable *)

(** Paths are resolved lexically: the key of a file is its cleaned path;
    there are no symbolic links.  The empty path names nothing. *)
Definition resolve (fs : gmap string inode) (path : string) : option inode :=
  if String.eqb path "" then None else fs !! Clean path.

(** An open [*os.File] for reading. *)
Record File := { f_node : inode; f_off : nat }.

(** [os.Open]. *)
Definition os_Open (fs : gmap string inode) (path : string) : result File :=
  match resolve fs path with
  | Some nd => Ok {| f_node := nd; f_off := 0 |}
  | None => Err (PathError "open" path ENOENT)
  end.

(** [file.Seek(offset, io.SeekStart)]. *)
Definition File_Seek (f : File) (offset : nat) : File * option error :=
  match f_node f with
  | CharDevice _ => (f, Some (PathError "seek" "" ESPIPE))
  | _ => ({| f_node := f_node f; f_off := offset |}, None)
  end.

(** [file.Read(buf)] with [len(buf) = n]: the bytes stored at the start
    of [buf] (their number is Go's [n]) and the error. *)
Definition File_Read (f : File) (n : nat) : list byte * option error :=
  match f_node f with
  | Directory _ => ([], Some (PathError "read" "" EISDIR))
  | Regular _ data | CharDevice data =>
      match firstn n (skipn (f_off f) data) with
      | [] => if (n =? 0)%nat then ([], None) else ([], Some io_EOF)
      | bs => (bs, None)
      end
  end.

(** A buffer of [n] zero bytes after a read stored [bs] at its start. *)
Definition buffer (n : nat) (bs : list byte) : list byte :=
  firstn n (bs ++ repeat x00 n).

(** Everything a reader of the open file yields. *)
Definition File_stream (f : File) : Stream :=
  match f_node f with
  | Directory _ =>
      {| s_data := []; s_fault := Some (PathError "read" "" EISDIR) |}
  | Regular _ data | CharDevice data =>
      {| s_data := skipn (f_off f) data; s_fault := None |}
  end.

(** The directory that holds [path]: what is wrong with it, if
    anything. *)
Definition parentIsDir (fs : gmap string inode) (path : string)
  : option Errno :=
  match resolve fs (Dir (Clean path)) with
  | Some (Directory _) => None
  | Some _ => Some ENOTDIR
  | None => Some ENOENT
  end.

(** [os.Stat], as far as its error goes. *)
Definition os_Stat (fs : gmap string inode) (path : string) : option error :=
  match resolve fs path with
  | Some _ => None
  | None =>
      match parentIsDir fs path with
      | Some ENOTDIR => Some (PathError "stat" path ENOTDIR)
      | _ => Some (PathError "stat" path ENOENT)
      end
  end.

(** [os.IsNotExist] and [os.IsExist]. *)
Definition os_IsNotExist (err : option error) : bool :=
  match err with
  | Some (PathError _ _ ENOENT) => true
  | _ => false
  end.

Definition os_IsExist (err : option error) : bool :=
  match err with
  | Some (PathError _ _ EEXIST) => true
  | _ => false
  end.

(** [os.Mkdir]: one level only.  The mode kept is the mode asked for:
    the umask of the process, which the system takes off, is not
    modelled. *)
Definition os_Mkdir (fs : gmap string inode) (path : string) (perm : Z)
  : gmap string inode * option error :=
  if String.eqb path "" then (fs, Some (PathError "mkdir" path ENOENT))
  else
    match resolve fs path with
    | Some _ => (fs, Some (PathError "mkdir" path EEXIST))
    | None =>
        match parentIsDir fs path with
        | Some errno => (fs, Some (PathError "mkdir" path errno))
        | None => (<[Clean path := Directory (Z.land perm 511)]> fs, None)
        end
    end.

(** [os.OpenFile(path, O_CREATE|O_WRONLY|O_TRUNC, perm)]: the file is
    created or emptied.  The mode kept for a new file is the mode asked
    for: the umask of the process, which the system takes off, is not
    modelled. *)
Definition os_OpenFile (fs : gmap string inode) (path : string) (perm : Z)
  : gmap string inode * option error :=
  if String.eqb path "" then (fs, Some (PathError "open" path ENOENT))
  else
    match resolve fs path with
    | Some (Regular p _) => (<[Clean path := Regular p []]> fs, None)
    | Some (Directory _) => (fs, Some (PathError "open" path EISDIR))
    | Some (CharDevice _) => (fs, None)
    | None =>
        match parentIsDir fs path with
        | Some errno => (fs, Some (PathError "open" path errno))
        | None => (<[Clean path := Regular (Z.land perm 511) []]> fs, None)
        end
    end.

(** [os.Create(path)] is [OpenFile(path, O_RDWR|O_CREATE|O_TRUNC, 0666)]. *)
Definition os_Create (fs : gmap string inode) (path : string)
  : gmap string inode * option error :=
  os_OpenFile fs path 438.

(** The bytes written through the handle of the file just opened at
    [path]; what is written to a device leaves the file system as it is. *)
Definition writeFile (fs : gmap string inode) (path : string)
  (data : list byte) : gmap string inode :=
  match resolve fs path with
  | Some (Regular p _) => <[Clean path := Regular p data]> fs
  | _ => fs
  end.

(** [io.Copy(outFile, r)] with [outFile] the file just opened at [path]:
    every byte read before the end or the fault of [r] is written. *)
Definition io_Copy (fs : gmap string inode) (path : string) (r : Stream)
  : gmap string inode * option error :=
  (writeFile fs path (s_data r), s_fault r).

(* ===================================================================== *)
(** ** archive.go: helper functions *)
(* ===================================================================== *)

(** [sanitizeFileMode]: a mode outside [0, 0o777] becomes [0o755]. *)
Definition sanitizeFileMode (mode : Z) : Z :=
  if (mode <? 0)%Z || (mode >? 511)%Z then 493%Z else mode.

(** [validatePath]: [target] must be within [destDir]. *)
Definition validatePath (target destDir : string) : option error :=
  let cleanDest := Clean destDir +:+ String Separator "" in
  if negb (HasPrefix (Clean target) cleanDest)
  then Some (Errorf "illegal file path: %s" [target])
  else None.

(** [safeJoin]. *)
Definition safeJoin (destDir fileName : string) : string * option error :=
  let cleanDest := Clean destDir +:+ String Separator "" in
  let filePath := Join [cleanDest; fileName] in
  match validatePath filePath cleanDest with
  | Some err => ("", Some err)
  | None => (filePath, None)
  end.

(* ===================================================================== *)
(** ** archive.go: detection functions *)
(* ===================================================================== *)

(** [bytes.Equal], and [==] on byte arrays. *)
Fixpoint bytes_eqb (a b : list byte) : bool :=
  match a, b with
  | [], [] => true
  | x :: a', y :: b' => Byte.eqb x y && bytes_eqb a' b'
  | _, _ => false
  end.

Definition zipMagic : list byte := [x50; x4b; x03; x04].
Definition sevenZipMagic : list byte := [x37; x7a; xbc; xaf; x27; x1c].

(** [IsZipFile]. *)
Definition IsZipFile (fs : gmap string inode) (path : string) : bool :=
  match os_Open fs path with
  | Err _ => false
  | Ok file =>
      match File_Read file 4 with
      | (_, Some _) => false
      | (bs, None) => bytes_eqb (buffer 4 bs) zipMagic
      end
  end.

(** [Is7zFile]. *)
Definition Is7zFile (fs : gmap string inode) (path : string) : bool :=
  match os_Open fs path with
  | Err _ => false
  | Ok file =>
      match File_Read file 6 with
      | (_, Some _) => false
      | (bs, None) => bytes_eqb (buffer 6 bs) sevenZipMagic
      end
  end.

(** [IsTarFile]. *)
Definition IsTarFile (fs : gmap string inode) (path : string) : bool :=
  match os_Open fs path with
  | Err _ => false
  | Ok file =>
      match File_Seek file 257 with
      | (_, Some _) => false
      | (file, None) =>
          match File_Read file 6 with
          | (bs, err) =>
              if (match err with Some _ => true | None => false end)
                 || (List.length bs <? 6)%nat
              then false
              else HasPrefix (string_of_list_byte (buffer 6 bs)) "ustar"
          end
      end
  end.

(** [IsActualArchive]. *)
Definition IsActualArchive (path : string) : bool :=
  let ext := ToLower (Ext path) in
  let officeExtensions :=
    [".docx"; ".xlsx"; ".pptx"; ".docm"; ".xlsm"; ".pptm"] in
  if existsb (String.eqb ext) officeExtensions then false
  else
    let openDocExtensions := [".odt"; ".ods"; ".odp"; ".odg"; ".odf"] in
    if existsb (String.eqb ext) openDocExtensions then false
    else if String.eqb ext ".jar" then false
    else true.

(* ===================================================================== *)
(** ** What the package takes from outside *)
(* ===================================================================== *)

(** [fs.ModeDir] and [FileMode.IsDir]. *)
Definition ModeDir : Z := Z.shiftl 1 31.
Definition IsDir (mode : Z) : bool := negb (Z.land mode ModeDir =? 0)%Z.

(** An entry of an opened ZIP or 7-Zip archive ([*zip.File],
    [*sevenzip.File]): its name, its mode, and what [file.Open()] gives,
    an error or the reader of the content. *)
Record ArchiveFile := {
  f_Name : string;
  f_Mode : Z;
  f_Open : result Stream
}.

(** A [*tar.Header] together with the content that the reader yields
    until the next call of [Next]. *)
Record TarEntry := {
  h_Name : string;
  h_Typeflag : byte;
  h_Mode : Z;
  h_body : Stream
}.

Definition TypeReg : byte := x30.   (* '0' *)
Definition TypeDir : byte := x35.   (* '5' *)

(** A [*tar.Reader]: the headers that successive calls of [Next] return,
    and the error of the call after the last of them ([io.EOF] at the end
    of a complete archive). *)
Record TarReader := {
  tr_entries : list TarEntry;
  tr_end : error
}.

(** The codecs, and [CreateDir], which is defined in another file of
    package [utils]. *)
Class Externals := {
  zip_OpenReader : gmap string inode -> string -> result (list ArchiveFile);
  sevenzip_OpenReader :
    gmap string inode -> string -> result (list ArchiveFile);
  gzip_NewReader : Stream -> result Stream;
  tar_NewReader : Stream -> TarReader;
  CreateDir : gmap string inode -> string -> gmap string inode * option error
}.

(** Modelled from the spec: [CreateDir] of package [utils], whose source
    is not in [archive.go].  The destination is created, it alone and not
    its ancestors, when it is missing; an existing directory is not an
    error; the permissions are [0o750]. *)
Definition CreateDir_spec (fs : gmap string inode) (path : string)
  : gmap string inode * option error :=
  if os_IsNotExist (os_Stat fs path) then os_Mkdir fs path 488
  else (fs, None).

(* ===================================================================== *)
(** ** archive.go: extraction functions *)
(* ===================================================================== *)

(** The statement
    [if _, err := os.Stat(p); os.IsNotExist(err) { err := os.Mkdir(p, 0o750) ... }]
    of [Extract7z] and [ExtractTar], with the error of [Mkdir]. *)
Definition statMkdir (fs : gmap string inode) (path : string)
  : gmap string inode * option error :=
  if os_IsNotExist (os_Stat fs path) then os_Mkdir fs path 488
  else (fs, None).

Section Extraction.
Context `{Externals}.

(** The loop of [ExtractZip] over [reader.File]; [i] counts the turns,
    and so the polls of the context. *)
Fixpoint ExtractZip_loop (ctx : Context) (i : nat) (cleanDest : string)
  (files : list ArchiveFile) (fs : gmap string inode)
  : gmap string inode * option error :=
  match files with
  | [] => (fs, None)
  | file :: rest =>
    match ctx i with
    | Some cerr => (fs, Some cerr)
    | None =>
      match safeJoin cleanDest (f_Name file) with
      | (_, Some err) =>
          (fs, Some (Wrapf "invalid file path %q: %w" [f_Name file] err))
      | (filePath, None) =>
        if IsDir (f_Mode file) then
          match CreateDir fs filePath with
          | (fs1, Some err) =>
              (fs1, Some (Wrapf "failed to create directory %q: %w"
                                [filePath] err))
          | (fs1, None) => ExtractZip_loop ctx (S i) cleanDest rest fs1
          end
        else
          match CreateDir fs (Dir filePath) with
          | (fs1, Some err) =>
              (fs1, Some (Wrapf "failed to create parent directories for %q: %w"
                                [filePath] err))
          | (fs1, None) =>
            match os_Create fs1 filePath with
            | (fs2, Some err) =>
                (fs2, Some (Wrapf "failed to create file %q: %w"
                                  [filePath] err))
            | (fs2, None) =>
              match f_Open file with
              | Err err =>
                  (fs2, Some (Wrapf "failed to open file %q in archive: %w"
                                    [f_Name file] err))
              | Ok rc =>
                match io_Copy fs2 filePath
                              (LimitReader rc maxExtractFileSize) with
                | (fs3, Some err) =>
                    (fs3, Some (Wrapf "failed to copy contents to %q: %w"
                                      [filePath] err))
                | (fs3, None) => ExtractZip_loop ctx (S i) cleanDest rest fs3
                end
              end
            end
          end
      end
    end
  end.

(** [ExtractZip]. *)
Definition ExtractZip (ctx : Context) (fs : gmap string inode)
  (src dest : string) : gmap string inode * (string * option error) :=
  match zip_OpenReader fs src with
  | Err err =>
      (fs, ("", Some (Wrapf "failed to open zip file %q: %w" [src] err)))
  | Ok files =>
    match CreateDir fs dest with
    | (fs0, Some err) =>
        (fs0, ("", Some (Wrapf "failed to create destination directory %q: %w"
                               [dest] err)))
    | (fs0, None) =>
      let cleanDest := Clean dest +:+ String Separator "" in
      match ExtractZip_loop ctx 0 cleanDest files fs0 with
      | (fs1, Some err) => (fs1, ("", Some err))
      | (fs1, None) =>
          let packageName := Base (TrimSuffix src (Ext src)) in
          let extractedPath := Join [cleanDest; packageName] in
          (fs1, (extractedPath, None))
      end
    end
  end.

(** The loop of [Extract7z] over [r.File]. *)
Fixpoint Extract7z_loop (ctx : Context) (i : nat) (cleanDest : string)
  (files : list ArchiveFile) (fs : gmap string inode)
  : gmap string inode * option error :=
  match files with
  | [] => (fs, None)
  | file :: rest =>
    match ctx i with
    | Some cerr => (fs, Some cerr)
    | None =>
      match safeJoin cleanDest (f_Name file) with
      | (_, Some err) => (fs, Some err)
      | (outPath, None) =>
        if IsDir (f_Mode file) then
          match os_Mkdir fs outPath (f_Mode file) with
          | (fs1, Some err) =>
              if negb (os_IsExist (Some err))
              then (fs1, Some (Wrapf "creating directory %q: %w"
                                     [outPath] err))
              else Extract7z_loop ctx (S i) cleanDest rest fs1
          | (fs1, None) => Extract7z_loop ctx (S i) cleanDest rest fs1
          end
        else
          let parentDir := Dir outPath in
          match statMkdir fs parentDir with
          | (fs1, Some err) =>
              (fs1, Some (Wrapf "creating parent directories for %q: %w"
                                [outPath] err))
          | (fs1, None) =>
            match f_Open file with
            | Err err =>
                (fs1, Some (Wrapf "opening file %q from archive: %w"
                                  [f_Name file] err))
            | Ok rc =>
              match os_OpenFile fs1 outPath
                                (sanitizeFileMode (f_Mode file)) with
              | (fs2, Some err) =>
                  (fs2, Some (Wrapf "creating file %q: %w" [outPath] err))
              | (fs2, None) =>
                match io_Copy fs2 outPath
                              (LimitReader rc maxExtractFileSize) with
                | (fs3, Some err) =>
                    (fs3, Some (Wrapf "copying contents to %q: %w"
                                      [outPath] err))
                | (fs3, None) => Extract7z_loop ctx (S i) cleanDest rest fs3
                end
              end
            end
          end
      end
    end
  end.

(** [Extract7z]. *)
Definition Extract7z (ctx : Context) (fs : gmap string inode)
  (src dest : string) : gmap string inode * (string * option error) :=
  match sevenzip_OpenReader fs src with
  | Err err => (fs, ("", Some (Wrapf "opening archive: %w" [] err)))
  | Ok files =>
    match statMkdir fs dest with
    | (fs0, Some err) =>
        (fs0, ("", Some (Wrapf "creating destination directory: %w" [] err)))
    | (fs0, None) =>
      let cleanDest := Clean dest +:+ String Separator "" in
      match Extract7z_loop ctx 0 cleanDest files fs0 with
      | (fs1, Some err) => (fs1, ("", Some err))
      | (fs1, None) =>
          let packageName := Base (TrimSuffix src (Ext src)) in
          let extractedPath := Join [cleanDest; packageName] in
          (fs1, (extractedPath, None))
      end
    end
  end.

(** The loop of [ExtractTar]: the context is polled, then [Next] is
    called; [final] is the error of [Next] once the headers are used up. *)
Fixpoint ExtractTar_loop (ctx : Context) (i : nat) (cleanDest : string)
  (headers : list TarEntry) (final : error) (fs : gmap string inode)
  : gmap string inode * option error :=
  match ctx i with
  | Some cerr => (fs, Some cerr)
  | None =>
    match headers with
    | [] =>
        match final with
        | io_EOF => (fs, None)          (* end of archive *)
        | err => (fs, Some err)
        end
    | header :: rest =>
      match safeJoin cleanDest (h_Name header) with
      | (_, Some err) => (fs, Some err)
      | (filePath, None) =>
        if Byte.eqb (h_Typeflag header) TypeDir then
          match os_Mkdir fs filePath (sanitizeFileMode (h_Mode header)) with
          | (fs1, Some err) =>
              if negb (os_IsExist (Some err)) then (fs1, Some err)
              else ExtractTar_loop ctx (S i) cleanDest rest final fs1
          | (fs1, None) => ExtractTar_loop ctx (S i) cleanDest rest final fs1
          end
        else if Byte.eqb (h_Typeflag header) TypeReg then
          let parentDir := Dir filePath in
          match statMkdir fs parentDir with
          | (fs1, Some err) => (fs1, Some err)
          | (fs1, None) =>
            match os_Create fs1 filePath with
            | (fs2, Some err) => (fs2, Some err)
            | (fs2, None) =>
              match io_Copy fs2 filePath
                            (LimitReader (h_body header)
                                         maxExtractFileSize) with
              | (fs3, Some err) => (fs3, Some err)
              | (fs3, None) =>
                  ExtractTar_loop ctx (S i) cleanDest rest final fs3
              end
            end
          end
        else ExtractTar_loop ctx (S i) cleanDest rest final fs
      end
    end
  end.

(** The reader that [ExtractTar] sets up: the file itself, or the file
    behind a gzip reader when the name ends in [.gz] or [.tgz]. *)
Definition openTar (fs : gmap string inode) (src : string)
  : result TarReader :=
  match os_Open fs src with
  | Err err => Err err
  | Ok file =>
    if HasSuffix src ".gz" || HasSuffix src ".tgz" then
      match gzip_NewReader (File_stream file) with
      | Err err => Err err
      | Ok gr => Ok (tar_NewReader gr)
      end
    else Ok (tar_NewReader (File_stream file))
  end.

(** [ExtractTar]. *)
Definition ExtractTar (ctx : Context) (fs : gmap string inode)
  (src dest : string) : gmap string inode * (string * option error) :=
  match openTar fs src with
  | Err err => (fs, ("", Some err))
  | Ok tarReader =>
    match statMkdir fs dest with
    | (fs0, Some err) => (fs0, ("", Some err))
    | (fs0, None) =>
      let cleanDest := Clean dest +:+ String Separator "" in
      match ExtractTar_loop ctx 0 cleanDest (tr_entries tarReader)
                            (tr_end tarReader) fs0 with
      | (fs1, Some err) => (fs1, ("", Some err))
      | (fs1, None) =>
          let packageName := Base (TrimSuffix src (Ext src)) in
          let extractedPath := Join [cleanDest; packageName] in
          (fs1, (extractedPath, None))
      end
    end
  end.

(** The error check inside a case of the [switch] of [ExtractArchive],
    followed by the check of [aipPath] after the [switch]. *)
Definition checkAipPath (src : string)
  (r : gmap string inode * (string * option error)) (format : string)
  : gmap string inode * (string * option error) :=
  match r with
  | (fs', (_, Some err)) => (fs', ("", Some (Wrapf format [] err)))
  | (fs', (aipPath, None)) =>
      if String.eqb aipPath ""
      then (fs', ("", Some (Errorf "error extracting archive: %s" [src])))
      else (fs', (aipPath, None))
  end.

(** [ExtractArchive]. *)
Definition ExtractArchive (ctx : Context) (fs : gmap string inode)
  (src dest : string) : gmap string inode * (string * option error) :=
  if Is7zFile fs src then
    checkAipPath src (Extract7z ctx fs src dest) "error extracting 7zip: %w"
  else if IsTarFile fs src then
    checkAipPath src (ExtractTar ctx fs src dest) "error extracting tar: %w"
  else if IsZipFile fs src then
    checkAipPath src (ExtractZip ctx fs src dest) "error extracting zip: %w"
  else
    (fs, ("", Some (Errorf "archive is not in a supported format: %s" [src]))).

End Extraction.


(* ===================================================================== *)
(** ** archive.go: compression functions *)
(* ===================================================================== *)

(** What [os.Lstat], [os.ReadDir] and [os.Open] find at and below a
    path, as [filepath.Walk] and its callback see it: a file with its
    mode and what opening and reading it gives, a directory with its
    mode and its entries by name, or a directory whose names cannot be
    read. *)
#[warnings="-register-all"] Inductive Tree :=
| TFile (mode : Z) (open : result Stream)
| TDir (mode : Z) (entries : list (string * Tree))
| TNoList (mode : Z) (err : error).

(** [info.IsDir()] and [info.Mode()]. *)
Definition treeIsDir (node : Tree) : bool :=
  match node with
  | TDir _ _ | TNoList _ _ => true
  | TFile _ _ => false
  end.

Definition treeMode (node : Tree) : Z :=
  match node with
  | TDir mode _ | TNoList mode _ => Z.lor ModeDir mode
  | TFile mode _ => mode
  end.

(** A [zip.FileHeader], as far as [CompressToZip] sets it. *)
Record ZipHeader := {
  zh_Name : string;
  zh_Mode : Z;
  zh_Method : Z
}.

Definition zip_Store : Z := 0.
Definition zip_Deflate : Z := 8.

(** An entry as the [zip.Writer] has it: the header given to
    [CreateHeader] and the bytes written to the entry since. *)
Record ZipRecord := {
  zr_header : ZipHeader;
  zr_data : list byte
}.

(** [zip.FileInfoHeader(info)]: the name is the base name, the method is
    left at [Store]; its error is always nil. *)
Definition zip_FileInfoHeader (path : string) (node : Tree) : ZipHeader :=
  {| zh_Name := Base path; zh_Mode := treeMode node; zh_Method := zip_Store |}.

(** What [CompressToZip] takes from outside: the tree that the file
    system holds at a path (or the error of [os.Lstat]), the lexical
    comparison that [filepath.Rel] makes of two different cleaned paths,
    the check that [zip.Writer.CreateHeader] makes of a header given the
    entries written before, and the bytes of the archive file for the
    entries written. *)
Class Packing := {
  lstatTree : gmap string inode -> string -> result Tree;
  rel_lexical : string -> string -> result string;
  zip_CreateHeader : list ZipRecord -> ZipHeader -> option error;
  zip_bytes : list ZipRecord -> list byte
}.

(** [filepath.Rel]: both paths are cleaned, and a path is [.] relative
    to itself. *)
Definition filepath_Rel `{Packing} (basepath targpath : string)
  : result string :=
  let base := Clean basepath in
  let targ := Clean targpath in
  if String.eqb targ base then Ok "." else rel_lexical base targ.

(** The state that the callback of [CompressToZip] works on: the number
    of polls of the context made so far, and the entries written to the
    [zip.Writer], first written first. *)
Record Packer := {
  pk_polls : nat;
  pk_zip : list ZipRecord
}.

Definition polled (st : Packer) : Packer :=
  {| pk_polls := S (pk_polls st); pk_zip := pk_zip st |}.

Definition written (st : Packer) (header : ZipHeader) (data : list byte)
  : Packer :=
  {| pk_polls := pk_polls st;
     pk_zip := pk_zip st ++ [{| zr_header := header; zr_data := data |}] |}.

(** [sort.Strings(names)] in [readDirNames]: the entries of a directory
    in the order of their names, which is the order of the bytes. *)
Fixpoint insertByName {A : Type} (x : string * A) (l : list (string * A))
  : list (string * A) :=
  match l with
  | [] => [x]
  | y :: rest =>
      if String.leb (fst x) (fst y) then x :: l
      else y :: insertByName x rest
  end.

Definition sortByName {A : Type} (l : list (string * A))
  : list (string * A) :=
  fold_right insertByName [] l.

Section Compression.
Context `{Packing}.

(** The function that [CompressToZip] passes to [filepath.Walk], called
    with the node found at [path], or with the error of [os.Lstat] or of
    reading the names of the directory: it returns on the error before
    it looks at the node.  [io.Copy] to the entry fails with the fault
    of the file that is read; the entry has been created by then. *)
Definition compressVisit (ctx : Context) (src path : string)
  (found : Tree + error) (st : Packer) : Packer * option error :=
  match ctx (pk_polls st) with
  | Some cerr => (polled st, Some cerr)
  | None =>
    let st := polled st in
    match found with
    | inr err => (st, Some (Wrapf "walking path: %w" [] err))
    | inl info =>
      match filepath_Rel src path with
      | Err err => (st, Some (Wrapf "computing relative path: %w" [] err))
      | Ok relPath =>
        if String.eqb relPath "." then (st, None)     (* skip the root *)
        else
          let header := zip_FileInfoHeader path info in
          let header :=
            if treeIsDir info
            then {| zh_Name := relPath +:+ "/"; zh_Mode := zh_Mode header;
                    zh_Method := zh_Method header |}
            else {| zh_Name := relPath; zh_Mode := zh_Mode header;
                    zh_Method := zip_Deflate |} in
          match zip_CreateHeader (pk_zip st) header with
          | Some err => (st, Some (Wrapf "creating zip entry: %w" [] err))
          | None =>
            match info with
            | TDir _ _ | TNoList _ _ => (written st header [], None)
            | TFile _ (Err err) =>
                (written st header [],
                 Some (Wrapf "opening file: %w" [] err))
            | TFile _ (Ok file) =>
              match ctx (pk_polls st) with
              | Some cerr => (written (polled st) header [], Some cerr)
              | None =>
                let st := polled st in
                match s_fault file with
                | Some err =>
                    (written st header (s_data file),
                     Some (Wrapf "copying file contents: %w" [] err))
                | None => (written st header (s_data file), None)
                end
              end
            end
          end
      end
    end
  end.

(** The loop of [walk] over the names of a directory: each name is
    joined to the path and the node of that name is walked. *)
Fixpoint walkNames (path : string)
  (children : list (string * (string -> Packer -> Packer * option error)))
  (st : Packer) : Packer * option error :=
  match children with
  | [] => (st, None)
  | (name, walkChild) :: rest =>
      match walkChild (Join [path; name]) st with
      | (st', Some err) => (st', Some err)
      | (st', None) => walkNames path rest st'
      end
  end.

(** [walk] of path/filepath with the callback of [CompressToZip].  The
    callback returns errors of [fmt.Errorf] and of the context, never
    [filepath.SkipDir] or [filepath.SkipAll], so the comparisons with
    these two are left out; a name that [ReadDir] has returned is found
    by [Lstat]. *)
Fixpoint walk (ctx : Context) (src path : string) (info : Tree)
  (st : Packer) : Packer * option error :=
  match info with
  | TFile _ _ => compressVisit ctx src path (inl info) st
  | TDir _ entries =>
      let children :=
        sortByName
          (map (fun e => (fst e, fun p s => walk ctx src p (snd e) s))
               entries) in
      match compressVisit ctx src path (inl info) st with
      | (st1, Some err1) => (st1, Some err1)
      | (st1, None) => walkNames path children st1
      end
  | TNoList _ err => compressVisit ctx src path (inr err) st
  end.

(** [filepath.Walk(src, fn)].  The tree is the one that the file system
    holds when the walk starts. *)
Definition Walk (ctx : Context) (fs : gmap string inode) (src : string)
  (st : Packer) : Packer * option error :=
  match lstatTree fs src with
  | Err err => compressVisit ctx src src (inr err) st
  | Ok info => walk ctx src src info st
  end.

(** [CompressToZip].  The deferred [zipWriter.Close()] and
    [zipFile.Close()] run on every return after the file has been
    created, so the archive file holds the entries written so far. *)
Definition CompressToZip (ctx : Context) (fs : gmap string inode)
  (src dest : string) : gmap string inode * option error :=
  match os_Create fs dest with
  | (fs1, Some err) => (fs1, Some (Wrapf "creating zip file: %w" [] err))
  | (fs1, None) =>
      match Walk ctx fs1 src {| pk_polls := 0; pk_zip := [] |} with
      | (st, err) => (writeFile fs1 dest (zip_bytes (pk_zip st)), err)
      end
  end.

End Compression.

(** The induction principle of [Tree]: a property of the nodes that a
    directory has it when its entries have it. *)
Section TreeInduction.
Variable P : Tree -> Prop.
Hypothesis Hfile : forall mode open, P (TFile mode open).
Hypothesis Hdir :
  forall mode entries,
    Forall (fun e => P (snd e)) entries -> P (TDir mode entries).
Hypothesis Hnolist : forall mode err, P (TNoList mode err).

Fixpoint Tree_induction (node : Tree) : P node :=
  match node with
  | TFile mode open => Hfile mode open
  | TDir mode entries =>
      Hdir mode entries
        ((fix go (es : list (string * Tree))
            : Forall (fun e => P (snd e)) es :=
            match es with
            | [] => List.Forall_nil _
            | e :: rest =>
                List.Forall_cons _ e rest (Tree_induction (snd e)) (go rest)
            end) entries)
  | TNoList mode err => Hnolist mode err
  end.
End TreeInduction.
(* ===================================================================== *)
(** ** Definitions used in the statements and proofs *)
(* ===================================================================== *)

(** A string without separator. *)
Fixpoint sepfree (s : string) : bool :=
  match s with
  | EmptyString => true
  | String c t => negb (IsPathSeparator c) && sepfree t
  end.

(** A real path element: what the default case of the loop copies. *)
Definition realElem (e : string) : Prop :=
  e <> "" /\ e <> "." /\ e <> ".." /\ sepfree e = true.

(** The shape of the buffer, last element first: real elements above a
    block of [..] elements, which is empty for a rooted path. *)
Fixpoint wfStack (rooted : bool) (out : list string) : Prop :=
  match out with
  | [] => True
  | e :: out' =>
      (realElem e /\ wfStack rooted out')
      \/ (e = ".." /\ rooted = false /\ Forall (eq "..") out')
  end.


(** [filepath.Abs] when the working directory is [cwd]. *)
Definition Abs (cwd path : string) : string :=
  if isRooted path then Clean path else Join [cwd; path].

(** ** Sample data *)

(** A working directory with its two ancestors. *)
Definition parentsFs : gmap string inode :=
  {[ "." := Directory 493; ".." := Directory 493; "../.." := Directory 493 ]}.

(** A regular file entry of a TAR archive whose name climbs one level. *)
Definition climbingEntry : TarEntry :=
  {| h_Name := "../f"; h_Typeflag := TypeReg; h_Mode := 420;
     h_body := {| s_data := [x68; x69]; s_fault := None |} |}.

(** Codecs that decode every file to one fixed archive, with [CreateDir]
    as the spec describes it. *)
Definition fixedExternals (files : list ArchiveFile) (tr : TarReader)
  : Externals :=
  {| zip_OpenReader := fun _ _ => Ok files;
     sevenzip_OpenReader := fun _ _ => Ok files;
     gzip_NewReader := fun r => Ok r;
     tar_NewReader := fun _ => tr;
     CreateDir := CreateDir_spec |}.

Definition helloBytes : list byte := [x68; x65; x6c; x6c; x6f; x0a].

(** An archive as [tar -c ./ ] writes it: the entry [./] of the
    directory itself, then a file. *)
Definition dotSlashFiles : list ArchiveFile :=
  [ {| f_Name := "./"; f_Mode := Z.lor ModeDir 493;
       f_Open := Ok {| s_data := []; s_fault := None |} |};
    {| f_Name := "./hello.txt"; f_Mode := 420;
       f_Open := Ok {| s_data := helloBytes; s_fault := None |} |} ].

Definition dotSlashTar : TarReader :=
  {| tr_entries :=
       [ {| h_Name := "./"; h_Typeflag := TypeDir; h_Mode := 493;
            h_body := {| s_data := []; s_fault := None |} |};
         {| h_Name := "./hello.txt"; h_Typeflag := TypeReg; h_Mode := 420;
            h_body := {| s_data := helloBytes; s_fault := None |} |} ];
     tr_end := io_EOF |}.

(** A working directory holding one file [pkg.bin]. *)
Definition pkgFs : gmap string inode :=
  {[ "." := Directory 493; "pkg.bin" := Regular 420 helloBytes ]}.

(** The bytes that reading a node from its start can yield. *)
Definition nodeData (nd : inode) : option (list byte) :=
  match nd with
  | Regular _ data | CharDevice data => Some data
  | Directory _ => None
  end.

Definition ustarMagic : list byte := list_byte_of_string "ustar".


(** The first 263 bytes of a TAR header whose file name starts with the
    four bytes [PK\003\004]: ZIP magic at offset 0, [ustar] at 257. *)
Definition zipTarBytes : list byte :=
  zipMagic ++ repeat x00 253 ++ ustarMagic ++ [x00].

(** The same with a file name that starts with the 7-Zip magic. *)
Definition sevenZipTarBytes : list byte :=
  sevenZipMagic ++ repeat x00 251 ++ ustarMagic ++ [x00].

Definition polyglotFs : gmap string inode :=
  {[ "." := Directory 493;
     "report.docx" := Regular 420 zipTarBytes;
     "pkg.7z" := Regular 420 sevenZipTarBytes;
     "tty" := CharDevice zipMagic;
     "short.zip" := Regular 420 [x50; x4b; x03] ]}.

(** The 107 bytes of [hello.tar.gz]: the gzip compression (level 9, no
    name, no time stamp) of a POSIX ustar archive holding the one file
    [hello.txt] with the six bytes [hello\n]. *)
Definition helloTarGz : list byte :=
  [x1f; x8b; x08; x00; x00; x00; x00; x00; x02; x03; xed; xd1; x31; x0a; x83;
   x40; x10; x05; xd0; xa9; x3d; x45; x4e; x20; x5b; x18; x73; x9e; x14; x82;
   x85; x10; x88; x2b; xe4; xf8; xee; xa6; x12; x7b; x05; xf1; xbd; xe6; x0f;
   x7f; x8a; x29; x66; x1c; xa6; xe9; xd3; xe6; x5f; x8e; xe3; xa4; xa2; xef;
   xba; x7f; x16; xfb; xac; xdb; xcd; x5c; xfb; x57; x9f; x9e; xf1; x48; x71;
   x82; x65; xce; xef; x6f; x39; x19; xf7; x34; xd6; xff; x37; x01; x00; x00;
   x00; x00; x00; x00; x00; x00; xc0; xc5; xac; xa4; x67; x70; xf4; x00; x28;
   x00; x00].

Definition targzFs : gmap string inode :=
  {[ "." := Directory 493; "hello.tar.gz" := Regular 420 helloTarGz ]}.

(** What [ExtractArchive] returns when it hands the archive to an
    adapter whose result is [r]: the path and the file system of the
    adapter, or its error wrapped with the name of the format. *)
Definition delegated (format : string)
  (r out : gmap string inode * (string * option error)) : Prop :=
  match r with
  | (fs', (aipPath, None)) => out = (fs', (aipPath, None))
  | (fs', (_, Some err)) => out = (fs', ("", Some (Wrapf format [] err)))
  end.

(** Codecs for which the ZIP reader finds one file and the TAR reader an
    invalid header. *)
Definition zipOnlyExternals : Externals :=
  fixedExternals
    [ {| f_Name := "word/document.xml"; f_Mode := 420;
         f_Open := Ok {| s_data := helloBytes; s_fault := None |} |} ]
    {| tr_entries := [];
       tr_end := CodecError "archive/tar: invalid tar header" |}.

(** A directory holding a [.docx] file that starts with the ZIP
    signature and is too short to be taken for a TAR archive. *)
Definition docxFs : gmap string inode :=
  {[ "." := Directory 493; "out" := Directory 493;
     "plain.docx" := Regular 420 (zipMagic ++ [x14; x00; x06; x00]) ]}.

(** A context that is cancelled once [n] polls have been answered. *)
Definition cancelAfter (n : nat) : Context :=
  fun i => if (i <? n)%nat then None else Some context_Canceled.

(** An archive with a directory and two files under it. *)
Definition docsDir : ArchiveFile :=
  {| f_Name := "docs/"; f_Mode := Z.lor ModeDir 493;
     f_Open := Ok {| s_data := []; s_fault := None |} |}.

Definition helloFile : ArchiveFile :=
  {| f_Name := "docs/hello.txt"; f_Mode := 420;
     f_Open := Ok {| s_data := helloBytes; s_fault := None |} |}.

Definition againFile : ArchiveFile :=
  {| f_Name := "docs/again.txt"; f_Mode := 420;
     f_Open := Ok {| s_data := helloBytes; s_fault := None |} |}.

Definition docsFiles : list ArchiveFile := [docsDir; helloFile; againFile].

Definition docsDirHeader : TarEntry :=
  {| h_Name := "docs/"; h_Typeflag := TypeDir; h_Mode := 493;
     h_body := {| s_data := []; s_fault := None |} |}.

Definition helloHeader : TarEntry :=
  {| h_Name := "docs/hello.txt"; h_Typeflag := TypeReg; h_Mode := 420;
     h_body := {| s_data := helloBytes; s_fault := None |} |}.

Definition againHeader : TarEntry :=
  {| h_Name := "docs/again.txt"; h_Typeflag := TypeReg; h_Mode := 420;
     h_body := {| s_data := helloBytes; s_fault := None |} |}.

Definition docsTar : TarReader :=
  {| tr_entries := [docsDirHeader; helloHeader; againHeader];
     tr_end := io_EOF |}.

Definition docsExternals : Externals := fixedExternals docsFiles docsTar.

(** The file system after the first entry, and after the first two
    entries, of the [docs] archive have been extracted to [out]. *)
Definition docsFsAfterOne (dirPerm : Z) : gmap string inode :=
  <["out/docs" := Directory dirPerm]> (<["out" := Directory 488]> pkgFs).

Definition docsFsAfterTwo (dirPerm filePerm : Z) : gmap string inode :=
  <["out/docs/hello.txt" := Regular filePerm helloBytes]>
    (docsFsAfterOne dirPerm).



(** The extensions that [IsActualArchive] rejects. *)
Definition nonArchiveExtensions : list string :=
  [".docx"; ".xlsx"; ".pptx"; ".docm"; ".xlsm"; ".pptm";
   ".odt"; ".ods"; ".odp"; ".odg"; ".odf"; ".jar"].

(** A byte that is neither a dot nor a separator. *)
Definition plainChar (c : ascii) : bool :=
  negb (Ascii.eqb c ".") && negb (IsPathSeparator c).

(** A dot followed by bytes that are neither dots nor separators. *)
Definition extensionShaped (s : string) : bool :=
  match s with
  | String c t =>
      Ascii.eqb c "." && forallb plainChar (list_ascii_of_string t)
  | EmptyString => false
  end.

(** [key] is the cleaned destination [root] or a path that has [root]
    and a separator as a prefix. *)
Definition underRoot (root key : string) : Prop :=
  key = root \/ HasPrefix key (root +:+ String Separator "") = true.

(** Two file systems that differ at most under [root]. *)
Definition sameOutside (root : string) (fs fs' : gmap string inode) : Prop :=
  forall key, ~ underRoot root key -> fs' !! key = fs !! key.

(** [CreateDir] changes nothing but the path it is given. *)
Definition CreateDir_local (E : Externals) : Prop :=
  forall fs path fs' e key,
    CreateDir fs path = (fs', e) -> key <> Clean path ->
    fs' !! key = fs !! key.

(** ** Definitions used in the statements about [CompressToZip] *)

(** Names in the order of [sort.Strings]: each one at most the next, by
    the order of the bytes. *)
Fixpoint ascending (l : list string) : bool :=
  match l with
  | x :: (y :: _) as rest => String.leb x y && ascending rest
  | _ => true
  end.

(** A name that an entry of a directory can have. *)
Definition entryName (name : string) : bool :=
  negb (String.eqb name "") && negb (String.eqb name ".")
  && negb (String.eqb name "..") && sepfree name.

(** A tree that can be read to its end: the names of every directory
    can be read and are names of entries, every file can be opened and
    read without a fault. *)
Fixpoint readable (node : Tree) : bool :=
  match node with
  | TFile _ (Ok file) =>
      match s_fault file with
      | None => true
      | Some _ => false
      end
  | TFile _ (Err _) => false
  | TDir _ entries =>
      forallb (fun e => entryName (fst e) && readable (snd e)) entries
  | TNoList _ _ => false
  end.

(** The nodes below a node, each with the names that lead to it from
    the node: the entries of a directory in the order of their names,
    each one before what is below it. *)
Fixpoint members (node : Tree) : list (list string * Tree) :=
  match node with
  | TDir _ entries =>
      List.concat
        (map snd
           (sortByName
              (map (fun e =>
                      (fst e,
                       ([fst e], snd e)
                       :: map (fun m => (fst e :: fst m, snd m))
                              (members (snd e))))
                   entries)))
  | _ => []
  end.

(** The archive entry of a node found under the given names: the names
    joined by slashes, with a slash at the end and nothing stored for a
    directory, with the content deflated for a file. *)
Definition entryOf (m : list string * Tree) : ZipRecord :=
  let rel := String.concat "/" (fst m) in
  match snd m with
  | TFile mode open =>
      {| zr_header := {| zh_Name := rel; zh_Mode := mode;
                         zh_Method := zip_Deflate |};
         zr_data := match open with
                    | Ok file => s_data file
                    | Err _ => []
                    end |}
  | TDir mode _ | TNoList mode _ =>
      {| zr_header := {| zh_Name := rel +:+ "/";
                         zh_Mode := Z.lor ModeDir mode;
                         zh_Method := zip_Store |};
         zr_data := [] |}
  end.

Definition archived (tree : Tree) : list ZipRecord :=
  map entryOf (members tree).

(** [filepath.Rel] gives the names joined by slashes for a path that
    lies these names below [src]. *)
Definition Rel_below `{Packing} (src : string) : Prop :=
  forall names,
    names <> [] -> Forall (fun n => entryName n = true) names ->
    filepath_Rel src (src +:+ String Separator (String.concat "/" names))
    = Ok (String.concat "/" names).

(** ** Sample data for [CompressToZip] *)

(** What is left of [s] after the prefix [pre]. *)
Fixpoint dropPrefix (pre s : string) : option string :=
  match pre, s with
  | EmptyString, _ => Some s
  | String a pre', String b s' =>
      if Ascii.eqb a b then dropPrefix pre' s' else None
  | String _ _, EmptyString => None
  end.

(** A directory found at every path, a comparison of paths that knows
    the paths below the base only, a writer that takes every header, and
    the contents one after the other for the bytes of the archive. *)
Definition fixedPacking (found : result Tree) : Packing :=
  {| lstatTree := fun _ _ => found;
     rel_lexical := fun base targ =>
       match dropPrefix (base +:+ "/") targ with
       | Some rest => Ok rest
       | None => Err (Errorf "Rel: can't make %s relative to %s" [targ; base])
       end;
     zip_CreateHeader := fun _ _ => None;
     zip_bytes := flat_map zr_data |}.

(** A directory [docs] with a file and a directory holding a file. *)
Definition docsTree : Tree :=
  TDir 493
    [ ("sub", TDir 493
         [ ("again.txt",
            TFile 420 (Ok {| s_data := helloBytes; s_fault := None |})) ]);
      ("hello.txt",
       TFile 420 (Ok {| s_data := helloBytes; s_fault := None |})) ].

(** A working directory holding the directory [docs]. *)
Definition cwdFs : gmap string inode :=
  {[ "." := Directory 493; "docs" := Directory 493;
     "out.zip" := Regular 420 helloBytes; "restored" := Directory 493 ]}.

(** [path] lies the given names below [src]: cleaning it leaves the
    buffer of [src] with the names on top. *)
Definition below (src path : string) (names : list string) : Prop :=
  path <> ""
  /\ isRooted path = isRooted src
  /\ cleanElems (isRooted src) (elements path)
     = rev names ++ cleanElems (isRooted src) (elements src)
  /\ Forall realElem names.

(** The entry that the walk writes for the node itself: none for the
    source. *)
Definition ownEntry (names : list string) (node : Tree) : list ZipRecord :=
  match names with
  | [] => []
  | _ :: _ => [entryOf (names, node)]
  end.

(** A member of a node seen from the names above the node. *)
Definition under (names : list string) (m : list string * Tree)
  : list string * Tree :=
  (names ++ fst m, snd m).

(** A directory entry followed by what is below it. *)
Definition withMembers (e : string * Tree) : list (list string * Tree) :=
  ([fst e], snd e) :: map (fun m => (fst e :: fst m, snd m)) (members (snd e)).

(** ** The polls of the context in [CompressToZip] *)

(** The polls of the context in the visit of a node: one for the source
    and for a directory, two for a file. *)
Definition ownPolls (names : list string) (node : Tree) : nat :=
  match names with
  | [] => 1
  | _ :: _ => if treeIsDir node then 1 else 2
  end.

Definition memberPolls (m : list string * Tree) : nat :=
  if treeIsDir (snd m) then 1 else 2.

(** The polls of the context in the walk of a tree that can be read. *)
Definition polls (tree : Tree) : nat :=
  S (list_sum (map memberPolls (members tree))).

(** The context is not done at the [n] polls from the [from]-th on. *)
Definition quiet (ctx : Context) (from n : nat) : Prop :=
  forall j, from <= j < from + n -> ctx j = None.

(** The context is done for the first time, from the [from]-th poll on,
    at the [i]-th poll. *)
Definition doneAt (ctx : Context) (from i : nat) (cerr : error) : Prop :=
  from <= i /\ ctx i = Some cerr /\ forall j, from <= j < i -> ctx j = None.

(** The walk of a node that can be read, by the polls of the context:
    when the context is not done at any of them, the entry of the node
    and the entries of its members are written; when it is done at one
    of them, its error is returned. *)
Definition polledWalk `{Packing} (ctx : Context) (src : string)
  (info : Tree) : Prop :=
  forall path names st,
    below src path names ->
    Forall (fun n => entryName n = true) names ->
    let total :=
      ownPolls names info + list_sum (map memberPolls (members info)) in
    (quiet ctx (pk_polls st) total ->
     walk ctx src path info st
     = ({| pk_polls := pk_polls st + total;
           pk_zip := pk_zip st ++ ownEntry names info
                     ++ map entryOf (map (under names) (members info)) |},
        None))
    /\ (forall i cerr,
          doneAt ctx (pk_polls st) i cerr ->
          i < pk_polls st + total ->
          exists st', walk ctx src path info st = (st', Some cerr)).

(** The polls of the entries of a directory. *)
Definition childPolls (l : list (string * Tree)) : nat :=
  list_sum (map memberPolls (List.concat (map withMembers l))).

(** ** [CompressToZip] followed by [ExtractZip] *)


(** An entry of the archive as the reader of [archive/zip] gives it
    back. *)
Definition asFile (r : ZipRecord) : ArchiveFile :=
  {| f_Name := zh_Name (zr_header r);
     f_Mode := zh_Mode (zr_header r);
     f_Open := Ok {| s_data := zr_data r; s_fault := None |} |}.

(** What [ExtractZip] leaves for a node: a directory of mode [0o750], a
    file of mode [0o666] with the content up to the cap. *)
Definition extractedAs (node : Tree) : inode :=
  match node with
  | TFile _ (Ok file) =>
      Regular 438 (takeN maxExtractFileSize (s_data file))
  | TFile _ (Err _) => Regular 438 []
  | TDir _ _ | TNoList _ _ => Directory 488
  end.

(** The path the given names below [root]. *)
Definition pathAt (root : string) (names : list string) : string :=
  match names with
  | [] => root
  | _ :: _ => root +:+ String Separator (String.concat "/" names)
  end.

Fixpoint distinctNames (l : list string) : bool :=
  match l with
  | [] => true
  | x :: rest => negb (existsb (String.eqb x) rest) && distinctNames rest
  end.

(** A tree as a file system holds it: the names of a directory differ,
    the mode of a file is not the mode of a directory. *)
Fixpoint plainTree (node : Tree) : bool :=
  match node with
  | TFile mode _ => negb (IsDir mode)
  | TDir _ entries =>
      distinctNames (map fst entries)
      && forallb (fun e => plainTree (snd e)) entries
  | TNoList _ _ => true
  end.

(** A cleaned path other than [/] and [.]. *)
Definition properDir (d : string) : Prop :=
  Clean d = d /\ d <> "/" /\ d <> ".".

(** The entries of a node and of its members, found under the given
    names. *)
Definition entriesOf (names : list string) (node : Tree)
  : list ArchiveFile :=
  map asFile
    (map entryOf ((names, node) :: map (under names) (members node))).

(** The loop of [ExtractZip] on the entries of a node whose place is
    free in a directory that is there: it goes through them all, leaves
    what is outside of the place of the node as it is, and leaves the
    node and each of its members at their paths. *)
Definition extractsTo `{Externals} (root : string) (node : Tree) : Prop :=
  forall names n i fs perm,
    Forall realElem names -> realElem n ->
    fs !! pathAt root names = Some (Directory perm) ->
    fs !! pathAt root (names ++ [n]) = None ->
    (forall m, In m (members node) ->
               fs !! pathAt root ((names ++ [n]) ++ fst m) = None) ->
    exists fs' j,
      (forall rest,
         ExtractZip_loop Background i (root +:+ String Separator "")
           (entriesOf (names ++ [n]) node ++ rest) fs
         = ExtractZip_loop Background j (root +:+ String Separator "")
             rest fs')
      /\ (forall key, ~ underRoot (pathAt root (names ++ [n])) key ->
                      fs' !! key = fs !! key)
      /\ fs' !! pathAt root (names ++ [n]) = Some (extractedAs node)
      /\ (forall m, In m (members node) ->
                    fs' !! pathAt root ((names ++ [n]) ++ fst m)
                    = Some (extractedAs (snd m))).

(** Codecs that read the archive of [docs] back as it was written. *)
Definition docsZipExternals : Externals :=
  fixedExternals (map asFile (archived docsTree)) docsTar.
(* ===================================================================== *)
(** * Properties *)
(* ===================================================================== *)

(** ** The path functions on the tables of Go's tests *)

(** The table of [TestClean] in Go's path/filepath. *)
Example Clean_table :
  map Clean
    [ "abc"; "abc/def"; "a/b/c"; "."; ".."; "../.."; "../../abc"; "/abc"; "/";
      ""; "abc/"; "abc/def/"; "a/b/c/"; "./"; "../"; "../../"; "/abc/";
      "abc//def//ghi"; "abc//"; "abc/./def"; "/./abc/def"; "abc/.";
      "abc/def/ghi/../jkl"; "abc/def/../ghi/../jkl"; "abc/def/..";
      "abc/def/../.."; "/abc/def/../.."; "abc/def/../../..";
      "/abc/def/../../.."; "abc/def/../../../ghi/jkl/../../../mno";
      "/../abc"; "abc/./../def"; "abc//./../def"; "abc/../../././../def" ]
  = [ "abc"; "abc/def"; "a/b/c"; "."; ".."; "../.."; "../../abc"; "/abc"; "/";
      "."; "abc"; "abc/def"; "a/b/c"; "."; ".."; "../.."; "/abc";
      "abc/def/ghi"; "abc"; "abc/def"; "/abc/def"; "abc";
      "abc/def/jkl"; "abc/jkl"; "abc";
      "."; "/"; "..";
      "/"; "../../mno";
      "/abc"; "def"; "def"; "../../def" ].
Proof. reflexivity. Qed.

Example Join_table :
  map Join
    [ []; [""]; ["/"]; ["a"]; ["a"; "b"]; ["a"; ""]; [""; "b"]; ["/"; "a"];
      ["/"; "a/b"]; ["/"; ""]; ["/a"; "b"]; ["a"; "/b"]; ["/a"; "/b"];
      ["a/"; "b"]; ["a/"; ""]; [""; ""] ]
  = [ ""; ""; "/"; "a"; "a/b"; "a"; "b"; "/a";
      "/a/b"; "/"; "/a/b"; "a/b"; "/a/b";
      "a/b"; "a"; "" ].
Proof. reflexivity. Qed.

Example Ext_table :
  map Ext ["path.go"; "path.pb.go"; "a.dir/b"; "a.dir/b.go"; "a.dir/"; ""; "x."]
  = [".go"; ".go"; ""; ".go"; ""; ""; "."].
Proof. reflexivity. Qed.

Example Base_table :
  map Base [""; "."; "/."; "/"; "////"; "x/"; "abc"; "abc/def"; "a/b/.x";
            "a/b/c."; "a/b/c.x"]
  = ["."; "."; "."; "/"; "/"; "x"; "abc"; "def"; ".x"; "c."; "c.x"].
Proof. reflexivity. Qed.

Example Dir_table :
  map Dir [""; "."; "/."; "/"; "/foo"; "x/"; "abc"; "abc/def"; "a/b/.x";
           "a/b/c."; "a/b/c.x"]
  = ["."; "."; "/"; "/"; "/"; "x"; "."; "abc"; "a/b"; "a/b"; "a/b"].
Proof. reflexivity. Qed.

Example TrimSuffix_table :
  map (fun p => TrimSuffix (fst p) (snd p))
      [("pkg.zip", ".zip"); ("pkg.tar.gz", ".gz"); ("pkg", ""); ("pkg", ".zip");
       (".zip", ".zip")]
  = ["pkg"; "pkg.tar"; "pkg"; "pkg"; ""].
Proof. reflexivity. Qed.
(** ** Strings *)

Lemma append_nil (b : string) : "" +:+ b = b.
Proof. reflexivity. Qed.

Lemma append_cons (c : ascii) (a b : string) :
  String c a +:+ b = String c (a +:+ b).
Proof. reflexivity. Qed.

Lemma length_append (a b : string) :
  String.length (a +:+ b) = String.length a + String.length b.
Proof.
  induction a as [|c a IH]; [reflexivity|].
  rewrite append_cons; simpl; now rewrite IH.
Qed.

Lemma prefix_length (a b : string) :
  String.prefix a b = true -> String.length a <= String.length b.
Proof.
  revert b; induction a as [|c a IH]; intros [|c' b]; simpl;
    try lia; try discriminate.
  destruct (ascii_dec c c'); [|discriminate].
  intros Hp; apply IH in Hp; lia.
Qed.

(** No string has itself followed by a separator as a prefix. *)
Lemma HasPrefix_longer (x : string) (c : ascii) :
  HasPrefix x (x +:+ String c "") = false.
Proof.
  unfold HasPrefix.
  destruct (String.prefix (x +:+ String c "") x) eqn:Hp; [|reflexivity].
  apply prefix_length in Hp. rewrite length_append in Hp. simpl in Hp. lia.
Qed.

Lemma append_nonempty (a : string) (c : ascii) (b : string) :
  a +:+ String c b <> "".
Proof. destruct a; discriminate. Qed.

Lemma append_assoc (a b c : string) : (a +:+ b) +:+ c = a +:+ (b +:+ c).
Proof.
  induction a as [|x a IH]; [reflexivity|].
  rewrite !append_cons; now rewrite IH.
Qed.

(** ** Path elements *)

Lemma elements_nonnil (s : string) : elements s <> [].
Proof.
  induction s as [|c s IH]; simpl; [discriminate|].
  destruct (IsPathSeparator c); [discriminate|].
  destruct (elements s); [contradiction | discriminate].
Qed.

Lemma elements_app_sep (a b : string) :
  elements (a +:+ String Separator b) = elements a ++ elements b.
Proof.
  induction a as [|c a IH]; [reflexivity|].
  rewrite append_cons; simpl.
  destruct (IsPathSeparator c); [now rewrite IH|].
  rewrite IH. pose proof (elements_nonnil a) as Hn.
  destruct (elements a); [contradiction | reflexivity].
Qed.

Lemma elements_sepfree (s : string) :
  Forall (fun e => sepfree e = true) (elements s).
Proof.
  induction s as [|c s IH]; simpl; [repeat constructor|].
  destruct (IsPathSeparator c) eqn:Hc; [constructor; [reflexivity | exact IH]|].
  destruct (elements s) as [|e es]; [repeat constructor; simpl; now rewrite Hc|].
  inversion IH; subst. constructor; [simpl; now rewrite Hc | assumption].
Qed.

Lemma elements_of_sepfree (e : string) : sepfree e = true -> elements e = [e].
Proof.
  induction e as [|c e IH]; simpl; [reflexivity|].
  destruct (IsPathSeparator c); simpl; [discriminate|].
  intros Hs. now rewrite (IH Hs).
Qed.

Lemma concat_cons (x y : string) (l : list string) :
  String.concat "/" (x :: y :: l)
  = x +:+ String Separator (String.concat "/" (y :: l)).
Proof. reflexivity. Qed.

Lemma elements_concat (comps : list string) :
  comps <> [] -> Forall (fun e => sepfree e = true) comps ->
  elements (String.concat "/" comps) = comps.
Proof.
  induction comps as [|e comps IH]; [contradiction|].
  intros _ Hall. inversion Hall as [|? ? He Hrest]; subst.
  destruct comps as [|e' comps].
  - now apply elements_of_sepfree.
  - rewrite concat_cons, elements_app_sep, (elements_of_sepfree e He), IH;
      [reflexivity | discriminate | assumption].
Qed.

(** ** The output buffer of [Clean] *)

Lemma dotdots_wfStack (out : list string) :
  Forall (eq "..") out -> wfStack false out.
Proof.
  induction out as [|e out IH]; simpl; [trivial|].
  intros Hall. inversion Hall; subst. right. repeat split; assumption.
Qed.

Lemma cleanStep_real (r : bool) (out : list string) (e : string) :
  realElem e -> cleanStep r out e = e :: out.
Proof.
  intros (H1 & H2 & H3 & _). unfold cleanStep.
  destruct (String.eqb_spec e ""); [contradiction|].
  destruct (String.eqb_spec e "."); [contradiction|].
  destruct (String.eqb_spec e ".."); [contradiction|reflexivity].
Qed.

Lemma cleanStep_wfStack (r : bool) (out : list string) (e : string) :
  sepfree e = true -> wfStack r out -> wfStack r (cleanStep r out e).
Proof.
  intros Hs Hwf. unfold cleanStep.
  destruct (String.eqb_spec e ""); [assumption|].
  destruct (String.eqb_spec e "."); [assumption|].
  destruct (String.eqb_spec e "..") as [->|Hne].
  - destruct out as [|top out'].
    + destruct r; simpl; [trivial|]. right. repeat split. constructor.
    + destruct (String.eqb_spec top "..") as [->|Htop].
      * destruct r; [assumption|]. simpl. right. repeat split.
        simpl in Hwf. destruct Hwf as [[(_ & _ & Hdd & _) _] | (_ & _ & Hall)];
          [congruence | now constructor].
      * simpl in Hwf. destruct Hwf as [[_ Hwf] | (Heq & _)];
          [assumption | congruence].
  - simpl. left. repeat split; assumption.
Qed.

Lemma fold_cleanStep_wfStack (r : bool) (es acc : list string) :
  Forall (fun e => sepfree e = true) es -> wfStack r acc ->
  wfStack r (fold_left (cleanStep r) es acc).
Proof.
  revert acc; induction es as [|e es IH]; intros acc Hall Hwf; simpl;
    [assumption|].
  inversion Hall; subst. apply IH; [assumption|].
  now apply cleanStep_wfStack.
Qed.

Lemma cleanElems_wfStack (r : bool) (s : string) :
  wfStack r (cleanElems r (elements s)).
Proof.
  apply fold_cleanStep_wfStack; [apply elements_sepfree | exact I].
Qed.

Lemma wfStack_elems (r : bool) (out : list string) :
  wfStack r out -> Forall (fun e => sepfree e = true /\ e <> "") out.
Proof.
  induction out as [|e out IH]; simpl; [constructor|].
  intros [[(Hne & _ & _ & Hs) Hwf] | (-> & -> & Hall)].
  - constructor; [split; assumption | now apply IH].
  - constructor; [split; [reflexivity | discriminate]|].
    apply IH. now apply dotdots_wfStack.
Qed.

(** Cleaning the elements of a well-formed buffer writes the same
    buffer again. *)
Lemma cleanElems_replay (r : bool) (out : list string) :
  wfStack r out -> cleanElems r (rev out) = out.
Proof.
  unfold cleanElems.
  induction out as [|e out IH]; simpl; [reflexivity|].
  intros Hwf. rewrite fold_left_app. simpl.
  destruct Hwf as [[Hreal Hwf] | (-> & -> & Hall)].
  - rewrite IH by assumption. now apply cleanStep_real.
  - rewrite IH by now apply dotdots_wfStack.
    destruct out as [|top out]; [reflexivity|].
    inversion Hall; subst. reflexivity.
Qed.

Lemma concat_head (c : ascii) (e : string) (rest : list string) :
  exists t, String.concat "/" (String c e :: rest) = String c t.
Proof.
  destruct rest as [|e' rest]; [now exists e|].
  exists (e +:+ String Separator (String.concat "/" (e' :: rest))).
  reflexivity.
Qed.

Lemma Clean_unfold (s : string) :
  Clean s
  = render (isRooted s) (rev (cleanElems (isRooted s) (elements s))).
Proof.
  unfold Clean. destruct (String.eqb_spec s "") as [->|]; reflexivity.
Qed.

(** The result of [Clean] is not empty, is rooted exactly when the
    argument is, and has the buffer as its elements. *)
Lemma Clean_replay (s : string) :
  Clean s <> ""
  /\ isRooted (Clean s) = isRooted s
  /\ cleanElems (isRooted s) (elements (Clean s))
     = cleanElems (isRooted s) (elements s).
Proof.
  rewrite Clean_unfold.
  pose proof (cleanElems_wfStack (isRooted s) s) as Hwf.
  set (r := isRooted s) in *. set (out := cleanElems r (elements s)) in *.
  pose proof (cleanElems_replay r out Hwf) as Hreplay.
  pose proof (wfStack_elems r out Hwf) as Helems.
  apply Forall_rev in Helems.
  destruct (rev out) as [|e comps] eqn:Hrev.
  - assert (out = []) as Hout.
    { rewrite <- (rev_involutive out), Hrev. reflexivity. }
    rewrite Hout. destruct r; repeat split; discriminate.
  - inversion Helems as [|? ? [Hs Hne] Hrest]; subst.
    assert (elements (String.concat "/" (e :: comps)) = e :: comps) as Hel.
    { apply elements_concat; [discriminate|].
      constructor; [assumption|].
      eapply Forall_impl; [exact Hrest|]. intros ? [? _]; assumption. }
    destruct e as [|c e]; [contradiction|].
    destruct (concat_head c e comps) as [t Ht].
    simpl in Hs. apply andb_prop in Hs as [Hc _].
    apply negb_true_iff in Hc.
    destruct r; unfold render.
    + repeat split; [discriminate|].
      change (elements (String Separator (String.concat "/" (String c e :: comps))))
        with ("" :: elements (String.concat "/" (String c e :: comps))).
      rewrite Hel. exact Hreplay.
    + rewrite Ht. repeat split; [discriminate | exact Hc |].
      rewrite <- Ht, Hel. exact Hreplay.
Qed.

Lemma Clean_nonempty (s : string) : Clean s <> "".
Proof. apply Clean_replay. Qed.

(** [Clean] is idempotent. *)
Lemma Clean_idempotent (s : string) : Clean (Clean s) = Clean s.
Proof.
  destruct (Clean_replay s) as (_ & Hr & He).
  rewrite (Clean_unfold (Clean s)), Hr, He. symmetry. apply Clean_unfold.
Qed.

(** A cleaned path followed by a separator and more: the loop goes on
    from the buffer of the cleaned path. *)
Lemma Clean_app_sep (d b : string) :
  Clean (Clean d +:+ String Separator b)
  = render (isRooted d)
      (rev (fold_left (cleanStep (isRooted d)) (elements b)
                      (cleanElems (isRooted d) (elements d)))).
Proof.
  destruct (Clean_replay d) as (Hne & Hr & He).
  rewrite Clean_unfold.
  assert (isRooted (Clean d +:+ String Separator b) = isRooted d) as ->.
  { rewrite <- Hr. destruct (Clean d); [contradiction | reflexivity]. }
  rewrite elements_app_sep. unfold cleanElems at 1.
  rewrite fold_left_app. fold (cleanElems (isRooted d) (elements (Clean d))).
  now rewrite He.
Qed.

Lemma Clean_trailing_sep (d : string) :
  Clean (Clean d +:+ String Separator "") = Clean d.
Proof. rewrite Clean_app_sep. simpl. symmetry. apply Clean_unfold. Qed.

(** The path that [safeJoin] validates. *)
Lemma safeJoin_filePath (d name : string) :
  Join [Clean d +:+ String Separator ""; name]
  = render (isRooted d)
      (rev (fold_left (cleanStep (isRooted d)) (elements name)
                      (cleanElems (isRooted d) (elements d)))).
Proof.
  unfold Join.
  destruct (String.eqb_spec (Clean d +:+ String Separator "") "") as [He|_];
    [now apply append_nonempty in He|].
  rewrite concat_cons.
  change (String.concat "/" [name]) with name.
  rewrite append_assoc.
  change (String Separator "" +:+ String Separator name)
    with (String Separator (String Separator name)).
  rewrite Clean_app_sep. reflexivity.
Qed.

Lemma Join_clean (d name : string) :
  Clean (Join [Clean d +:+ String Separator ""; name])
  = Join [Clean d +:+ String Separator ""; name].
Proof.
  unfold Join.
  destruct (String.eqb_spec (Clean d +:+ String Separator "") "") as [He|_];
    [now apply append_nonempty in He|].
  apply Clean_idempotent.
Qed.

(** [safeJoin] in one equation: the joined path is returned when it has
    the cleaned root and a separator as a prefix, and the error names the
    joined path otherwise. *)
Lemma safeJoin_unfold (d name : string) :
  safeJoin d name
  = let filePath := Join [Clean d +:+ String Separator ""; name] in
    if HasPrefix filePath (Clean d +:+ String Separator "")
    then (filePath, None)
    else ("", Some (Errorf "illegal file path: %s" [filePath])).
Proof.
  unfold safeJoin, validatePath.
  rewrite Clean_trailing_sep, Join_clean. simpl.
  destruct (HasPrefix _ _); reflexivity.
Qed.

(** ** C1: containment of the joined path *)

(** [safeJoin] on some roots and entry names.  A name that starts with a
    separator is joined below the root like any other name. *)
Example safeJoin_table :
  map (fun p => safeJoin (fst p) (snd p))
      [ ("/tmp/x", "a/b.txt"); ("/tmp/x", "a/../b.txt");
        ("/tmp/x", "/etc/passwd"); ("out", "docs/");
        ("/tmp/x", "../etc/passwd"); ("/tmp/x", "a/../../x2/f");
        ("out", "../out2/f"); ("/tmp/x", "..") ]
  = [ ("/tmp/x/a/b.txt", None); ("/tmp/x/b.txt", None);
      ("/tmp/x/etc/passwd", None); ("out/docs", None);
      ("", Some (Errorf "illegal file path: %s" ["/tmp/etc/passwd"]));
      ("", Some (Errorf "illegal file path: %s" ["/tmp/x2/f"]));
      ("", Some (Errorf "illegal file path: %s" ["out2/f"]));
      ("", Some (Errorf "illegal file path: %s" ["/tmp"])) ].
Proof. reflexivity. Qed.

(** When [safeJoin] succeeds it returns the joined path, and the cleaned
    joined path has the cleaned root followed by a separator as a
    prefix. *)
Lemma safeJoin_success_prefix (d name p : string) :
  safeJoin d name = (p, None) ->
  p = Join [Clean d +:+ String Separator ""; name]
  /\ HasPrefix (Clean p) (Clean d +:+ String Separator "") = true.
Proof.
  rewrite safeJoin_unfold. cbv zeta.
  destruct (HasPrefix _ _) eqn:Hp; [|discriminate].
  intros Heq.
  assert (p = Join [Clean d +:+ String Separator ""; name]) as -> by congruence.
  split; [reflexivity|]. now rewrite Join_clean.
Qed.

(** When the cleaned joined path lacks that prefix, [safeJoin] fails
    with the illegal-file-path error and returns no path. *)
Lemma safeJoin_failure (d name : string) :
  HasPrefix (Join [Clean d +:+ String Separator ""; name])
            (Clean d +:+ String Separator "") = false ->
  safeJoin d name
  = ("", Some (Errorf "illegal file path: %s"
                      [Join [Clean d +:+ String Separator ""; name]])).
Proof. rewrite safeJoin_unfold. cbv zeta. now intros ->. Qed.

(** C1 (code defect).  The claim: for every destination root, an entry
    name whose [../] segments resolve outside the root makes [safeJoin],
    and so the extraction, fail, and no output path is produced outside
    the root.  The code at the root [..] and the entry name [../f]:
    [safeJoin] succeeds with [../../f], because the test is a prefix test
    on strings and [../../f] starts with [../].  From the working
    directory [/a/b/c] the root is [/a/b] and the returned path is
    [/a/f], which is outside of it; [ExtractTar]'s loop writes the file
    there. *)
Theorem safeJoin_relative_root_escape :
  safeJoin ".." "../f" = ("../../f", None)
  /\ Abs "/a/b/c" ".." = "/a/b"
  /\ Abs "/a/b/c" "../../f" = "/a/f"
  /\ HasPrefix (Abs "/a/b/c" "../../f")
               (Abs "/a/b/c" ".." +:+ String Separator "") = false
  /\ ExtractTar_loop Background 0 (Clean ".." +:+ String Separator "")
                     [climbingEntry] io_EOF parentsFs
     = (<["../../f" := Regular 438 [x68; x69]]> parentsFs, None).
Proof. repeat split; vm_compute; reflexivity. Qed.

(** ** The extraction loops *)

Arguments safeJoin : simpl never.
Arguments Clean : simpl never.
Arguments Join : simpl never.
Arguments Dir : simpl never.
Arguments os_Mkdir : simpl never.
Arguments os_OpenFile : simpl never.
Arguments os_Create : simpl never.
Arguments statMkdir : simpl never.
Arguments io_Copy : simpl never.
Arguments LimitReader : simpl never.
Arguments os_IsExist : simpl never.
Arguments sanitizeFileMode : simpl never.
Arguments IsDir : simpl never.

Section LoopFacts.
Context `{Externals}.

(** An entry whose name [safeJoin] refuses makes the loop return an
    error, wherever the entry stands in the archive. *)
Lemma ExtractZip_loop_unsafe (ctx : Context) (cleanDest : string)
  (files : list ArchiveFile) (e : ArchiveFile) :
  In e files -> snd (safeJoin cleanDest (f_Name e)) <> None ->
  forall i fs, snd (ExtractZip_loop ctx i cleanDest files fs) <> None.
Proof.
  induction files as [|file rest IH]; [contradiction|].
  intros Hin Hbad i fs. simpl.
  destruct (ctx i); [discriminate|].
  destruct (safeJoin cleanDest (f_Name file)) as [filePath [err|]] eqn:Hsj;
    [discriminate|].
  destruct Hin as [->|Hin]; [rewrite Hsj in Hbad; contradiction|].
  specialize (IH Hin Hbad).
  destruct (IsDir _).
  - destruct (CreateDir fs filePath) as [fs1 [err|]];
      [discriminate | apply IH].
  - destruct (CreateDir fs (Dir filePath)) as [fs1 [err|]]; [discriminate|].
    destruct (os_Create fs1 filePath) as [fs2 [err|]]; [discriminate|].
    destruct (f_Open file) as [rc|err]; [|discriminate].
    destruct (s_fault _) as [err|]; [discriminate | apply IH].
Qed.

Lemma Extract7z_loop_unsafe (ctx : Context) (cleanDest : string)
  (files : list ArchiveFile) (e : ArchiveFile) :
  In e files -> snd (safeJoin cleanDest (f_Name e)) <> None ->
  forall i fs, snd (Extract7z_loop ctx i cleanDest files fs) <> None.
Proof.
  induction files as [|file rest IH]; [contradiction|].
  intros Hin Hbad i fs. simpl.
  destruct (ctx i); [discriminate|].
  destruct (safeJoin cleanDest (f_Name file)) as [outPath [err|]] eqn:Hsj;
    [discriminate|].
  destruct Hin as [->|Hin]; [rewrite Hsj in Hbad; contradiction|].
  specialize (IH Hin Hbad).
  destruct (IsDir _).
  - destruct (os_Mkdir fs outPath _) as [fs1 [err|]]; [|apply IH].
    destruct (negb _); [discriminate | apply IH].
  - destruct (statMkdir fs (Dir outPath)) as [fs1 [err|]]; [discriminate|].
    destruct (f_Open file) as [rc|err]; [|discriminate].
    destruct (os_OpenFile fs1 outPath _) as [fs2 [err|]]; [discriminate|].
    destruct (s_fault _) as [err|]; [discriminate | apply IH].
Qed.

Lemma ExtractTar_loop_unsafe (ctx : Context) (cleanDest : string)
  (headers : list TarEntry) (final : error) (e : TarEntry) :
  In e headers -> snd (safeJoin cleanDest (h_Name e)) <> None ->
  forall i fs,
    snd (ExtractTar_loop ctx i cleanDest headers final fs) <> None.
Proof.
  induction headers as [|header rest IH]; [contradiction|].
  intros Hin Hbad i fs. simpl.
  destruct (ctx i); [discriminate|].
  destruct (safeJoin cleanDest (h_Name header)) as [filePath [err|]] eqn:Hsj;
    [discriminate|].
  destruct Hin as [->|Hin]; [rewrite Hsj in Hbad; contradiction|].
  specialize (IH Hin Hbad).
  destruct (Byte.eqb _ TypeDir).
  - destruct (os_Mkdir fs filePath _) as [fs1 [err|]]; [|apply IH].
    destruct (negb _); [discriminate | apply IH].
  - destruct (Byte.eqb _ TypeReg); [|apply IH].
    destruct (statMkdir fs (Dir filePath)) as [fs1 [err|]]; [discriminate|].
    destruct (os_Create fs1 filePath) as [fs2 [err|]]; [discriminate|].
    destruct (s_fault _) as [err|]; [discriminate | apply IH].
Qed.

End LoopFacts.

(** ** The classifiers *)

Lemma bytes_eqb_eq (a b : list byte) : bytes_eqb a b = true <-> a = b.
Proof.
  revert b; induction a as [|x a IH]; intros [|y b]; simpl; split;
    try discriminate; try reflexivity.
  - intros Hb. apply andb_prop in Hb as [Hx Ha].
    apply byte_dec_bl in Hx. apply IH in Ha. congruence.
  - intros [= -> ->]. rewrite byte_dec_lb by reflexivity. now apply IH.
Qed.

Arguments bytes_eqb : simpl never.
Arguments buffer : simpl never.

(** [IsZipFile] holds exactly of the readable files that start with the
    four bytes of the ZIP signature. *)
Lemma IsZipFile_true (fs : gmap string inode) (path : string) :
  IsZipFile fs path = true <->
  exists nd data, resolve fs path = Some nd /\ nodeData nd = Some data
                  /\ firstn 4 data = zipMagic.
Proof.
  unfold IsZipFile, os_Open. split.
  - destruct (resolve fs path) as [nd|]; [|discriminate].
    intros Hz. exists nd.
    destruct nd as [perm data| |data]; unfold File_Read in Hz; simpl in Hz;
      [exists data | discriminate | exists data];
      (repeat split; [idtac]);
      destruct data as [|b0 [|b1 [|b2 [|b3 rest]]]]; simpl in Hz;
      try discriminate; apply bytes_eqb_eq in Hz; cbv in Hz;
      try discriminate Hz; simpl; exact Hz.
  - intros (nd & data & -> & Hd & Hm).
    destruct nd as [perm data'| |data']; simpl in Hd; try discriminate;
      injection Hd as ->;
      destruct data as [|b0 [|b1 [|b2 [|b3 rest]]]]; try discriminate Hm;
      injection Hm as -> -> -> ->; reflexivity.
Qed.

(** [Is7zFile] holds exactly of the readable files that start with the
    six bytes of the 7-Zip signature. *)
Lemma Is7zFile_true (fs : gmap string inode) (path : string) :
  Is7zFile fs path = true <->
  exists nd data, resolve fs path = Some nd /\ nodeData nd = Some data
                  /\ firstn 6 data = sevenZipMagic.
Proof.
  unfold Is7zFile, os_Open. split.
  - destruct (resolve fs path) as [nd|]; [|discriminate].
    intros Hz. exists nd.
    destruct nd as [perm data| |data]; unfold File_Read in Hz; simpl in Hz;
      [exists data | discriminate | exists data];
      (repeat split; [idtac]);
      destruct data as [|b0 [|b1 [|b2 [|b3 [|b4 [|b5 rest]]]]]]; simpl in Hz;
      try discriminate; apply bytes_eqb_eq in Hz; cbv in Hz;
      try discriminate Hz; simpl; exact Hz.
  - intros (nd & data & -> & Hd & Hm).
    destruct nd as [perm data'| |data']; simpl in Hd; try discriminate;
      injection Hd as ->;
      destruct data as [|b0 [|b1 [|b2 [|b3 [|b4 [|b5 rest]]]]]];
      try discriminate Hm; injection Hm as -> -> -> -> -> ->; reflexivity.
Qed.

Lemma ascii_of_byte_eq (b : byte) (c : ascii) :
  ascii_of_byte b = c -> b = byte_of_ascii c.
Proof. intros <-. symmetry. apply byte_of_ascii_of_byte. Qed.

(** [IsTarFile] holds exactly of the regular files of at least 263 bytes
    with [ustar] at offset 257. *)
Lemma IsTarFile_true (fs : gmap string inode) (path : string) :
  IsTarFile fs path = true <->
  exists perm data, resolve fs path = Some (Regular perm data)
                    /\ 263 <= List.length data
                    /\ firstn 5 (skipn 257 data) = ustarMagic.
Proof.
  unfold IsTarFile, os_Open. split.
  - destruct (resolve fs path) as [nd|]; [|discriminate].
    destruct nd as [perm data|perm|data]; [|discriminate|discriminate].
    cbv beta iota delta [File_Seek File_Read f_node f_off].
    remember (skipn 257 data) as rest eqn:Hrest.
    intros Hp. exists perm, data. split; [reflexivity|].
    pose proof (f_equal (@List.length byte) Hrest) as Hlen.
    rewrite length_skipn in Hlen. rewrite <- Hrest.
    destruct rest as [|b0 [|b1 [|b2 [|b3 [|b4 [|b5 rest']]]]]];
      try discriminate Hp.
    split; [cbn [List.length] in Hlen; lia|].
    unfold HasPrefix in Hp. apply prefix_correct in Hp.
    cbv in Hp. injection Hp as H0 H1 H2 H3 H4.
    apply ascii_of_byte_eq in H0, H1, H2, H3, H4. subst. reflexivity.
  - intros (perm & data & -> & Hlen & Hm).
    cbv beta iota delta [File_Seek File_Read f_node f_off].
    assert (6 <= List.length (skipn 257 data)) as Hrest
      by (rewrite length_skipn; lia).
    destruct (skipn 257 data) as [|b0 [|b1 [|b2 [|b3 [|b4 [|b5 rest']]]]]];
      cbn [List.length] in Hrest; try lia.
    injection Hm as -> -> -> -> ->. reflexivity.
Qed.

(** *** C3: which classifiers exclude each other *)

Lemma Is7z_IsZip_exclusive (fs : gmap string inode) (path : string) :
  Is7zFile fs path && IsZipFile fs path = false.
Proof.
  destruct (Is7zFile fs path) eqn:H7; [|reflexivity].
  destruct (IsZipFile fs path) eqn:Hz; [|reflexivity].
  apply Is7zFile_true in H7 as (nd & data & Hr & Hd & H6).
  apply IsZipFile_true in Hz as (nd' & data' & Hr' & Hd' & H4).
  assert (data' = data) as -> by congruence.
  destruct data as [|b0 rest]; [discriminate|].
  unfold sevenZipMagic in H6. unfold zipMagic in H4.
  simpl in H6, H4. congruence.
Qed.




(** *** C6: the classifiers are best-effort *)

(** C6.  Each classifier returns [true] only for a file whose header
    bytes match the signature (four bytes at offset 0 for ZIP, six bytes
    at offset 0 for 7-Zip, [ustar] at offset 257 of a file that reaches
    offset 263 for TAR).  The result is a boolean, and it is [false] on
    every failure path: when the file cannot be opened, when the read or
    the seek fails, and when the file is shorter than the header. *)
Theorem classifiers_false_on_failure :
  (forall fs path,
      IsZipFile fs path = true ->
      exists nd data, resolve fs path = Some nd /\ nodeData nd = Some data
                      /\ firstn 4 data = zipMagic)
  /\ (forall fs path,
        Is7zFile fs path = true ->
        exists nd data, resolve fs path = Some nd /\ nodeData nd = Some data
                        /\ firstn 6 data = sevenZipMagic)
  /\ (forall fs path,
        IsTarFile fs path = true ->
        exists perm data, resolve fs path = Some (Regular perm data)
                          /\ 263 <= List.length data
                          /\ firstn 5 (skipn 257 data) = ustarMagic)
  /\ (forall fs path e,
        os_Open fs path = Err e ->
        IsZipFile fs path = false /\ Is7zFile fs path = false
        /\ IsTarFile fs path = false)
  /\ (forall fs path f bs e,
        os_Open fs path = Ok f ->
        (File_Read f 4 = (bs, Some e) -> IsZipFile fs path = false)
        /\ (File_Read f 6 = (bs, Some e) -> Is7zFile fs path = false))
  /\ (forall fs path f f' e,
        os_Open fs path = Ok f -> File_Seek f 257 = (f', Some e) ->
        IsTarFile fs path = false)
  /\ (forall fs path f f' bs e,
        os_Open fs path = Ok f -> File_Seek f 257 = (f', None) ->
        File_Read f' 6 = (bs, Some e) -> IsTarFile fs path = false)
  /\ (forall fs path nd data,
        resolve fs path = Some nd -> nodeData nd = Some data ->
        (List.length data < 4 -> IsZipFile fs path = false)
        /\ (List.length data < 6 -> Is7zFile fs path = false)
        /\ (List.length data < 263 -> IsTarFile fs path = false)).
Proof.
  split; [intros fs path; apply IsZipFile_true|].
  split; [intros fs path; apply Is7zFile_true|].
  split; [intros fs path; apply IsTarFile_true|].
  split.
  { intros fs path e Ho. unfold IsZipFile, Is7zFile, IsTarFile.
    rewrite Ho. repeat split. }
  split.
  { intros fs path f bs e Ho. unfold IsZipFile, Is7zFile. rewrite Ho.
    split; intros ->; reflexivity. }
  split.
  { intros fs path f f' e Ho Hs. unfold IsTarFile. rewrite Ho, Hs.
    reflexivity. }
  split.
  { intros fs path f f' bs e Ho Hs Hr. unfold IsTarFile.
    rewrite Ho, Hs, Hr. reflexivity. }
  intros fs path nd data Hr Hd. repeat split; intros Hlen.
  - destruct (IsZipFile fs path) eqn:Hz; [|reflexivity].
    apply IsZipFile_true in Hz as (nd' & data' & Hr' & Hd' & Hm).
    assert (data' = data) as -> by congruence.
    apply (f_equal (@List.length byte)) in Hm.
    rewrite length_firstn in Hm.
    change (List.length zipMagic) with 4 in Hm. lia.
  - destruct (Is7zFile fs path) eqn:Hz; [|reflexivity].
    apply Is7zFile_true in Hz as (nd' & data' & Hr' & Hd' & Hm).
    assert (data' = data) as -> by congruence.
    apply (f_equal (@List.length byte)) in Hm.
    rewrite length_firstn in Hm.
    change (List.length sevenZipMagic) with 6 in Hm. lia.
  - destruct (IsTarFile fs path) eqn:Hz; [|reflexivity].
    apply IsTarFile_true in Hz as (perm & data' & Hr' & Hl & _).
    assert (data' = data) as -> by (rewrite Hr' in Hr; injection Hr as <-;
                                    simpl in Hd; congruence).
    lia.
Qed.

(** A missing file, a directory (its read fails), a terminal (its seek
    fails) and a file of three bytes. *)
Lemma classifiers_false_on_failure_witness :
  (IsZipFile polyglotFs "missing" = false
   /\ Is7zFile polyglotFs "missing" = false
   /\ IsTarFile polyglotFs "missing" = false)
  /\ (IsZipFile polyglotFs "." = false /\ Is7zFile polyglotFs "." = false)
  /\ IsTarFile polyglotFs "tty" = false
  /\ IsTarFile polyglotFs "." = false
  /\ (IsZipFile polyglotFs "short.zip" = false
      /\ Is7zFile polyglotFs "short.zip" = false
      /\ IsTarFile polyglotFs "short.zip" = false)
  /\ (exists nd data,
        resolve polyglotFs "report.docx" = Some nd
        /\ nodeData nd = Some data /\ firstn 4 data = zipMagic)
  /\ (exists nd data,
        resolve polyglotFs "pkg.7z" = Some nd
        /\ nodeData nd = Some data /\ firstn 6 data = sevenZipMagic)
  /\ (exists perm data,
        resolve polyglotFs "pkg.7z" = Some (Regular perm data)
        /\ 263 <= List.length data
        /\ firstn 5 (skipn 257 data) = ustarMagic).
Proof.
  destruct classifiers_false_on_failure
    as (Hzip & H7z & Htar & Hopen & Hread & Hseek & Htread & Hshort).
  repeat apply conj.
  - apply (Hopen polyglotFs "missing" (PathError "open" "missing" ENOENT)).
    reflexivity.
  - apply (Hopen polyglotFs "missing" (PathError "open" "missing" ENOENT)).
    reflexivity.
  - apply (Hopen polyglotFs "missing" (PathError "open" "missing" ENOENT)).
    reflexivity.
  - apply (proj1 (Hread polyglotFs "."
                        {| f_node := Directory 493; f_off := 0 |} []
                        (PathError "read" "" EISDIR) eq_refl)).
    reflexivity.
  - apply (proj2 (Hread polyglotFs "."
                        {| f_node := Directory 493; f_off := 0 |} []
                        (PathError "read" "" EISDIR) eq_refl)).
    reflexivity.
  - apply (Hseek polyglotFs "tty"
                 {| f_node := CharDevice zipMagic; f_off := 0 |}
                 {| f_node := CharDevice zipMagic; f_off := 0 |}
                 (PathError "seek" "" ESPIPE)); reflexivity.
  - apply (Htread polyglotFs "."
                  {| f_node := Directory 493; f_off := 0 |}
                  {| f_node := Directory 493; f_off := 257 |} []
                  (PathError "read" "" EISDIR)); reflexivity.
  - apply (Hshort polyglotFs "short.zip" (Regular 420 [x50; x4b; x03])
                  [x50; x4b; x03] eq_refl eq_refl). simpl; lia.
  - apply (Hshort polyglotFs "short.zip" (Regular 420 [x50; x4b; x03])
                  [x50; x4b; x03] eq_refl eq_refl). simpl; lia.
  - apply (Hshort polyglotFs "short.zip" (Regular 420 [x50; x4b; x03])
                  [x50; x4b; x03] eq_refl eq_refl). simpl; lia.
  - apply (Hzip polyglotFs "report.docx"). vm_compute; reflexivity.
  - apply (H7z polyglotFs "pkg.7z"). vm_compute; reflexivity.
  - apply (Htar polyglotFs "pkg.7z"). vm_compute; reflexivity.
Defined.

(** ** The dispatcher *)

(** The path that an adapter returns on success is not empty, so the
    check of [aipPath] after the [switch] never fires. *)
Lemma Join_cleanDest_nonempty (dest name : string) :
  Join [Clean dest +:+ String Separator ""; name] <> "".
Proof.
  unfold Join.
  destruct (String.eqb_spec (Clean dest +:+ String Separator "") "") as [He|_];
    [now apply append_nonempty in He|].
  apply Clean_nonempty.
Qed.

Section Dispatch.
Context `{Externals}.

Lemma ExtractZip_path (ctx : Context) (fs : gmap string inode)
  (src dest : string) :
  match ExtractZip ctx fs src dest with
  | (_, (p, None)) =>
      p = Join [Clean dest +:+ String Separator "";
                Base (TrimSuffix src (Ext src))]
  | (_, (p, Some _)) => p = ""
  end.
Proof.
  unfold ExtractZip.
  destruct (zip_OpenReader fs src) as [files|err]; [|reflexivity].
  destruct (CreateDir fs dest) as [fs0 [err|]]; [reflexivity|].
  cbv zeta.
  destruct (ExtractZip_loop _ _ _ _ _) as [fs1 [err|]]; reflexivity.
Qed.

Lemma Extract7z_path (ctx : Context) (fs : gmap string inode)
  (src dest : string) :
  match Extract7z ctx fs src dest with
  | (_, (p, None)) =>
      p = Join [Clean dest +:+ String Separator "";
                Base (TrimSuffix src (Ext src))]
  | (_, (p, Some _)) => p = ""
  end.
Proof.
  unfold Extract7z.
  destruct (sevenzip_OpenReader fs src) as [files|err]; [|reflexivity].
  destruct (statMkdir fs dest) as [fs0 [err|]]; [reflexivity|].
  cbv zeta.
  destruct (Extract7z_loop _ _ _ _ _) as [fs1 [err|]]; reflexivity.
Qed.

Lemma ExtractTar_path (ctx : Context) (fs : gmap string inode)
  (src dest : string) :
  match ExtractTar ctx fs src dest with
  | (_, (p, None)) =>
      p = Join [Clean dest +:+ String Separator "";
                Base (TrimSuffix src (Ext src))]
  | (_, (p, Some _)) => p = ""
  end.
Proof.
  unfold ExtractTar.
  destruct (openTar fs src) as [tr|err]; [|reflexivity].
  destruct (statMkdir fs dest) as [fs0 [err|]]; [reflexivity|].
  cbv zeta.
  destruct (ExtractTar_loop _ _ _ _ _ _) as [fs1 [err|]]; reflexivity.
Qed.

Lemma checkAipPath_delegated (src dest format : string)
  (r : gmap string inode * (string * option error)) :
  match r with
  | (_, (p, None)) =>
      p = Join [Clean dest +:+ String Separator "";
                Base (TrimSuffix src (Ext src))]
  | (_, (p, Some _)) => p = ""
  end ->
  delegated format r (checkAipPath src r format).
Proof.
  destruct r as [fs' [p [err|]]]; simpl; [reflexivity|].
  intros ->.
  destruct (String.eqb_spec (Join [Clean dest +:+ String Separator "";
                                   Base (TrimSuffix src (Ext src))]) "")
    as [He|_]; [now apply Join_cleanDest_nonempty in He | reflexivity].
Qed.

End Dispatch.

(** C4.  [ExtractArchive] tries 7-Zip, then TAR, then ZIP and hands the
    archive to the adapter of the first classifier that holds: it returns
    the path and the file system of that adapter, or the adapter's error
    wrapped with the name of the format.  When no classifier holds, the
    result is the error "archive is not in a supported format" with the
    source path as its argument, and the file system is returned as it
    was given. *)
Theorem ExtractArchive_dispatch :
  forall (E : Externals) ctx fs src dest,
    (Is7zFile fs src = true ->
     delegated "error extracting 7zip: %w" (Extract7z ctx fs src dest)
               (ExtractArchive ctx fs src dest))
    /\ (Is7zFile fs src = false -> IsTarFile fs src = true ->
        delegated "error extracting tar: %w" (ExtractTar ctx fs src dest)
                  (ExtractArchive ctx fs src dest))
    /\ (Is7zFile fs src = false -> IsTarFile fs src = false ->
        IsZipFile fs src = true ->
        delegated "error extracting zip: %w" (ExtractZip ctx fs src dest)
                  (ExtractArchive ctx fs src dest))
    /\ (Is7zFile fs src = false -> IsTarFile fs src = false ->
        IsZipFile fs src = false ->
        ExtractArchive ctx fs src dest
        = (fs, ("", Some (Errorf "archive is not in a supported format: %s"
                                 [src])))).
Proof.
  intros E ctx fs src dest. unfold ExtractArchive.
  split; [|split; [|split]].
  - intros ->. apply (checkAipPath_delegated src dest), Extract7z_path.
  - intros -> ->. apply (checkAipPath_delegated src dest), ExtractTar_path.
  - intros -> -> ->. apply (checkAipPath_delegated src dest), ExtractZip_path.
  - intros -> -> ->. reflexivity.
Qed.

(** A file with the 7-Zip signature and [ustar] at offset 257 goes to the
    7-Zip adapter, one with the ZIP signature and [ustar] to the TAR
    adapter, a short [.docx] to the ZIP adapter, and one of three bytes
    to none. *)
Lemma ExtractArchive_dispatch_witness :
  delegated "error extracting 7zip: %w"
            (@Extract7z zipOnlyExternals Background polyglotFs "pkg.7z" "out")
            (@ExtractArchive zipOnlyExternals Background polyglotFs
                             "pkg.7z" "out")
  /\ delegated "error extracting tar: %w"
               (@ExtractTar zipOnlyExternals Background polyglotFs
                            "report.docx" "out")
               (@ExtractArchive zipOnlyExternals Background polyglotFs
                                "report.docx" "out")
  /\ delegated "error extracting zip: %w"
               (@ExtractZip zipOnlyExternals Background docxFs
                            "plain.docx" "out")
               (@ExtractArchive zipOnlyExternals Background docxFs
                                "plain.docx" "out")
  /\ @ExtractArchive zipOnlyExternals Background polyglotFs "short.zip" "out"
     = (polyglotFs,
        ("", Some (Errorf "archive is not in a supported format: %s"
                          ["short.zip"]))).
Proof.
  repeat apply conj.
  - apply (ExtractArchive_dispatch zipOnlyExternals Background polyglotFs
                                   "pkg.7z" "out").
    vm_compute; reflexivity.
  - apply (ExtractArchive_dispatch zipOnlyExternals Background polyglotFs
                                   "report.docx" "out");
      vm_compute; reflexivity.
  - apply (ExtractArchive_dispatch zipOnlyExternals Background docxFs
                                   "plain.docx" "out");
      vm_compute; reflexivity.
  - apply (ExtractArchive_dispatch zipOnlyExternals Background polyglotFs
                                   "short.zip" "out");
      vm_compute; reflexivity.
Defined.

(** C2 (code defect).  The claim: a well-formed gzip-compressed TAR
    archive is classified by [ExtractArchive] and extracted.  The code on
    [hello.tar.gz], a 107-byte gzip-compressed ustar archive: the file
    starts with the gzip signature [1f 8b], so it has neither the 7-Zip
    nor the ZIP signature, and [IsTarFile] looks for [ustar] at offset
    257 of the compressed bytes, past the end of the file.  Whatever the
    codecs are, the dispatcher returns the unsupported-format error and
    writes nothing; the branch of [ExtractTar] for [.gz] names is not
    reached. *)
Theorem ExtractArchive_targz_unsupported :
  forall (E : Externals) ctx dest,
    firstn 2 helloTarGz = [x1f; x8b]
    /\ Is7zFile targzFs "hello.tar.gz" = false
    /\ IsTarFile targzFs "hello.tar.gz" = false
    /\ IsZipFile targzFs "hello.tar.gz" = false
    /\ HasSuffix "hello.tar.gz" ".gz" = true
    /\ ExtractArchive ctx targzFs "hello.tar.gz" dest
       = (targzFs,
          ("", Some (Errorf "archive is not in a supported format: %s"
                            ["hello.tar.gz"]))).
Proof.
  intros E ctx dest.
  assert (Is7zFile targzFs "hello.tar.gz" = false) as H7
    by (vm_compute; reflexivity).
  assert (IsTarFile targzFs "hello.tar.gz" = false) as Ht
    by (vm_compute; reflexivity).
  assert (IsZipFile targzFs "hello.tar.gz" = false) as Hz
    by (vm_compute; reflexivity).
  repeat apply conj; try assumption; try (vm_compute; reflexivity).
Qed.

(** ** C7: cancellation *)

Section Cancellation.
Context `{Externals}.

(** While the context is not cancelled, a loop does what it does under
    a context that is never cancelled; it then goes on with the rest of
    the archive. *)
Lemma ExtractZip_loop_prefix (ctx : Context) (cleanDest : string)
  (pre rest : list ArchiveFile) :
  forall i i' fs,
    (forall j, j < List.length pre -> ctx (i + j) = None) ->
    ExtractZip_loop ctx i cleanDest (pre ++ rest) fs
    = match ExtractZip_loop Background i' cleanDest pre fs with
      | (fs1, None) =>
          ExtractZip_loop ctx (i + List.length pre) cleanDest rest fs1
      | r => r
      end.
Proof.
  induction pre as [|file pre IH]; intros i i' fs Hctx.
  - simpl. now rewrite Nat.add_0_r.
  - assert (ctx i = None) as Hi
      by (rewrite <- (Nat.add_0_r i); apply Hctx; simpl; lia).
    assert (forall j, j < List.length pre -> ctx (S i + j) = None) as Hrest
      by (intros j Hj; replace (S i + j) with (i + S j) by lia;
          apply Hctx; simpl; lia).
    simpl. rewrite Hi.
    replace (i + S (List.length pre)) with (S i + List.length pre) by lia.
    destruct (safeJoin cleanDest (f_Name file)) as [filePath [err|]];
      [reflexivity|].
    destruct (IsDir _).
    + destruct (CreateDir fs filePath) as [fs1 [err|]]; [reflexivity|].
      now apply IH.
    + destruct (CreateDir fs (Dir filePath)) as [fs1 [err|]]; [reflexivity|].
      destruct (os_Create fs1 filePath) as [fs2 [err|]]; [reflexivity|].
      destruct (f_Open file) as [rc|err]; [|reflexivity].
      destruct (s_fault _) as [err|]; [reflexivity|].
      now apply IH.
Qed.

Lemma Extract7z_loop_prefix (ctx : Context) (cleanDest : string)
  (pre rest : list ArchiveFile) :
  forall i i' fs,
    (forall j, j < List.length pre -> ctx (i + j) = None) ->
    Extract7z_loop ctx i cleanDest (pre ++ rest) fs
    = match Extract7z_loop Background i' cleanDest pre fs with
      | (fs1, None) =>
          Extract7z_loop ctx (i + List.length pre) cleanDest rest fs1
      | r => r
      end.
Proof.
  induction pre as [|file pre IH]; intros i i' fs Hctx.
  - simpl. now rewrite Nat.add_0_r.
  - assert (ctx i = None) as Hi
      by (rewrite <- (Nat.add_0_r i); apply Hctx; simpl; lia).
    assert (forall j, j < List.length pre -> ctx (S i + j) = None) as Hrest
      by (intros j Hj; replace (S i + j) with (i + S j) by lia;
          apply Hctx; simpl; lia).
    simpl. rewrite Hi.
    replace (i + S (List.length pre)) with (S i + List.length pre) by lia.
    destruct (safeJoin cleanDest (f_Name file)) as [outPath [err|]];
      [reflexivity|].
    destruct (IsDir _).
    + destruct (os_Mkdir fs outPath _) as [fs1 [err|]]; [|now apply IH].
      destruct (negb _); [reflexivity | now apply IH].
    + destruct (statMkdir fs (Dir outPath)) as [fs1 [err|]]; [reflexivity|].
      destruct (f_Open file) as [rc|err]; [|reflexivity].
      destruct (os_OpenFile fs1 outPath _) as [fs2 [err|]]; [reflexivity|].
      destruct (s_fault _) as [err|]; [reflexivity|].
      now apply IH.
Qed.

Lemma ExtractTar_loop_prefix (ctx : Context) (cleanDest : string)
  (final : error) (pre rest : list TarEntry) :
  forall i i' fs,
    (forall j, j < List.length pre -> ctx (i + j) = None) ->
    ExtractTar_loop ctx i cleanDest (pre ++ rest) final fs
    = match ExtractTar_loop Background i' cleanDest pre io_EOF fs with
      | (fs1, None) =>
          ExtractTar_loop ctx (i + List.length pre) cleanDest rest final fs1
      | r => r
      end.
Proof.
  induction pre as [|header pre IH]; intros i i' fs Hctx.
  - simpl. now rewrite Nat.add_0_r.
  - assert (ctx i = None) as Hi
      by (rewrite <- (Nat.add_0_r i); apply Hctx; simpl; lia).
    assert (forall j, j < List.length pre -> ctx (S i + j) = None) as Hrest
      by (intros j Hj; replace (S i + j) with (i + S j) by lia;
          apply Hctx; simpl; lia).
    simpl. rewrite Hi.
    replace (i + S (List.length pre)) with (S i + List.length pre) by lia.
    destruct (safeJoin cleanDest (h_Name header)) as [filePath [err|]];
      [reflexivity|].
    destruct (Byte.eqb _ TypeDir).
    + destruct (os_Mkdir fs filePath _) as [fs1 [err|]]; [|now apply IH].
      destruct (negb _); [reflexivity | now apply IH].
    + destruct (Byte.eqb _ TypeReg); [|now apply IH].
      destruct (statMkdir fs (Dir filePath)) as [fs1 [err|]]; [reflexivity|].
      destruct (os_Create fs1 filePath) as [fs2 [err|]]; [reflexivity|].
      destruct (s_fault _) as [err|]; [reflexivity|].
      now apply IH.
Qed.

(** The loops when the signal is found set at the poll of index [k]. *)
Lemma ExtractZip_loop_cancelled (ctx : Context) (cleanDest : string)
  (files : list ArchiveFile) (fs fs1 : gmap string inode) (k : nat)
  (err : error) :
  k < List.length files ->
  (forall j, j < k -> ctx j = None) -> ctx k = Some err ->
  ExtractZip_loop Background 0 cleanDest (firstn k files) fs = (fs1, None) ->
  ExtractZip_loop ctx 0 cleanDest files fs = (fs1, Some err).
Proof.
  intros Hk Hbefore Hat Hpre.
  rewrite <- (firstn_skipn k files) at 1.
  rewrite (ExtractZip_loop_prefix ctx cleanDest _ _ 0 0 fs), Hpre.
  - rewrite length_firstn, Nat.min_l by lia.
    destruct (skipn k files) as [|e post] eqn:Hskip.
    + apply (f_equal (@List.length _)) in Hskip.
      rewrite length_skipn in Hskip. simpl in Hskip. lia.
    + simpl. now rewrite Hat.
  - intros j Hj. rewrite length_firstn in Hj. apply Hbefore. simpl. lia.
Qed.

Lemma Extract7z_loop_cancelled (ctx : Context) (cleanDest : string)
  (files : list ArchiveFile) (fs fs1 : gmap string inode) (k : nat)
  (err : error) :
  k < List.length files ->
  (forall j, j < k -> ctx j = None) -> ctx k = Some err ->
  Extract7z_loop Background 0 cleanDest (firstn k files) fs = (fs1, None) ->
  Extract7z_loop ctx 0 cleanDest files fs = (fs1, Some err).
Proof.
  intros Hk Hbefore Hat Hpre.
  rewrite <- (firstn_skipn k files) at 1.
  rewrite (Extract7z_loop_prefix ctx cleanDest _ _ 0 0 fs), Hpre.
  - rewrite length_firstn, Nat.min_l by lia.
    destruct (skipn k files) as [|e post] eqn:Hskip.
    + apply (f_equal (@List.length _)) in Hskip.
      rewrite length_skipn in Hskip. simpl in Hskip. lia.
    + simpl. now rewrite Hat.
  - intros j Hj. rewrite length_firstn in Hj. apply Hbefore. simpl. lia.
Qed.

Lemma ExtractTar_loop_cancelled (ctx : Context) (cleanDest : string)
  (headers : list TarEntry) (final : error) (fs fs1 : gmap string inode)
  (k : nat) (err : error) :
  k <= List.length headers ->
  (forall j, j < k -> ctx j = None) -> ctx k = Some err ->
  ExtractTar_loop Background 0 cleanDest (firstn k headers) io_EOF fs
  = (fs1, None) ->
  ExtractTar_loop ctx 0 cleanDest headers final fs = (fs1, Some err).
Proof.
  intros Hk Hbefore Hat Hpre.
  rewrite <- (firstn_skipn k headers) at 1.
  rewrite (ExtractTar_loop_prefix ctx cleanDest final _ _ 0 0 fs), Hpre.
  - rewrite length_firstn, Nat.min_l by lia.
    destruct (skipn k headers); simpl; now rewrite Hat.
  - intros j Hj. rewrite length_firstn in Hj. apply Hbefore. simpl. lia.
Qed.

End Cancellation.

(** C7.  Every adapter polls the context before each entry.  When the
    signal is first found set at the poll of index [k], the polls before
    having found it unset, the adapter returns the error of the context
    and the file system that the uncancelled extraction of the first [k]
    entries leaves: what was written for these entries stays, and
    nothing is written for the entries from [k] on.  For TAR the poll
    comes before the header is read, so [k] may also be the poll after
    the last entry. *)
Theorem extraction_cancelled :
  (forall (E : Externals) ctx fs src dest files fs0 fs1 k err,
      zip_OpenReader fs src = Ok files ->
      CreateDir fs dest = (fs0, None) ->
      k < List.length files ->
      (forall j, j < k -> ctx j = None) -> ctx k = Some err ->
      ExtractZip_loop Background 0 (Clean dest +:+ String Separator "")
                      (firstn k files) fs0 = (fs1, None) ->
      ExtractZip ctx fs src dest = (fs1, ("", Some err)))
  /\ (forall (E : Externals) ctx fs src dest files fs0 fs1 k err,
        sevenzip_OpenReader fs src = Ok files ->
        statMkdir fs dest = (fs0, None) ->
        k < List.length files ->
        (forall j, j < k -> ctx j = None) -> ctx k = Some err ->
        Extract7z_loop Background 0 (Clean dest +:+ String Separator "")
                       (firstn k files) fs0 = (fs1, None) ->
        Extract7z ctx fs src dest = (fs1, ("", Some err)))
  /\ (forall (E : Externals) ctx fs src dest tr fs0 fs1 k err,
        openTar fs src = Ok tr ->
        statMkdir fs dest = (fs0, None) ->
        k <= List.length (tr_entries tr) ->
        (forall j, j < k -> ctx j = None) -> ctx k = Some err ->
        ExtractTar_loop Background 0 (Clean dest +:+ String Separator "")
                        (firstn k (tr_entries tr)) io_EOF fs0 = (fs1, None) ->
        ExtractTar ctx fs src dest = (fs1, ("", Some err))).
Proof.
  split; [|split].
  - intros E ctx fs src dest files fs0 fs1 k err Ho Hd Hk Hb Hat Hpre.
    unfold ExtractZip. rewrite Ho, Hd. cbv zeta.
    now rewrite (ExtractZip_loop_cancelled ctx _ files fs0 fs1 k err).
  - intros E ctx fs src dest files fs0 fs1 k err Ho Hd Hk Hb Hat Hpre.
    unfold Extract7z. rewrite Ho, Hd. cbv zeta.
    now rewrite (Extract7z_loop_cancelled ctx _ files fs0 fs1 k err).
  - intros E ctx fs src dest tr fs0 fs1 k err Ho Hd Hk Hb Hat Hpre.
    unfold ExtractTar. rewrite Ho, Hd. cbv zeta.
    now rewrite (ExtractTar_loop_cancelled ctx _ (tr_entries tr) (tr_end tr)
                   fs0 fs1 k err).
Qed.

(** The signal fires after two entries of the three of the [docs]
    archive: the directory and the first file are on disk, the second
    file is not. *)
Lemma extraction_cancelled_witness :
  @ExtractZip docsExternals (cancelAfter 2) pkgFs "pkg.bin" "out"
  = (docsFsAfterTwo 488 438, ("", Some context_Canceled))
  /\ @Extract7z docsExternals (cancelAfter 2) pkgFs "pkg.bin" "out"
     = (docsFsAfterTwo 493 420, ("", Some context_Canceled))
  /\ @ExtractTar docsExternals (cancelAfter 2) pkgFs "pkg.bin" "out"
     = (docsFsAfterTwo 493 438, ("", Some context_Canceled)).
Proof.
  destruct extraction_cancelled as (Hzip & H7z & Htar).
  assert (forall j, j < 2 -> cancelAfter 2 j = None) as Hbefore
    by (intros [|[|j]] Hj; [reflexivity | reflexivity | lia]).
  split; [|split].
  - apply (Hzip docsExternals (cancelAfter 2) pkgFs "pkg.bin" "out" docsFiles
                (<["out" := Directory 488]> pkgFs) _ 2 context_Canceled);
      [reflexivity | vm_compute; reflexivity | simpl; lia | exact Hbefore
       | reflexivity | vm_compute; reflexivity].
  - apply (H7z docsExternals (cancelAfter 2) pkgFs "pkg.bin" "out" docsFiles
               (<["out" := Directory 488]> pkgFs) _ 2 context_Canceled);
      [reflexivity | vm_compute; reflexivity | simpl; lia | exact Hbefore
       | reflexivity | vm_compute; reflexivity].
  - apply (Htar docsExternals (cancelAfter 2) pkgFs "pkg.bin" "out" docsTar
                (<["out" := Directory 488]> pkgFs) _ 2 context_Canceled);
      [vm_compute; reflexivity | vm_compute; reflexivity | simpl; lia
       | exact Hbefore | reflexivity | vm_compute; reflexivity].
Defined.

(** ** C5: the size cap *)

Lemma takeN_length (n : N) (l : list byte) :
  N.of_nat (List.length (takeN n l)) = N.min n (N.of_nat (List.length l)).
Proof.
  revert n; induction l as [|b t IH]; intros n; simpl; [lia|].
  destruct (N.eqb_spec n 0) as [->|Hn]; simpl; [lia|].
  specialize (IH (N.pred n)). lia.
Qed.

Lemma takeN_all (n : N) (l : list byte) :
  (N.of_nat (List.length l) <= n)%N -> takeN n l = l.
Proof.
  revert n; induction l as [|b t IH]; intros n Hn; simpl; [reflexivity|].
  simpl in Hn. destruct (N.eqb_spec n 0) as [->|Hn0]; [lia|].
  rewrite IH; [reflexivity | lia].
Qed.

Lemma takeN_prefix (n : N) (l : list byte) :
  exists rest, l = takeN n l ++ rest.
Proof.
  revert n; induction l as [|b t IH]; intros n; simpl; [now exists []|].
  destruct (N.eqb n 0); [now exists (b :: t)|].
  destruct (IH (N.pred n)) as [rest Hrest]. exists rest. simpl. congruence.
Qed.

Lemma LimitReader_data (r : Stream) (n : N) :
  s_data (LimitReader r n) = takeN n (s_data r).
Proof.
  unfold LimitReader.
  destruct (N.leb_spec n (N.of_nat (List.length (s_data r)))); simpl;
    [reflexivity|].
  symmetry. apply takeN_all. lia.
Qed.

Lemma LimitReader_fault (r : Stream) (n : N) :
  (n <= N.of_nat (List.length (s_data r)))%N \/ s_fault r = None ->
  s_fault (LimitReader r n) = None.
Proof.
  unfold LimitReader.
  destruct (N.leb_spec n (N.of_nat (List.length (s_data r)))); simpl;
    [reflexivity|].
  intros [Hle|Hf]; [lia | exact Hf].
Qed.

(** What has been copied into a file that was opened for writing is its
    content afterwards. *)
Lemma written_content (fs fs2 : gmap string inode) (path : string)
  (perm : Z) (data : list byte) :
  os_OpenFile fs path perm = (fs2, None) ->
  (forall input, resolve fs path <> Some (CharDevice input)) ->
  exists perm', resolve (writeFile fs2 path data) path
                = Some (Regular perm' data).
Proof.
  unfold os_OpenFile, writeFile, resolve.
  destruct (String.eqb_spec path "") as [|Hne]; [discriminate|].
  destruct (fs !! Clean path) as [[perm0 d|perm0|input]|] eqn:Hl.
  - intros [= <-] _. rewrite lookup_insert_eq. exists perm0.
    now rewrite lookup_insert_eq.
  - discriminate.
  - intros _ Hdev. now specialize (Hdev input).
  - destruct (parentIsDir fs path); [discriminate|].
    intros [= <-] _. rewrite lookup_insert_eq. eexists.
    now rewrite lookup_insert_eq.
Qed.

(** C5.  The cap is 5 GiB.  In each adapter a file entry is copied
    through [io.LimitReader(_, maxExtractFileSize)]: what is written to
    the output file is the content of the entry cut at the cap, the loop
    goes on with the next entry without an error, whether or not the
    content was cut, and the file then holds these bytes.  The bytes
    written are a prefix of the content, exactly [maxExtractFileSize]
    many when the content is longer than the cap and all of them when it
    is not. *)
Theorem copy_capped_at_5GiB :
  maxExtractFileSize = (5 * 2 ^ 30)%N
  /\ (forall n l,
        N.of_nat (List.length (takeN n l))
        = N.min n (N.of_nat (List.length l)))
  /\ (forall n l, (N.of_nat (List.length l) <= n)%N -> takeN n l = l)
  /\ (forall n l, exists rest, l = takeN n l ++ rest)
  /\ (forall (E : Externals) ctx i cleanDest file rest fs filePath fs1 fs2 rc,
        ctx i = None ->
        safeJoin cleanDest (f_Name file) = (filePath, None) ->
        IsDir (f_Mode file) = false ->
        CreateDir fs (Dir filePath) = (fs1, None) ->
        os_Create fs1 filePath = (fs2, None) ->
        f_Open file = Ok rc ->
        (maxExtractFileSize <= N.of_nat (List.length (s_data rc)))%N
        \/ s_fault rc = None ->
        ExtractZip_loop ctx i cleanDest (file :: rest) fs
        = ExtractZip_loop ctx (S i) cleanDest rest
            (writeFile fs2 filePath (takeN maxExtractFileSize (s_data rc))))
  /\ (forall ctx i cleanDest file rest fs outPath fs1 fs2 rc,
        ctx i = None ->
        safeJoin cleanDest (f_Name file) = (outPath, None) ->
        IsDir (f_Mode file) = false ->
        statMkdir fs (Dir outPath) = (fs1, None) ->
        f_Open file = Ok rc ->
        os_OpenFile fs1 outPath (sanitizeFileMode (f_Mode file))
        = (fs2, None) ->
        (maxExtractFileSize <= N.of_nat (List.length (s_data rc)))%N
        \/ s_fault rc = None ->
        Extract7z_loop ctx i cleanDest (file :: rest) fs
        = Extract7z_loop ctx (S i) cleanDest rest
            (writeFile fs2 outPath (takeN maxExtractFileSize (s_data rc))))
  /\ (forall ctx i cleanDest header rest final fs filePath fs1 fs2,
        ctx i = None ->
        safeJoin cleanDest (h_Name header) = (filePath, None) ->
        h_Typeflag header = TypeReg ->
        statMkdir fs (Dir filePath) = (fs1, None) ->
        os_Create fs1 filePath = (fs2, None) ->
        (maxExtractFileSize
         <= N.of_nat (List.length (s_data (h_body header))))%N
        \/ s_fault (h_body header) = None ->
        ExtractTar_loop ctx i cleanDest (header :: rest) final fs
        = ExtractTar_loop ctx (S i) cleanDest rest final
            (writeFile fs2 filePath
               (takeN maxExtractFileSize (s_data (h_body header)))))
  /\ (forall fs fs2 path perm data,
        os_OpenFile fs path perm = (fs2, None) ->
        (forall input, resolve fs path <> Some (CharDevice input)) ->
        exists perm', resolve (writeFile fs2 path data) path
                      = Some (Regular perm' data)).
Proof.
  split; [reflexivity|].
  split; [exact takeN_length|].
  split; [exact takeN_all|].
  split; [exact takeN_prefix|].
  split; [|split; [|split]].
  - intros E ctx i cleanDest file rest fs filePath fs1 fs2 rc
           Hctx Hsj Hdir Hmk Hcr Hop Hcap.
    simpl. rewrite Hctx, Hsj, Hdir, Hmk, Hcr, Hop.
    now rewrite LimitReader_fault, LimitReader_data.
  - intros ctx i cleanDest file rest fs outPath fs1 fs2 rc
           Hctx Hsj Hdir Hmk Hop Hcr Hcap.
    simpl. rewrite Hctx, Hsj, Hdir, Hmk, Hop, Hcr.
    now rewrite LimitReader_fault, LimitReader_data.
  - intros ctx i cleanDest header rest final fs filePath fs1 fs2
           Hctx Hsj Hty Hmk Hcr Hcap.
    simpl. rewrite Hctx, Hsj, Hty, Hmk, Hcr.
    change (Byte.eqb TypeReg TypeDir) with false.
    change (Byte.eqb TypeReg TypeReg) with true. cbv iota.
    now rewrite LimitReader_fault, LimitReader_data.
  - exact written_content.
Qed.

(** The file [docs/hello.txt] of the [docs] archive, of six bytes, in
    each adapter: the six bytes are written and the loop goes on. *)
Lemma copy_capped_at_5GiB_witness :
  takeN maxExtractFileSize helloBytes = helloBytes
  /\ @ExtractZip_loop docsExternals Background 1 "out/"
                      [helloFile; againFile] (docsFsAfterOne 488)
     = @ExtractZip_loop docsExternals Background 2 "out/" [againFile]
         (writeFile (<["out/docs/hello.txt" := Regular 438 []]>
                       (docsFsAfterOne 488))
                    "out/docs/hello.txt"
                    (takeN maxExtractFileSize helloBytes))
  /\ Extract7z_loop Background 1 "out/" [helloFile; againFile]
                    (docsFsAfterOne 493)
     = Extract7z_loop Background 2 "out/" [againFile]
         (writeFile (<["out/docs/hello.txt" := Regular 420 []]>
                       (docsFsAfterOne 493))
                    "out/docs/hello.txt"
                    (takeN maxExtractFileSize helloBytes))
  /\ ExtractTar_loop Background 1 "out/" [helloHeader; againHeader] io_EOF
                     (docsFsAfterOne 493)
     = ExtractTar_loop Background 2 "out/" [againHeader] io_EOF
         (writeFile (<["out/docs/hello.txt" := Regular 438 []]>
                       (docsFsAfterOne 493))
                    "out/docs/hello.txt"
                    (takeN maxExtractFileSize helloBytes))
  /\ (exists perm',
         resolve (writeFile (<["out/docs/hello.txt" := Regular 438 []]>
                               (docsFsAfterOne 488))
                            "out/docs/hello.txt" helloBytes)
                 "out/docs/hello.txt"
         = Some (Regular perm' helloBytes)).
Proof.
  destruct copy_capped_at_5GiB
    as (_ & _ & Hall & _ & Hzip & H7z & Htar & Hwritten).
  split; [|split; [|split; [|split]]].
  - apply (Hall maxExtractFileSize helloBytes). vm_compute. discriminate.
  - apply (Hzip docsExternals Background 1 "out/" helloFile [againFile]
                (docsFsAfterOne 488) "out/docs/hello.txt"
                (docsFsAfterOne 488)
                (<["out/docs/hello.txt" := Regular 438 []]>
                   (docsFsAfterOne 488))
                {| s_data := helloBytes; s_fault := None |});
      try (vm_compute; reflexivity).
    right; reflexivity.
  - apply (H7z Background 1 "out/" helloFile [againFile]
               (docsFsAfterOne 493) "out/docs/hello.txt"
               (docsFsAfterOne 493)
               (<["out/docs/hello.txt" := Regular 420 []]>
                  (docsFsAfterOne 493))
               {| s_data := helloBytes; s_fault := None |});
      try (vm_compute; reflexivity).
    right; reflexivity.
  - apply (Htar Background 1 "out/" helloHeader [againHeader] io_EOF
                (docsFsAfterOne 493) "out/docs/hello.txt"
                (docsFsAfterOne 493)
                (<["out/docs/hello.txt" := Regular 438 []]>
                   (docsFsAfterOne 493)));
      try (vm_compute; reflexivity).
    right; reflexivity.
  - apply (Hwritten (docsFsAfterOne 488)
                    (<["out/docs/hello.txt" := Regular 438 []]>
                       (docsFsAfterOne 488))
                    "out/docs/hello.txt" 438%Z helloBytes).
    + vm_compute; reflexivity.
    + intros input Hdev. vm_compute in Hdev. discriminate.
Defined.

(** ** C8: the path returned on success *)

(** The package name on some sources: the final extension is cut from
    the source path, and the base name of what is left is taken. *)
Example packageName_table :
  map (fun src => Base (TrimSuffix src (Ext src)))
      ["pkg.zip"; "/in/pkg.7z"; "in/pkg.tar.gz"; "in/pkg.tgz"; "in.d/pkg";
       "in/.zip"]
  = ["pkg"; "pkg"; "pkg.tar"; "pkg"; "pkg"; "in"].
Proof. reflexivity. Qed.

(** ** C9: the dispatcher and [IsActualArchive] *)

(** C9, as stated, fails: [report.docx] has an Office extension and
    starts with the ZIP signature, but it also carries [ustar] at offset
    257; [ExtractArchive] tries TAR before ZIP and returns the error of
    the TAR adapter, not the result of the ZIP adapter. *)
Lemma docx_with_ustar_goes_to_tar :
  IsActualArchive "report.docx" = false
  /\ IsZipFile polyglotFs "report.docx" = true
  /\ @ExtractArchive zipOnlyExternals Background polyglotFs
                     "report.docx" "out"
     = (<["out" := Directory 488]> polyglotFs,
        ("", Some (Wrapf "error extracting tar: %w" []
                         (CodecError "archive/tar: invalid tar header"))))
  /\ (delegated "error extracting zip: %w"
                (@ExtractZip zipOnlyExternals Background polyglotFs
                             "report.docx" "out")
                (@ExtractArchive zipOnlyExternals Background polyglotFs
                                 "report.docx" "out")
      -> False).
Proof.
  split; [vm_compute; reflexivity|].
  split; [vm_compute; reflexivity|].
  split; [vm_compute; reflexivity|].
  vm_compute. intros Heq. discriminate Heq.
Qed.

(** C9, amended.  [ExtractArchive] does not consult [IsActualArchive]: a
    file that [IsActualArchive] rejects (an Office, OpenDocument or JAR
    extension), that starts with the ZIP signature and that does not
    carry [ustar] at offset 257, so that the TAR check before the ZIP
    check does not hold, is handed to [ExtractZip], whose result the
    dispatcher returns. *)
Theorem ExtractArchive_ignores_IsActualArchive :
  forall (E : Externals) ctx fs src dest,
    IsActualArchive src = false ->
    IsZipFile fs src = true ->
    IsTarFile fs src = false ->
    delegated "error extracting zip: %w" (ExtractZip ctx fs src dest)
              (ExtractArchive ctx fs src dest).
Proof.
  intros E ctx fs src dest _ Hz Ht.
  pose proof (Is7z_IsZip_exclusive fs src) as H7. rewrite Hz in H7.
  rewrite andb_true_r in H7.
  unfold ExtractArchive. rewrite H7, Ht, Hz.
  apply (checkAipPath_delegated src dest), ExtractZip_path.
Qed.

(** The file [plain.docx]: the ZIP adapter writes [word/document.xml]
    under [out], and the dispatcher returns its path [out/plain]. *)
Lemma ExtractArchive_ignores_IsActualArchive_witness :
  delegated "error extracting zip: %w"
            (@ExtractZip zipOnlyExternals Background docxFs
                         "plain.docx" "out")
            (@ExtractArchive zipOnlyExternals Background docxFs
                             "plain.docx" "out")
  /\ (@ExtractArchive zipOnlyExternals Background docxFs
                      "plain.docx" "out").2
     = ("out/plain", None).
Proof.
  split.
  - apply (ExtractArchive_ignores_IsActualArchive zipOnlyExternals Background
             docxFs "plain.docx" "out"); vm_compute; reflexivity.
  - vm_compute; reflexivity.
Defined.

(** ** C10: an entry that names the destination root itself *)

Lemma Join_root_names (d name : string) :
  In name [""; "."; "./"] ->
  Join [Clean d +:+ String Separator ""; name] = Clean d.
Proof.
  intros Hin. rewrite safeJoin_filePath, (Clean_unfold d).
  simpl in Hin. destruct Hin as [<-|[<-|[<-|[]]]]; reflexivity.
Qed.

Lemma safeJoin_root_itself (d name : string) :
  Join [Clean d +:+ String Separator ""; name] = Clean d ->
  safeJoin d name = ("", Some (Errorf "illegal file path: %s" [Clean d])).
Proof.
  intros Hj. rewrite safeJoin_failure; rewrite Hj;
    [reflexivity | apply HasPrefix_longer].
Qed.

Lemma safeJoin_root_names_unsafe (d name : string) :
  In name [""; "."; "./"] -> snd (safeJoin d name) <> None.
Proof.
  intros Hin. rewrite (safeJoin_root_itself d name (Join_root_names d name Hin)).
  discriminate.
Qed.

(** C10.  An entry name that joins and cleans to the destination root
    itself makes [safeJoin] return the illegal-file-path error, since the
    root is not a proper extension of the root followed by a separator;
    the empty name, [.] and [./] are such names for every root; and an
    archive that holds an entry with one of these names makes each of
    [ExtractZip], [Extract7z] and [ExtractTar] return an error, whatever
    the other entries, the context and the file system are. *)
Theorem root_entry_fails_extraction :
  (forall d name,
      Join [Clean d +:+ String Separator ""; name] = Clean d ->
      safeJoin d name = ("", Some (Errorf "illegal file path: %s" [Clean d])))
  /\ (forall d name,
        In name [""; "."; "./"] ->
        Join [Clean d +:+ String Separator ""; name] = Clean d)
  /\ (forall (E : Externals) ctx fs src dest files e,
        zip_OpenReader fs src = Ok files ->
        In e files -> In (f_Name e) [""; "."; "./"] ->
        exists fs' err, ExtractZip ctx fs src dest = (fs', ("", Some err)))
  /\ (forall (E : Externals) ctx fs src dest files e,
        sevenzip_OpenReader fs src = Ok files ->
        In e files -> In (f_Name e) [""; "."; "./"] ->
        exists fs' err, Extract7z ctx fs src dest = (fs', ("", Some err)))
  /\ (forall (E : Externals) ctx fs src dest tr e,
        openTar fs src = Ok tr ->
        In e (tr_entries tr) -> In (h_Name e) [""; "."; "./"] ->
        exists fs' err, ExtractTar ctx fs src dest = (fs', ("", Some err))).
Proof.
  split; [exact safeJoin_root_itself|].
  split; [exact Join_root_names|].
  split; [|split].
  - intros E ctx fs src dest files e Hopen Hin Hname.
    unfold ExtractZip. rewrite Hopen.
    destruct (CreateDir fs dest) as [fs0 [err|]]; [eauto|].
    pose proof (ExtractZip_loop_unsafe ctx
                  (Clean dest +:+ String Separator "") files e Hin
                  (safeJoin_root_names_unsafe _ _ Hname) 0 fs0) as Hloop.
    destruct (ExtractZip_loop _ _ _ _ _) as [fs1 [err|]];
      [eauto | contradiction].
  - intros E ctx fs src dest files e Hopen Hin Hname.
    unfold Extract7z. rewrite Hopen.
    destruct (statMkdir fs dest) as [fs0 [err|]]; [eauto|].
    pose proof (Extract7z_loop_unsafe ctx
                  (Clean dest +:+ String Separator "") files e Hin
                  (safeJoin_root_names_unsafe _ _ Hname) 0 fs0) as Hloop.
    destruct (Extract7z_loop _ _ _ _ _) as [fs1 [err|]];
      [eauto | contradiction].
  - intros E ctx fs src dest tr e Hopen Hin Hname.
    unfold ExtractTar. rewrite Hopen.
    destruct (statMkdir fs dest) as [fs0 [err|]]; [eauto|].
    pose proof (ExtractTar_loop_unsafe ctx
                  (Clean dest +:+ String Separator "") (tr_entries tr)
                  (tr_end tr) e Hin
                  (safeJoin_root_names_unsafe _ _ Hname) 0 fs0) as Hloop.
    destruct (ExtractTar_loop _ _ _ _ _ _) as [fs1 [err|]];
      [eauto | contradiction].
Qed.

(** The archive that starts with the entry [./], in the three formats. *)
Lemma root_entry_fails_extraction_witness :
  safeJoin "out" "./" = ("", Some (Errorf "illegal file path: %s" ["out"]))
  /\ (exists fs' err,
        @ExtractZip (fixedExternals dotSlashFiles dotSlashTar)
                    Background pkgFs "pkg.bin" "out" = (fs', ("", Some err)))
  /\ (exists fs' err,
        @Extract7z (fixedExternals dotSlashFiles dotSlashTar)
                   Background pkgFs "pkg.bin" "out" = (fs', ("", Some err)))
  /\ (exists fs' err,
        @ExtractTar (fixedExternals dotSlashFiles dotSlashTar)
                    Background pkgFs "pkg.bin" "out" = (fs', ("", Some err))).
Proof.
  destruct root_entry_fails_extraction as (H1 & H2 & Hzip & H7z & Htar).
  split; [|split; [|split]].
  - apply (H1 "out" "./"). apply (H2 "out" "./"). simpl; auto.
  - apply (Hzip (fixedExternals dotSlashFiles dotSlashTar) Background pkgFs
                "pkg.bin" "out" dotSlashFiles
                {| f_Name := "./"; f_Mode := Z.lor ModeDir 493;
                   f_Open := Ok {| s_data := []; s_fault := None |} |});
      [reflexivity | simpl; auto | simpl; auto].
  - apply (H7z (fixedExternals dotSlashFiles dotSlashTar) Background pkgFs
               "pkg.bin" "out" dotSlashFiles
               {| f_Name := "./"; f_Mode := Z.lor ModeDir 493;
                  f_Open := Ok {| s_data := []; s_fault := None |} |});
      [reflexivity | simpl; auto | simpl; auto].
  - apply (Htar (fixedExternals dotSlashFiles dotSlashTar) Background pkgFs
                "pkg.bin" "out" dotSlashTar
                {| h_Name := "./"; h_Typeflag := TypeDir; h_Mode := 493;
                   h_body := {| s_data := []; s_fault := None |} |});
      [vm_compute; reflexivity | simpl; auto | simpl; auto].
Defined.

(* ===================================================================== *)
(** * Further properties of the package *)
(* ===================================================================== *)

(** ** More on paths *)

Lemma prefix_split (a b : string) :
  String.prefix a b = true -> exists rest, b = a +:+ rest.
Proof.
  revert b; induction a as [|c a IH]; intros b Hp; [now exists b|].
  destruct b as [|c' b]; simpl in Hp; [discriminate|].
  destruct (ascii_dec c c') as [<-|]; [|discriminate].
  destruct (IH b Hp) as [rest ->]. now exists rest.
Qed.

(** Splitting at the separators and joining again gives the string
    back. *)
Lemma concat_elements (s : string) : String.concat "/" (elements s) = s.
Proof.
  induction s as [|c s IH]; [reflexivity|].
  simpl elements. destruct (IsPathSeparator c) eqn:Hc.
  - apply Ascii.eqb_eq in Hc. subst c.
    pose proof (elements_nonnil s) as Hn.
    destruct (elements s) as [|e es] eqn:He; [contradiction|].
    rewrite concat_cons, IH. reflexivity.
  - pose proof (elements_nonnil s) as Hn.
    destruct (elements s) as [|e es] eqn:He; [contradiction|].
    destruct es as [|e' es].
    + simpl in IH. simpl. now rewrite IH.
    + rewrite concat_cons in *. rewrite append_cons, IH. reflexivity.
Qed.

Lemma all_dotdots_repeat (l : list string) :
  Forall (eq "..") l -> l = repeat ".." (List.length l).
Proof.
  induction 1 as [|x l <- _ IH]; simpl; [reflexivity | now rewrite <- IH].
Qed.

(** The buffer in the order of the path: a block of [..] elements, empty
    for a rooted path, then real elements. *)
Lemma wfStack_shape (r : bool) (out : list string) :
  wfStack r out ->
  exists k reals,
    rev out = repeat ".." k ++ reals /\ Forall realElem reals
    /\ (r = true -> k = 0).
Proof.
  induction out as [|e out IH]; simpl.
  - intros _. exists 0, []. repeat split; constructor.
  - intros [[Hreal Hwf] | (-> & -> & Hall)].
    + destruct (IH Hwf) as (k & reals & Hrev & Hreals & Hk).
      exists k, (reals ++ [e]). rewrite Hrev, <- app_assoc.
      repeat split; [|exact Hk].
      apply Forall_app; split; [assumption | now constructor].
    + exists (S (List.length out)), []. rewrite app_nil_r.
      repeat split; [|constructor | discriminate].
      rewrite (all_dotdots_repeat out Hall) at 1.
      rewrite rev_repeat.
      change [".."] with (repeat ".." 1). rewrite <- repeat_app.
      f_equal. lia.
Qed.

(** The elements of a rendered buffer. *)
Lemma elements_render (r : bool) (comps : list string) :
  comps <> [] ->
  Forall (fun e => sepfree e = true /\ e <> "") comps ->
  elements (render r comps) = if r then "" :: comps else comps.
Proof.
  intros Hne Hall.
  assert (elements (String.concat "/" comps) = comps) as Hel.
  { apply elements_concat; [assumption|].
    eapply Forall_impl; [exact Hall|]. now intros ? [? _]. }
  destruct r; unfold render.
  - change (elements (String Separator (String.concat "/" comps)))
      with ("" :: elements (String.concat "/" comps)).
    now rewrite Hel.
  - destruct comps; [contradiction | exact Hel].
Qed.

Lemma render_nil_length (r : bool) : String.length (render r []) = 1.
Proof. destruct r; reflexivity. Qed.

Lemma concat_app (a b : list string) :
  a <> [] -> b <> [] ->
  String.concat "/" (a ++ b)
  = String.concat "/" a +:+ String Separator (String.concat "/" b).
Proof.
  induction a as [|x a IH]; [contradiction|]. intros _ Hb.
  destruct a as [|y a].
  - destruct b as [|z b]; [contradiction|]. simpl app.
    now rewrite concat_cons.
  - simpl app in *. rewrite !concat_cons, IH by (discriminate || assumption).
    now rewrite append_assoc.
Qed.

Lemma render_relative (comps : list string) :
  comps <> [] -> render false comps = String.concat "/" comps.
Proof. destruct comps; [contradiction | reflexivity]. Qed.

Lemma render_app (r : bool) (a b : list string) :
  a <> [] -> b <> [] ->
  render r (a ++ b)
  = render r a +:+ String Separator (String.concat "/" b).
Proof.
  intros Ha Hb. destruct r.
  - unfold render. now rewrite concat_app.
  - rewrite !render_relative; [now apply concat_app | assumption |].
    destruct a; [contradiction | discriminate].
Qed.

(** ** More on [safeJoin] *)

Lemma prefix_app (a b : string) : String.prefix a (a +:+ b) = true.
Proof.
  induction a as [|c a IH]; [now destruct b|].
  rewrite append_cons; simpl.
  destruct (ascii_dec c c); [assumption | congruence].
Qed.

Lemma fold_cleanStep_reals (r : bool) (reals out : list string) :
  Forall realElem reals ->
  fold_left (cleanStep r) reals out = rev reals ++ out.
Proof.
  revert out; induction reals as [|e reals IH]; intros out Hall;
    [reflexivity|].
  inversion Hall; subst. simpl.
  rewrite cleanStep_real by assumption. rewrite IH by assumption.
  now rewrite <- app_assoc.
Qed.

(** The path that [safeJoin] validates is a cleaned path: a rendered
    buffer of the shape [wfStack]. *)
Lemma safeJoin_filePath_shape (d name : string) :
  exists out,
    wfStack (isRooted d) out
    /\ Join [Clean d +:+ String Separator ""; name]
       = render (isRooted d) (rev out).
Proof.
  eexists. split; [|apply safeJoin_filePath].
  apply fold_cleanStep_wfStack;
    [apply elements_sepfree | apply cleanElems_wfStack].
Qed.

Lemma wfStack_rev_elems (r : bool) (out : list string) :
  wfStack r out ->
  Forall (fun e => sepfree e = true /\ e <> "") (rev out).
Proof. intros Hwf. apply Forall_rev. now apply (wfStack_elems r). Qed.

Lemma wfStack_no_dot (r : bool) (out : list string) :
  wfStack r out -> ~ In "." (rev out).
Proof.
  intros Hwf Hin. apply in_rev in Hin.
  induction out as [|e out IH]; [contradiction|].
  simpl in Hwf. destruct Hin as [->|Hin].
  - destruct Hwf as [[(_ & Hd & _) _] | (Hd & _)]; [now apply Hd | discriminate].
  - destruct Hwf as [[_ Hwf] | (_ & -> & Hall)]; [now apply IH|].
    apply IH; [now apply dotdots_wfStack | assumption].
Qed.

(** A cleaned path that has the cleaned root and a separator as a prefix
    consists of the elements of the root followed by further elements;
    the root is then neither [/] nor [.]. *)
Lemma below_root_elements (r : bool) (outd out : list string)
  (rest : string) :
  wfStack r outd -> wfStack r out ->
  render r (rev out) = render r (rev outd) +:+ String Separator rest ->
  rev outd <> [] /\ rev out = rev outd ++ elements rest.
Proof.
  intros Hwfd Hwf Heq.
  pose proof (wfStack_rev_elems r out Hwf) as Hel.
  pose proof (wfStack_rev_elems r outd Hwfd) as Held.
  pose proof (wfStack_no_dot r out Hwf) as Hdot.
  destruct (rev out) as [|e comps] eqn:Hrev.
  { apply (f_equal String.length) in Heq.
    rewrite render_nil_length, length_append in Heq. simpl in Heq.
    destruct (render r (rev outd)) eqn:Hr; simpl in Heq; [|lia].
    destruct r; unfold render in Hr; [discriminate|].
    destruct (rev outd) as [|x l]; [discriminate|].
    inversion Held as [|? ? [_ Hx] _]; subst.
    destruct x; [contradiction|].
    destruct (concat_head a x l) as [t Ht]. rewrite Ht in Hr. discriminate. }
  apply (f_equal elements) in Heq.
  rewrite elements_app_sep, elements_render in Heq;
    [|discriminate | assumption].
  inversion Hel as [|? ? [_ Hne] _]; subst.
  destruct (rev outd) as [|x cs] eqn:Hrevd.
  - exfalso. destruct r; simpl in Heq.
    + injection Heq as He _. now apply Hne.
    + injection Heq as He _. apply Hdot. left. exact He.
  - split; [discriminate|].
    rewrite elements_render in Heq; [|discriminate | assumption].
    destruct r; [simpl in *; congruence | exact Heq].
Qed.

(** [safeJoin], success: the shape of the returned path. *)
Lemma safeJoin_success_elements (d name p : string) :
  safeJoin d name = (p, None) ->
  exists cs more,
    cs <> [] /\ more <> []
    /\ Forall (fun e => sepfree e = true /\ e <> "") cs
    /\ ~ In "." cs
    /\ Clean d = render (isRooted d) cs
    /\ p = Clean d +:+ String Separator (String.concat "/" more)
    /\ (exists k reals, cs ++ more = repeat ".." k ++ reals
                        /\ Forall realElem reals
                        /\ (isRooted d = true -> k = 0))
    /\ Forall (fun e => sepfree e = true) more.
Proof.
  intros Hsj. apply safeJoin_success_prefix in Hsj as [Hp Hpre].
  rewrite Hp, Join_clean in Hpre. unfold HasPrefix in Hpre.
  apply prefix_split in Hpre as [rest Hrest].
  destruct (safeJoin_filePath_shape d name) as (out & Hwf & Hout).
  pose proof (cleanElems_wfStack (isRooted d) d) as Hwfd.
  rewrite Hout, append_assoc, (Clean_unfold d) in Hrest.
  change (String Separator "" +:+ rest) with (String Separator rest) in Hrest.
  destruct (below_root_elements _ _ _ _ Hwfd Hwf Hrest) as [Hne Hsplit].
  exists (rev (cleanElems (isRooted d) (elements d))), (elements rest).
  split; [exact Hne|]. split; [apply elements_nonnil|].
  split; [now apply (wfStack_rev_elems (isRooted d))|].
  split; [now apply (wfStack_no_dot (isRooted d))|].
  split; [apply Clean_unfold|].
  split.
  - rewrite Hp, Hout, Hsplit, render_app;
      [|exact Hne | apply elements_nonnil].
    now rewrite <- Clean_unfold.
  - split; [|apply elements_sepfree].
    rewrite <- Hsplit. now apply wfStack_shape.
Qed.

(** X1.  When the cleaned destination root does not begin with a [..]
    element, as is the case of every absolute root, a path that
    [safeJoin] returns is the cleaned root, a separator, and a relative
    path made of real elements only (no empty element, no [.], no [..]):
    a strict descendant of the root. *)
Theorem safeJoin_stays_below_root :
  forall d name p,
    safeJoin d name = (p, None) ->
    hd "" (elements (Clean d)) <> ".." ->
    exists rest,
      p = Clean d +:+ String Separator rest
      /\ Forall realElem (elements rest).
Proof.
  intros d name p Hsj Hhd.
  destruct (safeJoin_success_elements d name p Hsj)
    as (cs & more & Hcs & Hmore & Hok & _ & Hcd & Hp
        & (k & reals & Hshape & Hreals & Hk) & Hsep).
  exists (String.concat "/" more). split; [exact Hp|].
  rewrite elements_concat by assumption.
  assert (k = 0) as ->.
  { destruct (isRooted d) eqn:Hr; [now apply Hk|].
    destruct k as [|k]; [reflexivity|]. exfalso. apply Hhd.
    rewrite Hcd, elements_render by assumption.
    destruct cs as [|c cs]; [contradiction|].
    simpl in Hshape. now injection Hshape as -> _. }
  simpl in Hshape. rewrite <- Hshape in Hreals.
  now apply Forall_app in Hreals as [_ Hreals].
Qed.

Lemma safeJoin_stays_below_root_witness :
  exists rest,
    "/tmp/x/b.txt" = Clean "/tmp/x" +:+ String Separator rest
    /\ Forall realElem (elements rest).
Proof.
  apply (safeJoin_stays_below_root "/tmp/x" "a/../b.txt" "/tmp/x/b.txt").
  - vm_compute; reflexivity.
  - vm_compute. discriminate.
Defined.

Lemma render_not_dot_or_slash (r : bool) (cs : list string) :
  cs <> [] -> Forall (fun e => sepfree e = true /\ e <> "") cs ->
  ~ In "." cs ->
  render r cs <> "/" /\ render r cs <> ".".
Proof.
  intros Hne Hok Hdot.
  destruct cs as [|c cs]; [contradiction|].
  inversion Hok as [|? ? [Hs Hc] Hrest]; subst.
  destruct c as [|a c]; [contradiction|].
  destruct (concat_head a c cs) as [t Ht].
  simpl in Hs. apply andb_prop in Hs as [Ha _]. apply negb_true_iff in Ha.
  destruct r.
  - unfold render. rewrite Ht. split; discriminate.
  - rewrite render_relative by discriminate. split.
    + rewrite Ht. intros [= -> _]. discriminate.
    + intros Heq. apply Hdot. apply (f_equal elements) in Heq.
      rewrite elements_concat in Heq;
        [|discriminate | eapply Forall_impl; [exact Hok | now intros ? [? _]]].
      simpl in Heq. inversion Heq; subst. now left.
Qed.

Lemma safeJoin_result (d name : string) :
  (exists p, safeJoin d name = (p, None))
  \/ (exists err, safeJoin d name = ("", Some err)).
Proof.
  rewrite safeJoin_unfold. cbv zeta.
  destruct (HasPrefix _ _); [left | right]; eauto.
Qed.

Lemma safeJoin_dot_or_slash_root (d name : string) :
  Clean d = "/" \/ Clean d = "." -> snd (safeJoin d name) <> None.
Proof.
  intros Hroot.
  destruct (safeJoin_result d name) as [[p Hp] | [err ->]]; [|discriminate].
  exfalso.
  destruct (safeJoin_success_elements d name p Hp)
    as (cs & more & Hcs & _ & Hok & Hdot & Hcd & _).
  destruct (render_not_dot_or_slash (isRooted d) cs Hcs Hok Hdot) as [H1 H2].
  rewrite <- Hcd in H1, H2. destruct Hroot; contradiction.
Qed.

(** X2.  When the destination cleans to [.] or to [/], [safeJoin]
    rejects every entry name: no cleaned path starts with [./] or with
    [//].  So [ExtractZip], [Extract7z] and [ExtractTar] return an error
    for every archive that holds at least one entry when they are asked
    to extract into the working directory or into the root directory. *)
Theorem extraction_into_dot_or_slash_fails :
  (forall d name,
      Clean d = "/" \/ Clean d = "." ->
      exists err, safeJoin d name = ("", Some err))
  /\ (forall (E : Externals) ctx fs src dest e files,
        Clean dest = "/" \/ Clean dest = "." ->
        zip_OpenReader fs src = Ok (e :: files) ->
        exists fs' err, ExtractZip ctx fs src dest = (fs', ("", Some err)))
  /\ (forall (E : Externals) ctx fs src dest e files,
        Clean dest = "/" \/ Clean dest = "." ->
        sevenzip_OpenReader fs src = Ok (e :: files) ->
        exists fs' err, Extract7z ctx fs src dest = (fs', ("", Some err)))
  /\ (forall (E : Externals) ctx fs src dest tr,
        Clean dest = "/" \/ Clean dest = "." ->
        openTar fs src = Ok tr -> tr_entries tr <> [] ->
        exists fs' err, ExtractTar ctx fs src dest = (fs', ("", Some err))).
Proof.
  assert (forall dest name,
             Clean dest = "/" \/ Clean dest = "." ->
             snd (safeJoin (Clean dest +:+ String Separator "") name) <> None)
    as Hunsafe.
  { intros dest name Hroot. apply safeJoin_dot_or_slash_root.
    now rewrite Clean_trailing_sep. }
  split; [|split; [|split]].
  - intros d name Hroot.
    destruct (safeJoin_result d name) as [[p Hp] | Herr]; [|exact Herr].
    exfalso. apply (safeJoin_dot_or_slash_root d name Hroot).
    now rewrite Hp.
  - intros E ctx fs src dest e files Hroot Hopen.
    unfold ExtractZip. rewrite Hopen.
    destruct (CreateDir fs dest) as [fs0 [err|]]; [eauto|]. cbv zeta.
    pose proof (ExtractZip_loop_unsafe ctx _ (e :: files) e
                  (or_introl eq_refl) (Hunsafe dest _ Hroot) 0 fs0) as Hloop.
    destruct (ExtractZip_loop _ _ _ _ _) as [fs1 [err|]];
      [eauto | contradiction].
  - intros E ctx fs src dest e files Hroot Hopen.
    unfold Extract7z. rewrite Hopen.
    destruct (statMkdir fs dest) as [fs0 [err|]]; [eauto|]. cbv zeta.
    pose proof (Extract7z_loop_unsafe ctx _ (e :: files) e
                  (or_introl eq_refl) (Hunsafe dest _ Hroot) 0 fs0) as Hloop.
    destruct (Extract7z_loop _ _ _ _ _) as [fs1 [err|]];
      [eauto | contradiction].
  - intros E ctx fs src dest tr Hroot Hopen Hne.
    unfold ExtractTar. rewrite Hopen.
    destruct (statMkdir fs dest) as [fs0 [err|]]; [eauto|]. cbv zeta.
    destruct (tr_entries tr) as [|e headers] eqn:Hent; [contradiction|].
    pose proof (ExtractTar_loop_unsafe ctx _ (e :: headers) (tr_end tr) e
                  (or_introl eq_refl) (Hunsafe dest _ Hroot) 0 fs0) as Hloop.
    destruct (ExtractTar_loop _ _ _ _ _ _) as [fs1 [err|]];
      [eauto | contradiction].
Qed.

(** The [docs] archive extracted into the working directory. *)
Lemma extraction_into_dot_or_slash_fails_witness :
  (exists err, safeJoin "." "docs/hello.txt" = ("", Some err))
  /\ (exists fs' err,
        @ExtractZip docsExternals Background pkgFs "pkg.bin" "."
        = (fs', ("", Some err)))
  /\ (exists fs' err,
        @Extract7z docsExternals Background pkgFs "pkg.bin" "./"
        = (fs', ("", Some err)))
  /\ (exists fs' err,
        @ExtractTar docsExternals Background pkgFs "pkg.bin" "/"
        = (fs', ("", Some err))).
Proof.
  destruct extraction_into_dot_or_slash_fails as (Hsj & Hzip & H7z & Htar).
  split; [|split; [|split]].
  - apply Hsj. right. vm_compute; reflexivity.
  - apply (Hzip docsExternals Background pkgFs "pkg.bin" "." docsDir
                [helloFile; againFile]);
      [right; vm_compute; reflexivity | reflexivity].
  - apply (H7z docsExternals Background pkgFs "pkg.bin" "./" docsDir
               [helloFile; againFile]);
      [right; vm_compute; reflexivity | reflexivity].
  - apply (Htar docsExternals Background pkgFs "pkg.bin" "/" docsTar);
      [left; vm_compute; reflexivity | vm_compute; reflexivity
       | discriminate].
Defined.

(** X3.  For a destination that cleans neither to [/] nor to [.], an
    entry name made of real elements only (no empty element, no [.], no
    [..]) is accepted, and the path returned is the cleaned root, a
    separator and the name as it was given. *)
Theorem safeJoin_accepts_plain_names :
  forall d name,
    Clean d <> "/" -> Clean d <> "." ->
    Forall realElem (elements name) ->
    safeJoin d name = (Clean d +:+ String Separator name, None).
Proof.
  intros d name Hslash Hdot Hreals.
  assert (Join [Clean d +:+ String Separator ""; name]
          = Clean d +:+ String Separator name) as Hjoin.
  { rewrite safeJoin_filePath, fold_cleanStep_reals by assumption.
    rewrite rev_app_distr, rev_involutive.
    assert (rev (cleanElems (isRooted d) (elements d)) <> []) as Hne.
    { intros Hnil. rewrite Clean_unfold, Hnil in Hslash, Hdot.
      destruct (isRooted d); [now apply Hslash | now apply Hdot]. }
    rewrite render_app; [|exact Hne | apply elements_nonnil].
    now rewrite <- Clean_unfold, concat_elements. }
  rewrite safeJoin_unfold. cbv zeta. rewrite Hjoin.
  unfold HasPrefix.
  replace (Clean d +:+ String Separator name)
    with ((Clean d +:+ String Separator "") +:+ name)
    by (now rewrite append_assoc).
  now rewrite prefix_app.
Qed.

Lemma safeJoin_accepts_plain_names_witness :
  safeJoin "../out/" "docs/.hidden/a..b"
  = (Clean "../out/" +:+ String Separator "docs/.hidden/a..b", None).
Proof.
  apply safeJoin_accepts_plain_names;
    [vm_compute; discriminate | vm_compute; discriminate |].
  repeat constructor; vm_compute; discriminate.
Defined.

(** ** More on the extraction loops *)

Lemma byte_eqb_neq (x y : byte) : x <> y -> Byte.eqb x y = false.
Proof.
  intros Hne. destruct (Byte.eqb x y) eqn:He; [|reflexivity].
  apply byte_dec_bl in He. contradiction.
Qed.

(** X4.  [ExtractTar] extracts directories and regular files only.  An
    archive whose entries all have another type flag (links, devices,
    FIFOs) and names that [safeJoin] accepts is read to its end without
    any change of the file system, when the context is not cancelled;
    the names are validated all the same, so that one entry with a name
    that [safeJoin] refuses, whatever its type, makes the loop fail. *)
Theorem ExtractTar_skips_other_types :
  (forall ctx cleanDest headers fs i,
      (forall j, j <= List.length headers -> ctx (i + j) = None) ->
      Forall (fun h => h_Typeflag h <> TypeDir /\ h_Typeflag h <> TypeReg
                       /\ snd (safeJoin cleanDest (h_Name h)) = None)
             headers ->
      ExtractTar_loop ctx i cleanDest headers io_EOF fs = (fs, None))
  /\ (forall ctx cleanDest headers final e i fs,
        In e headers -> snd (safeJoin cleanDest (h_Name e)) <> None ->
        snd (ExtractTar_loop ctx i cleanDest headers final fs) <> None).
Proof.
  split.
  - intros ctx cleanDest headers fs.
    induction headers as [|h headers IH]; intros i Hctx Hall.
    + simpl. rewrite <- (Nat.add_0_r i), Hctx by (simpl; lia). reflexivity.
    + inversion Hall as [|? ? (Hd & Hr & Hsj) Hrest]; subst.
      simpl. rewrite <- (Nat.add_0_r i) at 1.
      rewrite Hctx by (simpl; lia).
      destruct (safeJoin cleanDest (h_Name h)) as [filePath oe].
      simpl in Hsj. subst oe.
      rewrite (byte_eqb_neq _ _ Hd), (byte_eqb_neq _ _ Hr).
      apply IH; [|assumption].
      intros j Hj. replace (S i + j) with (i + S j) by lia.
      apply Hctx. simpl. lia.
  - intros ctx cleanDest headers final e i fs Hin Hbad.
    now apply (ExtractTar_loop_unsafe ctx cleanDest headers final e).
Qed.

Lemma ExtractTar_skips_other_types_witness :
  ExtractTar_loop Background 0 "out/"
    [ {| h_Name := "docs/link"; h_Typeflag := x32; h_Mode := 511;
         h_body := {| s_data := []; s_fault := None |} |};
      {| h_Name := "docs/pipe"; h_Typeflag := x36; h_Mode := 420;
         h_body := {| s_data := []; s_fault := None |} |} ]
    io_EOF pkgFs
  = (pkgFs, None)
  /\ snd (ExtractTar_loop Background 0 "out/"
            [ {| h_Name := "../link"; h_Typeflag := x32; h_Mode := 511;
                 h_body := {| s_data := []; s_fault := None |} |} ]
            io_EOF pkgFs) <> None.
Proof.
  destruct ExtractTar_skips_other_types as [Hskip Hunsafe].
  split.
  - apply Hskip; [reflexivity|].
    repeat constructor; vm_compute; discriminate.
  - apply (Hunsafe Background "out/" _ io_EOF
                   {| h_Name := "../link"; h_Typeflag := x32; h_Mode := 511;
                      h_body := {| s_data := []; s_fault := None |} |});
      [now left | vm_compute; discriminate].
Defined.

Lemma os_Mkdir_exists (fs : gmap string inode) (path : string) (perm : Z)
  (nd : inode) :
  resolve fs path = Some nd ->
  os_Mkdir fs path perm = (fs, Some (PathError "mkdir" path EEXIST)).
Proof.
  intros Hr. unfold os_Mkdir.
  destruct (String.eqb_spec path "") as [->|_]; [discriminate|].
  now rewrite Hr.
Qed.

(** X5.  In [Extract7z] and [ExtractTar] a directory entry whose path
    exists already is passed over: [os.Mkdir] answers that the file
    exists, [os.IsExist] holds of this error, and the loop goes on with
    the file system as it was.  This is so whatever is found at the
    path, a directory or a regular file. *)
Theorem existing_directory_passed_over :
  (forall ctx i cleanDest file rest fs outPath nd,
      ctx i = None ->
      safeJoin cleanDest (f_Name file) = (outPath, None) ->
      IsDir (f_Mode file) = true ->
      resolve fs outPath = Some nd ->
      Extract7z_loop ctx i cleanDest (file :: rest) fs
      = Extract7z_loop ctx (S i) cleanDest rest fs)
  /\ (forall ctx i cleanDest header rest final fs filePath nd,
        ctx i = None ->
        safeJoin cleanDest (h_Name header) = (filePath, None) ->
        h_Typeflag header = TypeDir ->
        resolve fs filePath = Some nd ->
        ExtractTar_loop ctx i cleanDest (header :: rest) final fs
        = ExtractTar_loop ctx (S i) cleanDest rest final fs).
Proof.
  split.
  - intros ctx i cleanDest file rest fs outPath nd Hctx Hsj Hdir Hr.
    simpl. rewrite Hctx, Hsj, Hdir, (os_Mkdir_exists _ _ _ nd Hr).
    reflexivity.
  - intros ctx i cleanDest header rest final fs filePath nd Hctx Hsj Hty Hr.
    simpl. rewrite Hctx, Hsj, Hty, (os_Mkdir_exists _ _ _ nd Hr).
    reflexivity.
Qed.

(** The entry [docs/] when [out/docs] is a directory already, and when
    it is a regular file. *)
Lemma existing_directory_passed_over_witness :
  Extract7z_loop Background 0 "out/" [docsDir; helloFile]
                 (docsFsAfterOne 493)
  = Extract7z_loop Background 1 "out/" [helloFile] (docsFsAfterOne 493)
  /\ ExtractTar_loop Background 0 "out/" [docsDirHeader] io_EOF
                     (<["out/docs" := Regular 420 helloBytes]>
                        (docsFsAfterOne 493))
     = ExtractTar_loop Background 1 "out/" [] io_EOF
                       (<["out/docs" := Regular 420 helloBytes]>
                          (docsFsAfterOne 493)).
Proof.
  destruct existing_directory_passed_over as [H7z Htar].
  split.
  - apply (H7z Background 0 "out/" docsDir [helloFile] (docsFsAfterOne 493)
               "out/docs" (Directory 493)); vm_compute; reflexivity.
  - apply (Htar Background 0 "out/" docsDirHeader [] io_EOF _
                "out/docs" (Regular 420 helloBytes)); vm_compute; reflexivity.
Defined.

Lemma Dir_clean (path : string) : Clean (Dir path) = Dir path.
Proof. unfold Dir. apply Clean_idempotent. Qed.

Lemma Dir_nonempty (path : string) : Dir path <> "".
Proof. unfold Dir. apply Clean_nonempty. Qed.

Lemma statMkdir_no_grandparent (fs : gmap string inode) (path : string) :
  resolve fs (Dir path) = None ->
  resolve fs (Dir (Dir path)) = None ->
  statMkdir fs (Dir path)
  = (fs, Some (PathError "mkdir" (Dir path) ENOENT)).
Proof.
  intros Hp Hg.
  assert (parentIsDir fs (Dir path) = Some ENOENT) as Hpar
    by (unfold parentIsDir; now rewrite Dir_clean, Hg).
  unfold statMkdir, os_Stat, os_Mkdir. rewrite Hp, Hpar. simpl.
  destruct (String.eqb_spec (Dir path) "") as [He|_];
    [now apply Dir_nonempty in He | reflexivity].
Qed.

(** X6.  [Extract7z] and [ExtractTar] create the directory of a file
    entry with [os.Mkdir], one level only.  When neither this directory
    nor the directory above it exists, as for the entry [a/b/c.txt] of
    an archive without directory entries, the extraction stops with the
    error of [os.Mkdir], and the file system is left as it was. *)
Theorem missing_ancestors_not_created :
  (forall ctx i cleanDest file rest fs outPath,
      ctx i = None ->
      safeJoin cleanDest (f_Name file) = (outPath, None) ->
      IsDir (f_Mode file) = false ->
      resolve fs (Dir outPath) = None ->
      resolve fs (Dir (Dir outPath)) = None ->
      Extract7z_loop ctx i cleanDest (file :: rest) fs
      = (fs, Some (Wrapf "creating parent directories for %q: %w" [outPath]
                         (PathError "mkdir" (Dir outPath) ENOENT))))
  /\ (forall ctx i cleanDest header rest final fs filePath,
        ctx i = None ->
        safeJoin cleanDest (h_Name header) = (filePath, None) ->
        h_Typeflag header = TypeReg ->
        resolve fs (Dir filePath) = None ->
        resolve fs (Dir (Dir filePath)) = None ->
        ExtractTar_loop ctx i cleanDest (header :: rest) final fs
        = (fs, Some (PathError "mkdir" (Dir filePath) ENOENT))).
Proof.
  split.
  - intros ctx i cleanDest file rest fs outPath Hctx Hsj Hdir Hp Hg.
    simpl. rewrite Hctx, Hsj, Hdir, (statMkdir_no_grandparent _ _ Hp Hg).
    reflexivity.
  - intros ctx i cleanDest header rest final fs filePath Hctx Hsj Hty Hp Hg.
    simpl. rewrite Hctx, Hsj, Hty.
    change (Byte.eqb TypeReg TypeDir) with false. cbv iota.
    change (Byte.eqb TypeReg TypeReg) with true. cbv iota.
    rewrite (statMkdir_no_grandparent _ _ Hp Hg). reflexivity.
Qed.

(** The file [docs/hello.txt] without the entry [docs/] before it, into
    a destination that does not exist yet. *)
Lemma missing_ancestors_not_created_witness :
  Extract7z_loop Background 0 "out/" [helloFile; againFile] pkgFs
  = (pkgFs, Some (Wrapf "creating parent directories for %q: %w"
                        ["out/docs/hello.txt"]
                        (PathError "mkdir" (Dir "out/docs/hello.txt") ENOENT)))
  /\ ExtractTar_loop Background 0 "out/" [helloHeader; againHeader] io_EOF
                     pkgFs
     = (pkgFs, Some (PathError "mkdir" (Dir "out/docs/hello.txt") ENOENT)).
Proof.
  destruct missing_ancestors_not_created as [H7z Htar].
  split.
  - apply (H7z Background 0 "out/" helloFile [againFile] pkgFs
               "out/docs/hello.txt"); vm_compute; reflexivity.
  - apply (Htar Background 0 "out/" helloHeader [againHeader] io_EOF pkgFs
                "out/docs/hello.txt"); vm_compute; reflexivity.
Defined.

(** ** More on the adapters and the dispatcher *)

(** X7.  [ExtractArchive] returns either an error with the empty path or
    no error with the derived path, which is never empty: the branch
    "error extracting archive" after the [switch], taken for an empty
    path without error, is never taken. *)
Theorem ExtractArchive_path_or_error :
  forall (E : Externals) ctx fs src dest,
    match ExtractArchive ctx fs src dest with
    | (_, (p, None)) =>
        p = Join [Clean dest +:+ String Separator "";
                  Base (TrimSuffix src (Ext src))]
        /\ p <> ""
    | (_, (p, Some err)) =>
        p = "" /\ err <> Errorf "error extracting archive: %s" [src]
    end.
Proof.
  intros E ctx fs src dest.
  assert (forall format r,
             match r with
             | (_, (p, None)) =>
                 p = Join [Clean dest +:+ String Separator "";
                           Base (TrimSuffix src (Ext src))]
             | (_, (p, Some _)) => p = ""
             end ->
             match checkAipPath src r format with
             | (_, (p, None)) =>
                 p = Join [Clean dest +:+ String Separator "";
                           Base (TrimSuffix src (Ext src))]
                 /\ p <> ""
             | (_, (p, Some err)) =>
                 p = "" /\ err <> Errorf "error extracting archive: %s" [src]
             end) as Hcheck.
  { intros format [fs' [p [err|]]]; simpl; [intros _; split; [reflexivity | discriminate]|].
    intros ->.
    destruct (String.eqb_spec (Join [Clean dest +:+ String Separator "";
                                     Base (TrimSuffix src (Ext src))]) "")
      as [He|Hne]; [now apply Join_cleanDest_nonempty in He|].
    split; [reflexivity | exact Hne]. }
  unfold ExtractArchive.
  destruct (Is7zFile fs src); [apply Hcheck, Extract7z_path|].
  destruct (IsTarFile fs src); [apply Hcheck, ExtractTar_path|].
  destruct (IsZipFile fs src); [apply Hcheck, ExtractZip_path|].
  split; [reflexivity | discriminate].
Qed.

Section LateCancellation.
Context `{Externals}.

Lemma ExtractZip_loop_uncancelled (ctx : Context) (cleanDest : string)
  (files : list ArchiveFile) (fs : gmap string inode) :
  (forall j, j < List.length files -> ctx j = None) ->
  ExtractZip_loop ctx 0 cleanDest files fs
  = ExtractZip_loop Background 0 cleanDest files fs.
Proof.
  intros Hctx. rewrite <- (app_nil_r files) at 1.
  rewrite (ExtractZip_loop_prefix ctx cleanDest files [] 0 0 fs) by exact Hctx.
  now destruct (ExtractZip_loop Background 0 cleanDest files fs)
    as [fs1 [err|]].
Qed.

Lemma Extract7z_loop_uncancelled (ctx : Context) (cleanDest : string)
  (files : list ArchiveFile) (fs : gmap string inode) :
  (forall j, j < List.length files -> ctx j = None) ->
  Extract7z_loop ctx 0 cleanDest files fs
  = Extract7z_loop Background 0 cleanDest files fs.
Proof.
  intros Hctx. rewrite <- (app_nil_r files) at 1.
  rewrite (Extract7z_loop_prefix ctx cleanDest files [] 0 0 fs) by exact Hctx.
  now destruct (Extract7z_loop Background 0 cleanDest files fs)
    as [fs1 [err|]].
Qed.

Lemma ExtractTar_loop_uncancelled (ctx : Context) (cleanDest : string)
  (headers : list TarEntry) (final : error) (fs : gmap string inode) :
  (forall j, j <= List.length headers -> ctx j = None) ->
  ExtractTar_loop ctx 0 cleanDest headers final fs
  = ExtractTar_loop Background 0 cleanDest headers final fs.
Proof.
  intros Hctx.
  rewrite <- (app_nil_r headers).
  rewrite (ExtractTar_loop_prefix ctx cleanDest final headers [] 0 0 fs)
    by (intros j Hj; apply Hctx; lia).
  rewrite (ExtractTar_loop_prefix Background cleanDest final headers [] 0 0 fs)
    by reflexivity.
  destruct (ExtractTar_loop Background 0 cleanDest headers io_EOF fs)
    as [fs1 [err|]]; [reflexivity|].
  simpl. now rewrite Hctx by lia.
Qed.

End LateCancellation.

(** X8.  The context matters only through the polls that the loop
    makes: one before each entry, and for TAR one more before the end of
    the archive is found.  When none of these polls finds the signal
    set, the adapter does what it does under a context that is never
    cancelled.  For an archive without entries [ExtractZip] and
    [Extract7z] make no poll at all, and so succeed even under a
    cancelled context. *)
Theorem extraction_polls_once_per_entry :
  (forall (E : Externals) ctx fs src dest files,
      zip_OpenReader fs src = Ok files ->
      (forall j, j < List.length files -> ctx j = None) ->
      ExtractZip ctx fs src dest = ExtractZip Background fs src dest)
  /\ (forall (E : Externals) ctx fs src dest files,
        sevenzip_OpenReader fs src = Ok files ->
        (forall j, j < List.length files -> ctx j = None) ->
        Extract7z ctx fs src dest = Extract7z Background fs src dest)
  /\ (forall (E : Externals) ctx fs src dest tr,
        openTar fs src = Ok tr ->
        (forall j, j <= List.length (tr_entries tr) -> ctx j = None) ->
        ExtractTar ctx fs src dest = ExtractTar Background fs src dest).
Proof.
  split; [|split].
  - intros E ctx fs src dest files Hopen Hctx.
    unfold ExtractZip. rewrite Hopen.
    destruct (CreateDir fs dest) as [fs0 [err|]]; [reflexivity|]. cbv zeta.
    now rewrite ExtractZip_loop_uncancelled.
  - intros E ctx fs src dest files Hopen Hctx.
    unfold Extract7z. rewrite Hopen.
    destruct (statMkdir fs dest) as [fs0 [err|]]; [reflexivity|]. cbv zeta.
    now rewrite Extract7z_loop_uncancelled.
  - intros E ctx fs src dest tr Hopen Hctx.
    unfold ExtractTar. rewrite Hopen.
    destruct (statMkdir fs dest) as [fs0 [err|]]; [reflexivity|]. cbv zeta.
    now rewrite ExtractTar_loop_uncancelled.
Qed.

(** The signal fires after three polls, and the [docs] archive has three
    entries: ZIP and 7-Zip are extracted in full; an archive without
    entries is extracted by [ExtractZip] under a context that is
    cancelled from the start. *)
Lemma extraction_polls_once_per_entry_witness :
  @ExtractZip docsExternals (cancelAfter 3) pkgFs "pkg.bin" "out"
  = @ExtractZip docsExternals Background pkgFs "pkg.bin" "out"
  /\ @Extract7z docsExternals (cancelAfter 3) pkgFs "pkg.bin" "out"
     = @Extract7z docsExternals Background pkgFs "pkg.bin" "out"
  /\ @ExtractTar docsExternals (cancelAfter 4) pkgFs "pkg.bin" "out"
     = @ExtractTar docsExternals Background pkgFs "pkg.bin" "out"
  /\ @ExtractZip (fixedExternals [] docsTar) (cancelAfter 0) pkgFs
                 "pkg.bin" "out"
     = @ExtractZip (fixedExternals [] docsTar) Background pkgFs
                   "pkg.bin" "out".
Proof.
  destruct extraction_polls_once_per_entry as (Hzip & H7z & Htar).
  split; [|split; [|split]].
  - apply (Hzip docsExternals (cancelAfter 3) pkgFs "pkg.bin" "out" docsFiles);
      [reflexivity|].
    intros [|[|[|j]]] Hj; try reflexivity. simpl in Hj. lia.
  - apply (H7z docsExternals (cancelAfter 3) pkgFs "pkg.bin" "out" docsFiles);
      [reflexivity|].
    intros [|[|[|j]]] Hj; try reflexivity. simpl in Hj. lia.
  - apply (Htar docsExternals (cancelAfter 4) pkgFs "pkg.bin" "out" docsTar);
      [vm_compute; reflexivity|].
    intros [|[|[|[|j]]]] Hj; try reflexivity. simpl in Hj. lia.
  - apply (Hzip (fixedExternals [] docsTar) (cancelAfter 0) pkgFs
                "pkg.bin" "out" []); [reflexivity|].
    intros j Hj. simpl in Hj. lia.
Defined.

(** ** [IsActualArchive] *)

Lemma string_of_list_ascii_app (a b : list ascii) :
  string_of_list_ascii (a ++ b)
  = string_of_list_ascii a +:+ string_of_list_ascii b.
Proof.
  induction a as [|c a IH]; [reflexivity|].
  simpl. rewrite append_cons. now f_equal.
Qed.

Lemma list_ascii_of_string_app (a b : string) :
  list_ascii_of_string (a +:+ b)
  = list_ascii_of_string a ++ list_ascii_of_string b.
Proof.
  induction a as [|c a IH]; [reflexivity|].
  rewrite append_cons. simpl. now f_equal.
Qed.

Lemma forallb_rev (f : ascii -> bool) (l : list ascii) :
  forallb f (rev l) = forallb f l.
Proof.
  induction l as [|c l IH]; [reflexivity|].
  simpl. rewrite forallb_app, IH. simpl.
  rewrite andb_true_r. apply andb_comm.
Qed.

(** The backward scan of [Ext] stops at the last dot of the final
    element. *)
Lemma extScan_found (mid rest : list ascii) (suffix : string) :
  forallb plainChar mid = true ->
  extScan (mid ++ "."%char :: rest) suffix
  = String "." (string_of_list_ascii (rev mid)) +:+ suffix.
Proof.
  revert suffix; induction mid as [|c mid IH]; intros suffix Hmid;
    [reflexivity|].
  simpl in Hmid. apply andb_prop in Hmid as [Hc Hmid].
  unfold plainChar in Hc. apply andb_prop in Hc as [Hdot Hsep].
  apply negb_true_iff in Hdot, Hsep.
  simpl extScan. rewrite Hsep, Hdot, (IH _ Hmid).
  simpl rev. rewrite string_of_list_ascii_app, !append_cons, append_assoc.
  reflexivity.
Qed.

Lemma extScan_shape (before : list ascii) (suffix : string) :
  extScan before suffix = ""
  \/ exists mid rest,
       before = mid ++ "."%char :: rest /\ forallb plainChar mid = true.
Proof.
  revert suffix; induction before as [|c before IH]; intros suffix;
    [now left|].
  simpl. destruct (IsPathSeparator c) eqn:Hsep; [now left|].
  destruct (Ascii.eqb_spec c ".") as [->|Hdot].
  - right. now exists [], before.
  - destruct (IH (String c suffix)) as [He | (mid & rest & -> & Hmid)];
      [now left|].
    right. exists (c :: mid), rest. split; [reflexivity|].
    simpl. rewrite Hmid, andb_true_r. unfold plainChar. rewrite Hsep.
    apply Ascii.eqb_neq in Hdot. now rewrite Hdot.
Qed.

(** [Ext] returns a suffix of the path, which is empty or a dot followed
    by bytes other than dots and separators. *)
Lemma Ext_suffix (path : string) :
  (Ext path = "" \/ extensionShaped (Ext path) = true)
  /\ exists stem, path = stem +:+ Ext path.
Proof.
  unfold Ext.
  destruct (extScan_shape (rev (list_ascii_of_string path)) "")
    as [He | (mid & rest & Hrev & Hmid)].
  - rewrite He. split; [now left|]. exists path. clear.
    induction path as [|c p IH]; [reflexivity|].
    rewrite append_cons. now f_equal.
  - rewrite Hrev, (extScan_found mid rest "" Hmid).
    assert (forall s, s +:+ "" = s) as Hnil.
    { clear. induction s as [|c s IH]; [reflexivity|].
      rewrite append_cons. now f_equal. }
    rewrite Hnil. split.
    + right. simpl. rewrite list_ascii_of_string_of_list_ascii.
      now rewrite forallb_rev.
    + exists (string_of_list_ascii (rev rest)).
      change (String "." (string_of_list_ascii (rev mid)))
        with (string_of_list_ascii ("."%char :: rev mid)).
      rewrite <- string_of_list_ascii_app.
      rewrite <- (string_of_list_ascii_of_string path) at 1.
      f_equal. rewrite <- (rev_involutive (list_ascii_of_string path)), Hrev.
      rewrite rev_app_distr. simpl. now rewrite <- app_assoc.
Qed.

(** A path that ends in an extension-shaped string has it as its
    extension. *)
Lemma Ext_append (stem ext : string) :
  extensionShaped ext = true -> Ext (stem +:+ ext) = ext.
Proof.
  destruct ext as [|c tail]; [discriminate|]. simpl.
  intros Hshape. apply andb_prop in Hshape as [Hc Htail].
  apply Ascii.eqb_eq in Hc. subst c.
  unfold Ext. rewrite list_ascii_of_string_app. simpl.
  rewrite rev_app_distr. simpl. rewrite <- app_assoc. simpl.
  rewrite extScan_found by (now rewrite forallb_rev).
  rewrite rev_involutive, string_of_list_ascii_of_string.
  clear. generalize (String "." tail). induction s as [|c s IH];
    [reflexivity|]. rewrite append_cons. now f_equal.
Qed.

Lemma lowerChar_plain (c : ascii) :
  plainChar (lowerChar c) = true -> plainChar c = true.
Proof.
  destruct c as [[] [] [] [] [] [] [] []]; vm_compute; trivial.
Qed.

Lemma lowerChar_dot (c : ascii) : lowerChar c = "."%char -> c = "."%char.
Proof.
  destruct c as [[] [] [] [] [] [] [] []]; vm_compute; intros Heq;
    first [reflexivity | discriminate Heq].
Qed.

Lemma ToLower_extensionShaped (ext : string) :
  extensionShaped (ToLower ext) = true -> extensionShaped ext = true.
Proof.
  destruct ext as [|c tail]; [discriminate|]. simpl.
  intros Hshape. apply andb_prop in Hshape as [Hc Htail].
  apply Ascii.eqb_eq, lowerChar_dot in Hc. subst c. simpl.
  clear -Htail. induction tail as [|c tail IH]; [reflexivity|].
  simpl in *. apply andb_prop in Htail as [Hc Htail].
  now rewrite (lowerChar_plain c Hc), IH.
Qed.

Lemma IsActualArchive_unfold (path : string) :
  IsActualArchive path
  = negb (existsb (String.eqb (ToLower (Ext path))) nonArchiveExtensions).
Proof.
  unfold IsActualArchive. cbv zeta.
  set (e := ToLower (Ext path)).
  change nonArchiveExtensions
    with ([".docx"; ".xlsx"; ".pptx"; ".docm"; ".xlsm"; ".pptm"]
          ++ [".odt"; ".ods"; ".odp"; ".odg"; ".odf"] ++ [".jar"]).
  rewrite !existsb_app.
  destruct (existsb _ [".docx"; ".xlsx"; ".pptx"; ".docm"; ".xlsm"; ".pptm"]);
    [reflexivity|].
  destruct (existsb _ [".odt"; ".ods"; ".odp"; ".odg"; ".odf"]);
    [reflexivity|].
  simpl. now destruct (String.eqb e ".jar").
Qed.

(** X10.  [IsActualArchive] returns [false] exactly for the paths that
    end in one of the twelve Office, OpenDocument and JAR extensions,
    written in lower or upper case letters; the directory part of the
    path and earlier dots in the file name have no influence. *)
Theorem IsActualArchive_false_iff :
  forall path,
    IsActualArchive path = false <->
    exists stem ext,
      path = stem +:+ ext /\ In (ToLower ext) nonArchiveExtensions.
Proof.
  intros path. rewrite IsActualArchive_unfold, negb_false_iff, existsb_exists.
  split.
  - intros (x & Hin & Heq). apply String.eqb_eq in Heq. subst x.
    destruct (Ext_suffix path) as [_ [stem Hstem]].
    now exists stem, (Ext path).
  - intros (stem & ext & -> & Hin).
    assert (extensionShaped ext = true) as Hshape.
    { apply ToLower_extensionShaped.
      revert Hin. generalize (ToLower ext). intros low Hin.
      simpl in Hin.
      repeat (destruct Hin as [<-|Hin]; [reflexivity|]). contradiction. }
    rewrite (Ext_append stem ext Hshape).
    exists (ToLower ext). split; [assumption | apply String.eqb_refl].
Qed.

(** ** What an extraction leaves untouched *)

Lemma sameOutside_refl (root : string) (fs : gmap string inode) :
  sameOutside root fs fs.
Proof. now intros key _. Qed.

Lemma sameOutside_trans (root : string) (fs1 fs2 fs3 : gmap string inode) :
  sameOutside root fs1 fs2 -> sameOutside root fs2 fs3 ->
  sameOutside root fs1 fs3.
Proof. intros H12 H23 key Hk. now rewrite (H23 key Hk), (H12 key Hk). Qed.

Lemma sameOutside_insert (root key : string) (nd : inode)
  (fs : gmap string inode) :
  underRoot root key -> sameOutside root fs (<[key := nd]> fs).
Proof.
  intros Hunder k Hk. apply lookup_insert_ne. intros ->. contradiction.
Qed.

Lemma os_Mkdir_frame (root : string) (fs fs' : gmap string inode)
  (path : string) (perm : Z) (e : option error) :
  underRoot root (Clean path) ->
  os_Mkdir fs path perm = (fs', e) -> sameOutside root fs fs'.
Proof.
  intros Hunder. unfold os_Mkdir.
  destruct (String.eqb path "");
    [intros [= <- _]; apply sameOutside_refl|].
  destruct (resolve fs path); [intros [= <- _]; apply sameOutside_refl|].
  destruct (parentIsDir fs path); intros [= <- _];
    [apply sameOutside_refl | now apply sameOutside_insert].
Qed.

Lemma os_OpenFile_frame (root : string) (fs fs' : gmap string inode)
  (path : string) (perm : Z) (e : option error) :
  underRoot root (Clean path) ->
  os_OpenFile fs path perm = (fs', e) -> sameOutside root fs fs'.
Proof.
  intros Hunder. unfold os_OpenFile.
  destruct (String.eqb path "");
    [intros [= <- _]; apply sameOutside_refl|].
  destruct (resolve fs path) as [[p d|p|d]|].
  - intros [= <- _]. now apply sameOutside_insert.
  - intros [= <- _]. apply sameOutside_refl.
  - intros [= <- _]. apply sameOutside_refl.
  - destruct (parentIsDir fs path); intros [= <- _];
      [apply sameOutside_refl | now apply sameOutside_insert].
Qed.

Lemma writeFile_frame (root : string) (fs : gmap string inode)
  (path : string) (data : list byte) :
  underRoot root (Clean path) ->
  sameOutside root fs (writeFile fs path data).
Proof.
  intros Hunder. unfold writeFile.
  destruct (resolve fs path) as [[p d|p|d]|];
    first [now apply sameOutside_insert | apply sameOutside_refl].
Qed.

Lemma statMkdir_frame (root : string) (fs fs' : gmap string inode)
  (path : string) (e : option error) :
  underRoot root (Clean path) ->
  statMkdir fs path = (fs', e) -> sameOutside root fs fs'.
Proof.
  intros Hunder. unfold statMkdir.
  destruct (os_IsNotExist _); [now apply os_Mkdir_frame|].
  intros [= <- _]. apply sameOutside_refl.
Qed.

Lemma cleanStep_empty (r : bool) (out : list string) :
  cleanStep r out "" = out.
Proof. reflexivity. Qed.

(** A rendered buffer followed by a separator cleans to itself. *)
Lemma Clean_render_sep (r : bool) (out : list string) :
  wfStack r out -> rev out <> [] ->
  Clean (render r (rev out) +:+ String Separator "") = render r (rev out).
Proof.
  intros Hwf Hne.
  pose proof (wfStack_rev_elems r out Hwf) as Hel.
  pose proof (cleanElems_replay r out Hwf) as Hreplay.
  assert (isRooted (render r (rev out)) = r /\ render r (rev out) <> "")
    as [Hr Hnonempty].
  { destruct (rev out) as [|e comps]; [contradiction|].
    inversion Hel as [|? ? [Hs He] _]; subst.
    destruct e as [|c e]; [contradiction|].
    destruct (concat_head c e comps) as [t Ht].
    simpl in Hs. apply andb_prop in Hs as [Hc _].
    apply negb_true_iff in Hc.
    destruct r; unfold render; [split; [reflexivity | discriminate]|].
    rewrite Ht. split; [exact Hc | discriminate]. }
  rewrite Clean_unfold.
  assert (isRooted (render r (rev out) +:+ String Separator "") = r) as ->.
  { rewrite <- Hr at 2.
    destruct (render r (rev out)); [contradiction | reflexivity]. }
  rewrite elements_app_sep, elements_render by assumption.
  unfold cleanElems in *. rewrite fold_left_app.
  destruct r; simpl; now rewrite !cleanStep_empty, Hreplay.
Qed.

Lemma dropElement_app (last before : list ascii) :
  forallb (fun c => negb (IsPathSeparator c)) last = true ->
  dropElement (last ++ Separator :: before) = Separator :: before.
Proof.
  induction last as [|c last IH]; intros Hlast; [reflexivity|].
  simpl in Hlast. apply andb_prop in Hlast as [Hc Hlast].
  apply negb_true_iff in Hc. simpl. now rewrite Hc, IH.
Qed.

Lemma sepfree_forallb (s : string) :
  sepfree s = true ->
  forallb (fun c => negb (IsPathSeparator c)) (list_ascii_of_string s) = true.
Proof.
  induction s as [|c s IH]; [reflexivity|]. simpl.
  intros Hs. apply andb_prop in Hs as [Hc Hs]. now rewrite Hc, IH.
Qed.

(** [Dir] of a path whose final element is [last]. *)
Lemma Dir_app (a last : string) :
  sepfree last = true ->
  Dir (a +:+ String Separator last) = Clean (a +:+ String Separator "").
Proof.
  intros Hlast. unfold Dir. f_equal.
  rewrite list_ascii_of_string_app. simpl.
  rewrite rev_app_distr. simpl. rewrite <- app_assoc. simpl.
  rewrite dropElement_app
    by (rewrite forallb_rev; now apply sepfree_forallb).
  simpl. rewrite rev_involutive, string_of_list_ascii_app.
  now rewrite string_of_list_ascii_of_string.
Qed.

(** A path that [safeJoin] returns, and its directory, are under the
    cleaned root. *)
Lemma safeJoin_underRoot (d name p : string) :
  safeJoin d name = (p, None) ->
  underRoot (Clean d) (Clean p) /\ underRoot (Clean d) (Clean (Dir p)).
Proof.
  intros Hsj.
  pose proof (safeJoin_success_prefix d name p Hsj) as [Hp Hpre].
  split; [now right|]. rewrite Dir_clean.
  rewrite Hp, Join_clean in Hpre. unfold HasPrefix in Hpre.
  apply prefix_split in Hpre as [rest Hrest].
  destruct (safeJoin_filePath_shape d name) as (out & Hwf & Hout).
  pose proof (cleanElems_wfStack (isRooted d) d) as Hwfd.
  rewrite <- Hp in Hout, Hrest.
  pose proof Hrest as Hrest'.
  rewrite Hout, append_assoc, (Clean_unfold d) in Hrest'.
  change (String Separator "" +:+ rest) with (String Separator rest)
    in Hrest'.
  destruct (below_root_elements _ _ _ _ Hwfd Hwf Hrest') as [Hne Hsplit].
  set (cs := rev (cleanElems (isRooted d) (elements d))) in *.
  pose proof (elements_nonnil rest) as Hmore.
  destruct (exists_last Hmore) as (init & last & Hlast).
  assert (rev out = (cs ++ init) ++ [last]) as Hrev
    by (now rewrite Hsplit, Hlast, app_assoc).
  assert (out = last :: rev (cs ++ init)) as Hout'.
  { rewrite <- (rev_involutive out), Hrev, rev_app_distr. reflexivity. }
  assert (wfStack (isRooted d) (rev (cs ++ init)) /\ sepfree last = true)
    as [Hwft Hsl].
  { rewrite Hout' in Hwf. simpl in Hwf.
    destruct Hwf as [[(_ & _ & _ & Hs) Hwf] | (-> & Hr & Hall)];
      [now split|].
    rewrite Hr. split; [now apply dotdots_wfStack | reflexivity]. }
  assert (cs ++ init <> []) as Hne'
    by (destruct cs; [contradiction | discriminate]).
  assert (p = render (isRooted d) (cs ++ init) +:+ String Separator last)
    as Hp'.
  { rewrite Hout, Hrev, render_app by (assumption || discriminate).
    reflexivity. }
  rewrite Hp', (Dir_app _ _ Hsl).
  rewrite <- (rev_involutive (cs ++ init)).
  rewrite Clean_render_sep by (rewrite ?rev_involutive; assumption).
  rewrite rev_involutive.
  destruct init as [|x init].
  - left. rewrite app_nil_r, Clean_unfold. reflexivity.
  - right. rewrite render_app by (assumption || discriminate).
    rewrite <- Clean_unfold. unfold HasPrefix.
    replace (Clean d +:+ String Separator (String.concat "/" (x :: init)))
      with ((Clean d +:+ String Separator "")
            +:+ String.concat "/" (x :: init))
      by (now rewrite append_assoc).
    apply prefix_app.
Qed.

Ltac frame_done :=
  match goal with
  | |- (?fs, _) = (_, _) -> sameOutside _ _ _ =>
      let H := fresh in
      intros H; injection H as <- _;
      eauto using sameOutside_refl, sameOutside_trans
  end.

Lemma Extract7z_loop_frame (ctx : Context) (cleanDest : string)
  (files : list ArchiveFile) :
  forall i fs fs' e,
    Extract7z_loop ctx i cleanDest files fs = (fs', e) ->
    sameOutside (Clean cleanDest) fs fs'.
Proof.
  induction files as [|file rest IH]; intros i fs fs' e; simpl;
    [frame_done|].
  destruct (ctx i); [frame_done|].
  destruct (safeJoin cleanDest (f_Name file)) as [outPath [err|]] eqn:Hsj;
    [frame_done|].
  destruct (safeJoin_underRoot _ _ _ Hsj) as [Hu Hud].
  destruct (IsDir _).
  - destruct (os_Mkdir fs outPath _) as [fs1 oe] eqn:Hmk.
    pose proof (os_Mkdir_frame _ _ _ _ _ _ Hu Hmk) as H1.
    destruct oe as [err|].
    + destruct (negb _); [frame_done|].
      intros Hl. eapply sameOutside_trans; [exact H1 | eapply IH, Hl].
    + intros Hl. eapply sameOutside_trans; [exact H1 | eapply IH, Hl].
  - destruct (statMkdir fs (Dir outPath)) as [fs1 oe] eqn:Hmk.
    pose proof (statMkdir_frame _ _ _ _ _ Hud Hmk) as H1.
    destruct oe as [err|]; [frame_done|].
    destruct (f_Open file) as [rc|err]; [|frame_done].
    destruct (os_OpenFile fs1 outPath _) as [fs2 oe] eqn:Hop.
    pose proof (os_OpenFile_frame _ _ _ _ _ _ Hu Hop) as H2.
    destruct oe as [err|]; [frame_done|].
    pose proof (writeFile_frame (Clean cleanDest) fs2 outPath
                  (s_data (LimitReader rc maxExtractFileSize)) Hu) as H3.
    destruct (s_fault _); [frame_done|].
    intros Hl.
    eapply sameOutside_trans; [exact H1|].
    eapply sameOutside_trans; [exact H2|].
    eapply sameOutside_trans; [exact H3 | eapply IH, Hl].
Qed.

Lemma ExtractTar_loop_frame (ctx : Context) (cleanDest : string)
  (headers : list TarEntry) (final : error) :
  forall i fs fs' e,
    ExtractTar_loop ctx i cleanDest headers final fs = (fs', e) ->
    sameOutside (Clean cleanDest) fs fs'.
Proof.
  induction headers as [|header rest IH]; intros i fs fs' e; simpl.
  { destruct (ctx i); [frame_done|]. destruct final; frame_done. }
  destruct (ctx i); [frame_done|].
  destruct (safeJoin cleanDest (h_Name header)) as [filePath [err|]] eqn:Hsj;
    [frame_done|].
  destruct (safeJoin_underRoot _ _ _ Hsj) as [Hu Hud].
  destruct (Byte.eqb _ TypeDir).
  - destruct (os_Mkdir fs filePath _) as [fs1 oe] eqn:Hmk.
    pose proof (os_Mkdir_frame _ _ _ _ _ _ Hu Hmk) as H1.
    destruct oe as [err|].
    + destruct (negb _); [frame_done|].
      intros Hl. eapply sameOutside_trans; [exact H1 | eapply IH, Hl].
    + intros Hl. eapply sameOutside_trans; [exact H1 | eapply IH, Hl].
  - destruct (Byte.eqb _ TypeReg); [|apply IH].
    destruct (statMkdir fs (Dir filePath)) as [fs1 oe] eqn:Hmk.
    pose proof (statMkdir_frame _ _ _ _ _ Hud Hmk) as H1.
    destruct oe as [err|]; [frame_done|].
    destruct (os_Create fs1 filePath) as [fs2 oe] eqn:Hop.
    pose proof (os_OpenFile_frame _ _ _ _ _ _ Hu Hop) as H2.
    destruct oe as [err|]; [frame_done|].
    pose proof (writeFile_frame (Clean cleanDest) fs2 filePath
                  (s_data (LimitReader (h_body header) maxExtractFileSize))
                  Hu) as H3.
    destruct (s_fault _); [frame_done|].
    intros Hl.
    eapply sameOutside_trans; [exact H1|].
    eapply sameOutside_trans; [exact H2|].
    eapply sameOutside_trans; [exact H3 | eapply IH, Hl].
Qed.

Lemma CreateDir_frame (E : Externals) (root : string)
  (fs fs' : gmap string inode) (path : string) (e : option error) :
  CreateDir_local E -> underRoot root (Clean path) ->
  CreateDir fs path = (fs', e) -> sameOutside root fs fs'.
Proof.
  intros Hlocal Hunder Hc key Hkey.
  apply (Hlocal fs path fs' e key Hc). intros ->. contradiction.
Qed.

Lemma ExtractZip_loop_frame (E : Externals) (ctx : Context)
  (cleanDest : string) (files : list ArchiveFile) :
  CreateDir_local E ->
  forall i fs fs' e,
    ExtractZip_loop ctx i cleanDest files fs = (fs', e) ->
    sameOutside (Clean cleanDest) fs fs'.
Proof.
  intros Hlocal.
  induction files as [|file rest IH]; intros i fs fs' e; simpl;
    [frame_done|].
  destruct (ctx i); [frame_done|].
  destruct (safeJoin cleanDest (f_Name file)) as [filePath [err|]] eqn:Hsj;
    [frame_done|].
  destruct (safeJoin_underRoot _ _ _ Hsj) as [Hu Hud].
  destruct (IsDir _).
  - destruct (CreateDir fs filePath) as [fs1 oe] eqn:Hmk.
    pose proof (CreateDir_frame E _ _ _ _ _ Hlocal Hu Hmk) as H1.
    destruct oe as [err|]; [frame_done|].
    intros Hl. eapply sameOutside_trans; [exact H1 | eapply IH, Hl].
  - destruct (CreateDir fs (Dir filePath)) as [fs1 oe] eqn:Hmk.
    pose proof (CreateDir_frame E _ _ _ _ _ Hlocal Hud Hmk) as H1.
    destruct oe as [err|]; [frame_done|].
    destruct (os_Create fs1 filePath) as [fs2 oe] eqn:Hop.
    pose proof (os_OpenFile_frame _ _ _ _ _ _ Hu Hop) as H2.
    destruct oe as [err|]; [frame_done|].
    destruct (f_Open file) as [rc|err]; [|frame_done].
    pose proof (writeFile_frame (Clean cleanDest) fs2 filePath
                  (s_data (LimitReader rc maxExtractFileSize)) Hu) as H3.
    destruct (s_fault _); [frame_done|].
    intros Hl.
    eapply sameOutside_trans; [exact H1|].
    eapply sameOutside_trans; [exact H2|].
    eapply sameOutside_trans; [exact H3 | eapply IH, Hl].
Qed.

Lemma CreateDir_spec_local (files : list ArchiveFile) (tr : TarReader) :
  CreateDir_local (fixedExternals files tr).
Proof.
  intros fs path fs' e key Hc Hkey. simpl in Hc.
  unfold CreateDir_spec, os_Mkdir in Hc.
  destruct (os_IsNotExist _); [|now injection Hc as <- _].
  destruct (String.eqb path ""); [now injection Hc as <- _|].
  destruct (resolve fs path); [now injection Hc as <- _|].
  destruct (parentIsDir fs path); injection Hc as <- _; [reflexivity|].
  apply lookup_insert_ne. congruence.
Qed.

(** X11.  An extraction changes the file system only at the cleaned
    destination and at paths that have the cleaned destination and a
    separator as a prefix: every other path holds after [ExtractZip],
    [Extract7z] or [ExtractTar] what it held before, whether the
    extraction succeeds, fails or is cancelled.  For [ExtractZip] this
    assumes that [CreateDir] changes nothing but the path it is given. *)
Theorem extraction_changes_only_under_root :
  (forall (E : Externals) ctx fs src dest fs' r,
      CreateDir_local E ->
      ExtractZip ctx fs src dest = (fs', r) ->
      sameOutside (Clean dest) fs fs')
  /\ (forall (E : Externals) ctx fs src dest fs' r,
        Extract7z ctx fs src dest = (fs', r) ->
        sameOutside (Clean dest) fs fs')
  /\ (forall (E : Externals) ctx fs src dest fs' r,
        ExtractTar ctx fs src dest = (fs', r) ->
        sameOutside (Clean dest) fs fs').
Proof.
  assert (forall dest, underRoot (Clean dest) (Clean dest)) as Hroot
    by (intros dest; now left).
  split; [|split].
  - intros E ctx fs src dest fs' r Hlocal. unfold ExtractZip.
    destruct (zip_OpenReader fs src) as [files|err]; [|frame_done].
    destruct (CreateDir fs dest) as [fs0 oe] eqn:Hmk.
    pose proof (CreateDir_frame E _ _ _ _ _ Hlocal (Hroot dest) Hmk) as H1.
    destruct oe as [err|]; [frame_done|]. cbv zeta.
    destruct (ExtractZip_loop _ _ _ _ _) as [fs1 oe] eqn:Hl.
    apply (ExtractZip_loop_frame E) in Hl; [|exact Hlocal].
    rewrite Clean_trailing_sep in Hl.
    destruct oe; frame_done.
  - intros E ctx fs src dest fs' r. unfold Extract7z.
    destruct (sevenzip_OpenReader fs src) as [files|err]; [|frame_done].
    destruct (statMkdir fs dest) as [fs0 oe] eqn:Hmk.
    pose proof (statMkdir_frame _ _ _ _ _ (Hroot dest) Hmk) as H1.
    destruct oe as [err|]; [frame_done|]. cbv zeta.
    destruct (Extract7z_loop _ _ _ _ _) as [fs1 oe] eqn:Hl.
    apply Extract7z_loop_frame in Hl. rewrite Clean_trailing_sep in Hl.
    destruct oe; frame_done.
  - intros E ctx fs src dest fs' r. unfold ExtractTar.
    destruct (openTar fs src) as [tr|err]; [|frame_done].
    destruct (statMkdir fs dest) as [fs0 oe] eqn:Hmk.
    pose proof (statMkdir_frame _ _ _ _ _ (Hroot dest) Hmk) as H1.
    destruct oe as [err|]; [frame_done|]. cbv zeta.
    destruct (ExtractTar_loop _ _ _ _ _ _) as [fs1 oe] eqn:Hl.
    apply ExtractTar_loop_frame in Hl. rewrite Clean_trailing_sep in Hl.
    destruct oe; frame_done.
Qed.

(** The [docs] archive extracted to [out]. *)
Lemma extraction_changes_only_under_root_witness :
  sameOutside "out" pkgFs
    (@ExtractZip docsExternals Background pkgFs "pkg.bin" "out").1
  /\ sameOutside "out" pkgFs
       (@Extract7z docsExternals Background pkgFs "pkg.bin" "out").1
  /\ sameOutside "out" pkgFs
       (@ExtractTar docsExternals (cancelAfter 2) pkgFs "pkg.bin" "out").1.
Proof.
  destruct extraction_changes_only_under_root as (Hzip & H7z & Htar).
  split; [|split].
  - apply (Hzip docsExternals Background pkgFs "pkg.bin" "out" _
                (@ExtractZip docsExternals Background pkgFs
                             "pkg.bin" "out").2);
      [apply CreateDir_spec_local | vm_compute; reflexivity].
  - apply (H7z docsExternals Background pkgFs "pkg.bin" "out" _
               (@Extract7z docsExternals Background pkgFs
                           "pkg.bin" "out").2).
    vm_compute; reflexivity.
  - apply (Htar docsExternals (cancelAfter 2) pkgFs "pkg.bin" "out" _
                (@ExtractTar docsExternals (cancelAfter 2) pkgFs
                             "pkg.bin" "out").2).
    vm_compute; reflexivity.
Defined.

(* ===================================================================== *)
(** ** [CompressToZip]: what it leaves behind *)
(* ===================================================================== *)

Section CompressEdges.
Context `{Packing}.

Lemma os_Create_frame (fs fs1 : gmap string inode) (dest : string)
  (e : option error) (key : string) :
  os_Create fs dest = (fs1, e) -> key <> Clean dest ->
  fs1 !! key = fs !! key.
Proof.
  unfold os_Create, os_OpenFile. intros Hc Hk.
  destruct (String.eqb dest ""); [now inversion Hc|].
  destruct (resolve fs dest) as [[p d|p|d]|].
  - inversion Hc; subst. now apply lookup_insert_ne.
  - now inversion Hc.
  - now inversion Hc.
  - destruct (parentIsDir fs dest); inversion Hc; subst;
      [reflexivity | now apply lookup_insert_ne].
Qed.

Lemma writeFile_other (fs : gmap string inode) (dest : string)
  (data : list byte) (key : string) :
  key <> Clean dest -> writeFile fs dest data !! key = fs !! key.
Proof.
  intros Hk. unfold writeFile.
  destruct (resolve fs dest) as [[p d|p|d]|]; try reflexivity.
  now apply lookup_insert_ne.
Qed.

(** The file that [os.Create] has emptied holds what is written to it. *)
Lemma os_Create_writeFile (fs fs1 : gmap string inode) (dest : string)
  (p : Z) (old data : list byte) :
  os_Create fs dest = (fs1, None) ->
  fs !! Clean dest = Some (Regular p old) ->
  writeFile fs1 dest data = <[Clean dest := Regular p data]> fs.
Proof.
  unfold os_Create, os_OpenFile, writeFile, resolve. intros Hc Hold.
  destruct (String.eqb dest "") eqn:Hd; [discriminate|].
  rewrite Hold in Hc. inversion Hc; subst.
  rewrite lookup_insert_eq. apply insert_insert_eq.
Qed.

Lemma os_Create_failure (fs fs1 : gmap string inode) (dest : string)
  (err : error) :
  os_Create fs dest = (fs1, Some err) -> fs1 = fs.
Proof.
  unfold os_Create, os_OpenFile.
  destruct (String.eqb dest ""); [now intros [= <- _]|].
  destruct (resolve fs dest) as [[p d|p|d]|]; try now intros [= <- _].
  destruct (parentIsDir fs dest); now intros [= <- _].
Qed.

(** The root of the walk gets no entry: its path relative to itself is
    [.]. *)
Lemma compressVisit_root (ctx : Context) (src : string) (info : Tree)
  (st : Packer) :
  ctx (pk_polls st) = None ->
  compressVisit ctx src src (inl info) st = (polled st, None).
Proof.
  intros Hctx. unfold compressVisit, filepath_Rel. rewrite Hctx.
  now rewrite String.eqb_refl.
Qed.

Lemma compressVisit_cancelled (ctx : Context) (src path : string)
  (found : Tree + error) (st : Packer) (cerr : error) :
  ctx (pk_polls st) = Some cerr ->
  compressVisit ctx src path found st = (polled st, Some cerr).
Proof. intros Hctx. unfold compressVisit. now rewrite Hctx. Qed.

Lemma walk_cancelled (ctx : Context) (src path : string) (info : Tree)
  (st : Packer) (cerr : error) :
  ctx (pk_polls st) = Some cerr ->
  walk ctx src path info st = (polled st, Some cerr).
Proof.
  intros Hctx. destruct info; simpl;
    now rewrite (compressVisit_cancelled _ _ _ _ _ _ Hctx).
Qed.

(** X12. [CompressToZip] changes the file system at the path of the
    archive file only, whatever it returns: every other path holds after
    the call what it held before. *)
Theorem CompressToZip_touches_only_dest
  (ctx : Context) (fs fs' : gmap string inode) (src dest : string)
  (e : option error) (key : string) :
  CompressToZip ctx fs src dest = (fs', e) ->
  key <> Clean dest ->
  fs' !! key = fs !! key.
Proof.
  unfold CompressToZip. intros Hrun Hkey.
  destruct (os_Create fs dest) as [fs1 [err|]] eqn:Hcreate.
  - inversion Hrun; subst. eapply os_Create_frame; eassumption.
  - destruct (Walk ctx fs1 src _) as [st werr]. inversion Hrun; subst.
    rewrite writeFile_other by assumption.
    eapply os_Create_frame; eassumption.
Qed.

(** X13. When the source cannot be found, or is a directory whose names
    cannot be read, [CompressToZip] returns that error wrapped as
    "walking path", and the archive file has been created all the same:
    an archive without entries is left at the destination, also in the
    place of a file that was there before. *)
Theorem CompressToZip_missing_source
  (ctx : Context) (fs fs1 : gmap string inode) (src dest : string)
  (err : error) :
  os_Create fs dest = (fs1, None) ->
  ctx 0 = None ->
  (lstatTree fs1 src = Err err
   \/ exists mode, lstatTree fs1 src = Ok (TNoList mode err)) ->
  CompressToZip ctx fs src dest
  = (writeFile fs1 dest (zip_bytes []),
     Some (Wrapf "walking path: %w" [] err))
  /\ forall p old,
       fs !! Clean dest = Some (Regular p old) ->
       writeFile fs1 dest (zip_bytes [])
       = <[Clean dest := Regular p (zip_bytes [])]> fs.
Proof.
  intros Hcreate Hctx Hsrc. split.
  - unfold CompressToZip, Walk. rewrite Hcreate.
    destruct Hsrc as [-> | [mode ->]]; simpl;
      unfold compressVisit; simpl; rewrite Hctx; reflexivity.
  - intros p old Hold. eapply os_Create_writeFile; eassumption.
Qed.

(** X14. A source that is not a directory is not archived: the walk
    visits the source alone, which is [.] relative to itself and is
    passed over, so [CompressToZip] returns no error and leaves an
    archive without entries. *)
Theorem CompressToZip_of_a_file
  (ctx : Context) (fs fs1 : gmap string inode) (src dest : string)
  (mode : Z) (open : result Stream) :
  os_Create fs dest = (fs1, None) ->
  ctx 0 = None ->
  lstatTree fs1 src = Ok (TFile mode open) ->
  CompressToZip ctx fs src dest
  = (writeFile fs1 dest (zip_bytes []), None).
Proof.
  intros Hcreate Hctx Hsrc.
  unfold CompressToZip, Walk. rewrite Hcreate, Hsrc. simpl walk.
  rewrite compressVisit_root by exact Hctx. reflexivity.
Qed.

(** X15. When the context is done at the first poll, [CompressToZip]
    returns the error of the context as it is, whatever the source is,
    also when the source is missing; the archive file has been created
    before, and is left without entries. *)
Theorem CompressToZip_cancelled
  (ctx : Context) (fs fs1 : gmap string inode) (src dest : string)
  (cerr : error) :
  os_Create fs dest = (fs1, None) ->
  ctx 0 = Some cerr ->
  CompressToZip ctx fs src dest
  = (writeFile fs1 dest (zip_bytes []), Some cerr).
Proof.
  intros Hcreate Hctx.
  unfold CompressToZip, Walk. rewrite Hcreate.
  destruct (lstatTree fs1 src) as [info|err].
  - now rewrite (walk_cancelled ctx src src info
                   {| pk_polls := 0; pk_zip := [] |} cerr Hctx).
  - now rewrite (compressVisit_cancelled ctx src src (inr err)
                   {| pk_polls := 0; pk_zip := [] |} cerr Hctx).
Qed.

End CompressEdges.

(* ===================================================================== *)
(** ** [CompressToZip]: the entries of the archive *)
(* ===================================================================== *)

Lemma entryName_real (n : string) : entryName n = true -> realElem n.
Proof.
  unfold entryName, realElem. intros Hn.
  apply andb_prop in Hn as [Hn Hs]. apply andb_prop in Hn as [Hn H3].
  apply andb_prop in Hn as [H1 H2].
  apply negb_true_iff in H1, H2, H3.
  apply String.eqb_neq in H1, H2, H3. repeat split; assumption.
Qed.

Lemma insertByName_map {A B : Type} (F : string * A -> B)
  (x : string * A) (l : list (string * A)) :
  insertByName (fst x, F x) (map (fun e => (fst e, F e)) l)
  = map (fun e => (fst e, F e)) (insertByName x l).
Proof.
  induction l as [|y l IH]; [reflexivity|]. simpl.
  destruct (String.leb (fst x) (fst y)); [reflexivity|].
  simpl. now rewrite IH.
Qed.

(** Sorting by name goes through what is attached to the names. *)
Lemma sortByName_map {A B : Type} (F : string * A -> B)
  (l : list (string * A)) :
  sortByName (map (fun e => (fst e, F e)) l)
  = map (fun e => (fst e, F e)) (sortByName l).
Proof.
  induction l as [|x l IH]; [reflexivity|].
  change (insertByName (fst x, F x)
            (sortByName (map (fun e => (fst e, F e)) l))
          = map (fun e => (fst e, F e)) (insertByName x (sortByName l))).
  rewrite IH. apply insertByName_map.
Qed.

Lemma Forall_insertByName {A : Type} (P : string * A -> Prop)
  (x : string * A) (l : list (string * A)) :
  P x -> Forall P l -> Forall P (insertByName x l).
Proof.
  intros Hx. induction 1 as [|y l Hy Hl IH]; simpl.
  - now repeat constructor.
  - destruct (String.leb (fst x) (fst y)); now repeat constructor.
Qed.

Lemma Forall_sortByName {A : Type} (P : string * A -> Prop)
  (l : list (string * A)) :
  Forall P l -> Forall P (sortByName l).
Proof.
  induction 1 as [|x l Hx Hl IH]; [constructor|].
  change (Forall P (insertByName x (sortByName l))).
  now apply Forall_insertByName.
Qed.

Lemma leb_total (a b : string) :
  String.leb a b = false -> String.leb b a = true.
Proof.
  unfold String.leb. rewrite (String.compare_antisym a b).
  destruct (String.compare b a); simpl; congruence.
Qed.

Lemma ascending_insertByName {A : Type} (x : string * A)
  (l : list (string * A)) :
  ascending (map fst l) = true ->
  ascending (map fst (insertByName x l)) = true.
Proof.
  induction l as [|y l IH]; [reflexivity|]. intros Hl.
  simpl insertByName. destruct (String.leb (fst x) (fst y)) eqn:Hxy.
  - simpl. now rewrite Hxy.
  - apply leb_total in Hxy.
    assert (ascending (map fst l) = true) as Hl'.
    { destruct l as [|z l]; [reflexivity|]. simpl in Hl.
      now apply andb_prop in Hl as [_ Hl]. }
    specialize (IH Hl').
    destruct l as [|z l].
    + simpl. now rewrite Hxy.
    + simpl in Hl. apply andb_prop in Hl as [Hyz _].
      simpl insertByName in *.
      destruct (String.leb (fst x) (fst z)) eqn:Hxz.
      * simpl map in *. simpl ascending in *.
        rewrite Hxy. simpl. exact IH.
      * simpl map in *. change (ascending (fst y :: fst z :: map fst (insertByName x l)))
          with (String.leb (fst y) (fst z) && ascending (fst z :: map fst (insertByName x l))).
        rewrite Hyz. exact IH.
Qed.

(** The names come out of [sortByName] in ascending order. *)
Lemma sortByName_ascending {A : Type} (l : list (string * A)) :
  ascending (map fst (sortByName l)) = true.
Proof.
  induction l as [|x l IH]; [reflexivity|].
  change (ascending (map fst (insertByName x (sortByName l))) = true).
  now apply ascending_insertByName.
Qed.

Lemma members_dir (mode : Z) (entries : list (string * Tree)) :
  members (TDir mode entries)
  = List.concat (map withMembers (sortByName entries)).
Proof.
  change (members (TDir mode entries))
    with (List.concat
            (map snd (sortByName
                        (map (fun e => (fst e, withMembers e)) entries)))).
  rewrite (sortByName_map withMembers), map_map. reflexivity.
Qed.

(** Names joined by slashes are not the path [.]. *)
Lemma concat_names_not_dot (names : list string) :
  names <> [] -> Forall realElem names -> String.concat "/" names <> ".".
Proof.
  intros Hne Hall. destruct names as [|e rest]; [contradiction|].
  inversion Hall as [|? ? (He & Hd & _) _]; subst.
  destruct rest as [|e' rest]; [exact Hd|].
  rewrite concat_cons.
  destruct e as [|c e]; [contradiction|].
  rewrite append_cons. intros [= -> Habs].
  destruct e; discriminate.
Qed.

Section Listing.
Context `{Packing}.
Variables (ctx : Context) (src : string).
Hypothesis Hsrc : src <> "".
Hypothesis Hrel : Rel_below src.
Hypothesis Hcreate : forall rs h, zip_CreateHeader rs h = None.

Lemma below_root : below src src [].
Proof. repeat split; [exact Hsrc | constructor]. Qed.

Lemma isRooted_app (a b : string) :
  a <> "" -> isRooted (a +:+ b) = isRooted a.
Proof. destruct a; [contradiction | reflexivity]. Qed.

Lemma below_child (path : string) (names : list string) (n : string) :
  below src path names -> realElem n ->
  below src (Join [path; n]) (names ++ [n]).
Proof.
  intros (Hne & Hr & He & Hall) Hn.
  assert (Join [path; n] = Clean (path +:+ String Separator n)) as ->.
  { unfold Join. destruct (String.eqb_spec path ""); [contradiction|].
    reflexivity. }
  destruct (Clean_replay (path +:+ String Separator n)) as (Hc & Hcr & Hce).
  rewrite (isRooted_app path _ Hne), Hr in Hcr, Hce.
  repeat split; try assumption.
  - rewrite Hce, elements_app_sep.
    rewrite (elements_of_sepfree n) by apply Hn.
    unfold cleanElems. rewrite fold_left_app. simpl.
    fold (cleanElems (isRooted src) (elements path)). rewrite He.
    rewrite cleanStep_real by assumption.
    now rewrite rev_app_distr.
  - apply Forall_app. split; [assumption | now constructor].
Qed.

Lemma below_Clean (path : string) (names : list string) :
  below src path names -> names <> [] ->
  Clean path
  = Clean (src +:+ String Separator (String.concat "/" names)).
Proof.
  intros (Hne & Hr & He & Hall) Hnames.
  rewrite 2 Clean_unfold, Hr, He.
  rewrite (isRooted_app src _ Hsrc), elements_app_sep.
  rewrite elements_concat; [|assumption|].
  - unfold cleanElems at 2. rewrite fold_left_app.
    now rewrite fold_cleanStep_reals.
  - eapply Forall_impl; [exact Hall|]. intros ? Hx. apply Hx.
Qed.

Lemma below_Rel (path : string) (names : list string) :
  below src path names -> names <> [] ->
  Forall (fun n => entryName n = true) names ->
  filepath_Rel src path = Ok (String.concat "/" names).
Proof.
  intros Hb Hnames Hall. rewrite <- (Hrel names Hnames Hall).
  unfold filepath_Rel. now rewrite (below_Clean path names Hb Hnames).
Qed.

Lemma below_Rel_root (path : string) :
  below src path [] -> filepath_Rel src path = Ok ".".
Proof.
  intros (Hne & Hr & He & _). unfold filepath_Rel.
  assert (Clean path = Clean src) as ->.
  { rewrite 2 Clean_unfold, Hr, He. reflexivity. }
  now rewrite String.eqb_refl.
Qed.

Lemma ownEntry_cons (names : list string) (node : Tree) :
  names <> [] -> ownEntry names node = [entryOf (names, node)].
Proof. destruct names; [contradiction | reflexivity]. Qed.

Lemma walk_dir (path : string) (mode : Z) (entries : list (string * Tree))
  (st : Packer) :
  walk ctx src path (TDir mode entries) st
  = match compressVisit ctx src path (inl (TDir mode entries)) st with
    | (st1, Some err1) => (st1, Some err1)
    | (st1, None) =>
        walkNames path
          (map (fun e => (fst e, fun p s => walk ctx src p (snd e) s))
               (sortByName entries)) st1
    end.
Proof.
  rewrite <- (sortByName_map (fun e p s => walk ctx src p (snd e) s)).
  reflexivity.
Qed.

Lemma under_withMembers (names : list string) (e : string * Tree) :
  map entryOf (map (under names) (withMembers e))
  = entryOf (names ++ [fst e], snd e)
    :: map entryOf (map (under (names ++ [fst e])) (members (snd e))).
Proof.
  unfold withMembers. simpl. f_equal.
  rewrite !map_map. apply map_ext. intros m. unfold under. simpl.
  now rewrite <- app_assoc.
Qed.

Lemma compressVisit_polled (path : string) (names : list string)
  (info : Tree) (st : Packer) :
  below src path names ->
  Forall (fun n => entryName n = true) names ->
  match info with
  | TFile _ (Ok file) => s_fault file = None
  | TDir _ _ => True
  | _ => False
  end ->
  quiet ctx (pk_polls st) (ownPolls names info) ->
  compressVisit ctx src path (inl info) st
  = ({| pk_polls := pk_polls st + ownPolls names info;
        pk_zip := pk_zip st ++ ownEntry names info |}, None).
Proof.
  intros Hb Hall Hinfo Hq. unfold compressVisit.
  assert (ctx (pk_polls st) = None) as ->
    by (apply Hq; destruct names; simpl; [lia | destruct (treeIsDir info); lia]).
  destruct names as [|x names].
  - rewrite (below_Rel_root path Hb). simpl.
    unfold polled. rewrite app_nil_r. do 2 f_equal. lia.
  - assert (x :: names <> []) as Hne by discriminate.
    rewrite (below_Rel path (x :: names) Hb Hne Hall).
    destruct (String.eqb_spec (String.concat "/" (x :: names)) ".") as [Hd|_].
    { exfalso. revert Hd. apply concat_names_not_dot; [assumption|].
      apply Hb. }
    rewrite Hcreate.
    destruct info as [mode [file|err]|mode entries|mode err];
      try contradiction.
    + assert (ctx (pk_polls (polled st)) = None) as ->
        by (apply Hq; simpl; lia).
      rewrite Hinfo. unfold written, polled. simpl. do 2 f_equal. lia.
    + unfold written, polled. simpl. do 2 f_equal. lia.
Qed.

(** The visit of a node at whose polls the context is done. *)
Lemma compressVisit_done (path : string) (names : list string)
  (info : Tree) (st : Packer) (i : nat) (cerr : error) :
  below src path names ->
  Forall (fun n => entryName n = true) names ->
  readable info = true ->
  doneAt ctx (pk_polls st) i cerr ->
  i < pk_polls st + ownPolls names info ->
  exists st', compressVisit ctx src path (inl info) st = (st', Some cerr).
Proof.
  intros Hb Hall Hread (Hle & Hdone & Hbefore) Hi. unfold compressVisit.
  destruct (Nat.eq_dec i (pk_polls st)) as [->|Hne].
  { rewrite Hdone. eauto. }
  rewrite Hbefore by lia.
  destruct names as [|x names]; [simpl in Hi; lia|].
  assert (x :: names <> []) as Hnames by discriminate.
  rewrite (below_Rel path (x :: names) Hb Hnames Hall).
  destruct (String.eqb_spec (String.concat "/" (x :: names)) ".") as [Hd|_].
  { exfalso. revert Hd. apply concat_names_not_dot; [assumption|].
    apply Hb. }
  rewrite Hcreate.
  destruct info as [mode [file|err]|mode entries|mode err];
    try discriminate; simpl in Hi; [|lia].
  assert (i = pk_polls (polled st)) as <- by (simpl; lia).
  rewrite Hdone. eauto.
Qed.

Lemma memberPolls_withMembers (e : string * Tree) :
  list_sum (map memberPolls (withMembers e))
  = ownPolls [fst e] (snd e)
    + list_sum (map memberPolls (members (snd e))).
Proof.
  unfold withMembers. simpl. f_equal.
  rewrite map_map. reflexivity.
Qed.

Lemma ownPolls_snoc (names : list string) (n : string) (node : Tree) :
  ownPolls (names ++ [n]) node = ownPolls [n] node.
Proof. now destruct names. Qed.

Lemma list_sum_concat (ls : list (list nat)) :
  list_sum (List.concat ls) = list_sum (map list_sum ls).
Proof.
  induction ls as [|l ls IH]; [reflexivity|].
  simpl. now rewrite list_sum_app, IH.
Qed.

Lemma childPolls_cons (e : string * Tree) (l : list (string * Tree)) :
  childPolls (e :: l)
  = ownPolls [fst e] (snd e)
    + list_sum (map memberPolls (members (snd e)))
    + childPolls l.
Proof.
  unfold childPolls.
  change (List.concat (map withMembers (e :: l)))
    with (withMembers e ++ List.concat (map withMembers l)).
  now rewrite map_app, list_sum_app, memberPolls_withMembers.
Qed.

Lemma quiet_part (from n from' n' : nat) :
  quiet ctx from n -> from <= from' -> from' + n' <= from + n ->
  quiet ctx from' n'.
Proof. intros Hq H1 H2 j Hj. apply Hq. lia. Qed.

Lemma doneAt_later (from from' i : nat) (cerr : error) :
  doneAt ctx from i cerr -> from <= from' -> from' <= i ->
  doneAt ctx from' i cerr.
Proof.
  intros (Hle & Hdone & Hbefore) H1 H2. repeat split; try assumption.
  intros j Hj. apply Hbefore. lia.
Qed.

Lemma doneAt_quiet (from i : nat) (cerr : error) (n : nat) :
  doneAt ctx from i cerr -> from + n <= i -> quiet ctx from n.
Proof. intros (_ & _ & Hbefore) Hn j Hj. apply Hbefore. lia. Qed.

(** The loop over the entries of a directory, by the polls. *)
Lemma walkNames_polled (path : string) (names : list string)
  (l : list (string * Tree)) :
  below src path names ->
  Forall (fun n => entryName n = true) names ->
  Forall (fun e => entryName (fst e) = true
                   /\ polledWalk ctx src (snd e)) l ->
  forall st,
    (quiet ctx (pk_polls st) (childPolls l) ->
     walkNames path
       (map (fun e => (fst e, fun p s => walk ctx src p (snd e) s)) l) st
     = ({| pk_polls := pk_polls st + childPolls l;
           pk_zip := pk_zip st
                     ++ map entryOf
                          (map (under names)
                               (List.concat (map withMembers l))) |},
        None))
    /\ (forall i cerr,
          doneAt ctx (pk_polls st) i cerr ->
          i < pk_polls st + childPolls l ->
          exists st',
            walkNames path
              (map (fun e => (fst e, fun p s => walk ctx src p (snd e) s)) l)
              st
            = (st', Some cerr)).
Proof.
  intros Hb Hall HQ.
  induction HQ as [|e l (Hn & He) _ IH]; intros st.
  - split.
    + intros _. simpl. rewrite app_nil_r, Nat.add_0_r. now destruct st.
    + intros i cerr (Hle & _) Hi. unfold childPolls in Hi. simpl in Hi. lia.
  - assert (below src (Join [path; fst e]) (names ++ [fst e])) as Hb'
      by (apply below_child; [assumption | now apply entryName_real]).
    assert (Forall (fun n => entryName n = true) (names ++ [fst e])) as Hall'
      by (apply Forall_app; split; [assumption | now constructor]).
    destruct (He (Join [path; fst e]) (names ++ [fst e]) st Hb' Hall')
      as [HeA HeB].
    rewrite ownPolls_snoc in HeA, HeB.
    set (pe := ownPolls [fst e] (snd e)
               + list_sum (map memberPolls (members (snd e)))) in *.
    assert (childPolls (e :: l) = pe + childPolls l) as Hsum
      by apply childPolls_cons.
    set (st2 := {| pk_polls := pk_polls st + pe;
                   pk_zip := pk_zip st
                             ++ ownEntry (names ++ [fst e]) (snd e)
                             ++ map entryOf
                                  (map (under (names ++ [fst e]))
                                       (members (snd e))) |}) in *.
    destruct (IH st2) as [IHA IHB].
    simpl map at 1. simpl walkNames. split.
    + intros Hq. rewrite HeA by (eapply quiet_part; [exact Hq | lia | lia]).
      rewrite IHA by (eapply quiet_part; [exact Hq | simpl; lia | simpl; lia]).
      unfold st2. cbn [pk_polls pk_zip]. f_equal. f_equal; [lia|].
      change (List.concat (map withMembers (e :: l)))
        with (withMembers e ++ List.concat (map withMembers l)).
      rewrite map_app, map_app, under_withMembers.
      rewrite ownEntry_cons by (now destruct names).
      rewrite <- !app_assoc. reflexivity.
    + intros i cerr Hdone Hi.
      destruct (Nat.lt_ge_cases i (pk_polls st + pe)) as [Hlt|Hge].
      * destruct (HeB i cerr Hdone Hlt) as [st' ->]. eauto.
      * pose proof (doneAt_quiet _ i cerr pe Hdone Hge) as Hq.
        rewrite (HeA Hq).
        apply (IHB i cerr).
        -- eapply doneAt_later; [exact Hdone | simpl; lia | simpl; lia].
        -- simpl. lia.
Qed.

(** The walk of a tree that can be read, by the polls. *)
Lemma walk_polled (info : Tree) :
  readable info = true -> polledWalk ctx src info.
Proof.
  induction info as [mode open|mode entries IH|mode err]
    using Tree_induction; intros Hread path names st Hb Hall;
    [| |discriminate].
  - destruct open as [file|err]; [|discriminate].
    pose proof Hread as Hfault. simpl in Hfault.
    destruct (s_fault file) eqn:Hf; [discriminate|]. clear Hfault.
    cbv zeta. simpl members. simpl map. simpl list_sum.
    rewrite Nat.add_0_r. split.
    + intros Hq. simpl walk.
      rewrite (compressVisit_polled path names (TFile mode (Ok file)) st
                 Hb Hall Hf Hq).
      now rewrite app_nil_r.
    + intros i cerr Hdone Hi. simpl walk.
      now apply (compressVisit_done path names (TFile mode (Ok file))
                   st i cerr).
  - cbv zeta. rewrite walk_dir, members_dir.
    fold (childPolls (sortByName entries)).
    assert (Forall (fun e => entryName (fst e) = true
                             /\ polledWalk ctx src (snd e))
                   (sortByName entries)) as HQ.
    { apply Forall_sortByName. simpl in Hread.
      rewrite forallb_forall in Hread.
      rewrite List.Forall_forall in IH |- *.
      intros e He. specialize (Hread e He).
      apply andb_prop in Hread as [Hn Hr]. split; [assumption|].
      now apply IH. }
    set (own := ownPolls names (TDir mode entries)).
    set (st1 := {| pk_polls := pk_polls st + own;
                   pk_zip := pk_zip st
                             ++ ownEntry names (TDir mode entries) |}).
    destruct (walkNames_polled path names (sortByName entries) Hb Hall HQ st1)
      as [HA HB].
    split.
    + intros Hq.
      rewrite (compressVisit_polled path names (TDir mode entries) st
                 Hb Hall I)
        by (eapply quiet_part; [exact Hq | lia | fold own; lia]).
      fold own. fold st1.
      rewrite HA by (eapply quiet_part; [exact Hq | simpl; lia | simpl; lia]).
      unfold st1. cbn [pk_polls pk_zip].
      f_equal. f_equal; [lia | now rewrite <- app_assoc].
    + intros i cerr Hdone Hi.
      destruct (Nat.lt_ge_cases i (pk_polls st + own)) as [Hlt|Hge].
      * destruct (compressVisit_done path names (TDir mode entries) st i cerr
                    Hb Hall Hread Hdone Hlt) as [st' ->]. eauto.
      * pose proof (doneAt_quiet _ i cerr own Hdone Hge) as Hq.
        rewrite (compressVisit_polled path names (TDir mode entries) st
                   Hb Hall I Hq).
        fold own. fold st1. apply (HB i cerr).
        -- eapply doneAt_later; [exact Hdone | simpl; lia | simpl; lia].
        -- simpl. lia.
Qed.

End Listing.

(** The walk from the source: the entries of the members of the tree,
    in [polls tree] polls of the context. *)
Lemma under_nil (l : list (list string * Tree)) : map (under []) l = l.
Proof.
  rewrite <- (List.map_id l) at 2. apply List.map_ext. now intros [ns nd].
Qed.

Lemma walk_source `{Packing} (ctx : Context) (src : string) (tree : Tree) :
  src <> "" -> Rel_below src ->
  (forall rs h, zip_CreateHeader rs h = None) ->
  readable tree = true ->
  (quiet ctx 0 (polls tree) ->
   walk ctx src src tree {| pk_polls := 0; pk_zip := [] |}
   = ({| pk_polls := polls tree; pk_zip := archived tree |}, None))
  /\ (forall i cerr,
        doneAt ctx 0 i cerr -> i < polls tree ->
        exists st',
          walk ctx src src tree {| pk_polls := 0; pk_zip := [] |}
          = (st', Some cerr)).
Proof.
  intros Hsrc Hrel Hhdr Hread.
  destruct (walk_polled ctx src Hsrc Hrel Hhdr tree Hread src []
              {| pk_polls := 0; pk_zip := [] |} (below_root src Hsrc)
              (List.Forall_nil _)) as [HA HB].
  cbv zeta in HA, HB. rewrite under_nil in HA. split.
  - intros Hq. now rewrite HA.
  - intros i cerr Hdone Hi. now apply (HB i cerr).
Qed.

(** X16. A tree that can be read to its end is archived whole.  The
    context is polled once for the source and for every directory below
    it, and twice for every file (before its entry is created and before
    its content is copied); when it is not done at any of these polls,
    [filepath.Rel] gives for a path below the source the names that lead
    to it, and the writer takes every header, [CompressToZip] returns no
    error and the archive holds one entry for every file or directory
    below the source, none for the source itself, the entries of a
    directory in the order of their names and each directory before what
    it holds; an entry is named by the names from the source joined by
    slashes, a directory with a slash at the end and nothing stored, a
    file deflated with its whole content. *)
Theorem CompressToZip_archives_tree `{Packing}
  (ctx : Context) (fs fs1 : gmap string inode) (src dest : string)
  (tree : Tree) :
  src <> "" ->
  quiet ctx 0 (polls tree) ->
  Rel_below src ->
  (forall rs h, zip_CreateHeader rs h = None) ->
  os_Create fs dest = (fs1, None) ->
  lstatTree fs1 src = Ok tree ->
  readable tree = true ->
  CompressToZip ctx fs src dest
  = (writeFile fs1 dest (zip_bytes (archived tree)), None).
Proof.
  intros Hsrc Hctx Hrel Hhdr Hcreate Hfound Hread.
  unfold CompressToZip, Walk. rewrite Hcreate, Hfound.
  destruct (walk_source ctx src tree Hsrc Hrel Hhdr Hread) as [Hwhole _].
  now rewrite (Hwhole Hctx).
Qed.

(** X18. A context that is done at one of the polls of the walk stops
    [CompressToZip]: for a tree that can be read, when the context is
    done for the first time at a poll before the last one of the walk
    (one poll for the source and for every directory, two for every
    file), [CompressToZip] returns the error of the context as it is. *)
Theorem CompressToZip_sees_cancellation `{Packing}
  (ctx : Context) (fs fs1 : gmap string inode) (src dest : string)
  (tree : Tree) (i : nat) (cerr : error) :
  src <> "" ->
  Rel_below src ->
  (forall rs h, zip_CreateHeader rs h = None) ->
  os_Create fs dest = (fs1, None) ->
  lstatTree fs1 src = Ok tree ->
  readable tree = true ->
  doneAt ctx 0 i cerr ->
  i < polls tree ->
  snd (CompressToZip ctx fs src dest) = Some cerr.
Proof.
  intros Hsrc Hrel Hhdr Hcreate Hfound Hread Hdone Hi.
  unfold CompressToZip, Walk. rewrite Hcreate, Hfound.
  destruct (walk_source ctx src tree Hsrc Hrel Hhdr Hread) as [_ Hstop].
  now destruct (Hstop i cerr Hdone Hi) as [st' ->].
Qed.

(** ** The sample data *)

Lemma dropPrefix_app (a b : string) : dropPrefix a (a +:+ b) = Some b.
Proof.
  induction a as [|c a IH]; [reflexivity|].
  rewrite append_cons. simpl. now rewrite Ascii.eqb_refl.
Qed.

Lemma append_longer (a : string) (c : ascii) (b : string) :
  a +:+ String c b <> a.
Proof.
  intros Heq. apply (f_equal String.length) in Heq.
  rewrite length_append in Heq. simpl in Heq. lia.
Qed.

(** The comparison of [fixedPacking] knows the paths below [docs]. *)
Lemma fixedPacking_Rel_below (found : result Tree) :
  @Rel_below (fixedPacking found) "docs".
Proof.
  intros names Hne Hall.
  assert (Forall realElem names) as Hreal.
  { eapply Forall_impl; [exact Hall|]. intros n. apply entryName_real. }
  assert (Clean ("docs" +:+ String Separator (String.concat "/" names))
          = "docs" +:+ String Separator (String.concat "/" names)) as Hclean.
  { change "docs" with (Clean "docs") at 1. rewrite Clean_app_sep.
    rewrite elements_concat; [|assumption|].
    - rewrite fold_cleanStep_reals by assumption.
      rewrite rev_app_distr, rev_involutive.
      change (rev (cleanElems (isRooted "docs") (elements "docs")))
        with ["docs"].
      destruct names as [|x names]; [contradiction | reflexivity].
    - eapply Forall_impl; [exact Hreal|]. intros ? Hx. apply Hx. }
  unfold filepath_Rel. rewrite Hclean.
  change (Clean "docs") with "docs".
  destruct (String.eqb_spec
              ("docs" +:+ String Separator (String.concat "/" names))
              "docs") as [Heq|_].
  { now apply append_longer in Heq. }
  unfold rel_lexical, fixedPacking.
  change ("docs" +:+ String Separator (String.concat "/" names))
    with (("docs" +:+ "/") +:+ String.concat "/" names).
  now rewrite dropPrefix_app.
Qed.

(** The directory [docs] is as it was after it has been archived. *)
Lemma CompressToZip_touches_only_dest_witness :
  (@CompressToZip (fixedPacking (Ok docsTree)) Background cwdFs
                  "docs" "out.zip").1 !! "docs"
  = cwdFs !! "docs".
Proof.
  apply (@CompressToZip_touches_only_dest (fixedPacking (Ok docsTree))
           Background cwdFs _ "docs" "out.zip"
           (@CompressToZip (fixedPacking (Ok docsTree)) Background cwdFs
                           "docs" "out.zip").2 "docs").
  - apply surjective_pairing.
  - vm_compute. discriminate.
Defined.

Lemma CompressToZip_missing_source_witness :
  @CompressToZip (fixedPacking (Err (PathError "lstat" "nowhere" ENOENT)))
                 Background cwdFs "nowhere" "out.zip"
  = (<["out.zip" := Regular 420 []]> cwdFs,
     Some (Wrapf "walking path: %w" []
                 (PathError "lstat" "nowhere" ENOENT))).
Proof.
  destruct (@CompressToZip_missing_source
              (fixedPacking (Err (PathError "lstat" "nowhere" ENOENT)))
              Background cwdFs (<["out.zip" := Regular 420 []]> cwdFs)
              "nowhere" "out.zip" (PathError "lstat" "nowhere" ENOENT))
    as [Hrun Hleft].
  - vm_compute. reflexivity.
  - reflexivity.
  - left. reflexivity.
  - rewrite Hrun, (Hleft 420%Z helloBytes) by reflexivity.
    reflexivity.
Defined.

Lemma CompressToZip_of_a_file_witness :
  @CompressToZip
    (fixedPacking
       (Ok (TFile 420 (Ok {| s_data := helloBytes; s_fault := None |}))))
    Background cwdFs "hello.txt" "out.zip"
  = (<["out.zip" := Regular 420 []]> cwdFs, None).
Proof.
  rewrite (@CompressToZip_of_a_file
             (fixedPacking
                (Ok (TFile 420
                       (Ok {| s_data := helloBytes; s_fault := None |}))))
             Background cwdFs (<["out.zip" := Regular 420 []]> cwdFs)
             "hello.txt" "out.zip" 420
             (Ok {| s_data := helloBytes; s_fault := None |})).
  - vm_compute. reflexivity.
  - vm_compute. reflexivity.
  - reflexivity.
  - reflexivity.
Defined.

Lemma CompressToZip_cancelled_witness :
  @CompressToZip (fixedPacking (Ok docsTree)) (cancelAfter 0) cwdFs
                 "docs" "out.zip"
  = (<["out.zip" := Regular 420 []]> cwdFs, Some context_Canceled).
Proof.
  rewrite (@CompressToZip_cancelled (fixedPacking (Ok docsTree))
             (cancelAfter 0) cwdFs (<["out.zip" := Regular 420 []]> cwdFs)
             "docs" "out.zip" context_Canceled).
  - vm_compute. reflexivity.
  - vm_compute. reflexivity.
  - reflexivity.
Defined.

(** The directory [docs] archived: the file of [docs], the directory
    [sub], the file of [sub]; the context is done after the six polls
    of the walk. *)
Lemma CompressToZip_archives_tree_witness :
  @CompressToZip (fixedPacking (Ok docsTree)) (cancelAfter 6) cwdFs
                 "docs" "out.zip"
  = (<["out.zip" := Regular 420 (helloBytes ++ helloBytes)]> cwdFs, None)
  /\ map (fun r => zh_Name (zr_header r)) (archived docsTree)
     = ["hello.txt"; "sub/"; "sub/again.txt"].
Proof.
  split; [|reflexivity].
  rewrite (@CompressToZip_archives_tree (fixedPacking (Ok docsTree))
             (cancelAfter 6) cwdFs (<["out.zip" := Regular 420 []]> cwdFs)
             "docs" "out.zip" docsTree).
  - vm_compute. reflexivity.
  - discriminate.
  - intros j Hj. unfold cancelAfter.
    destruct (Nat.ltb_spec j 6) as [_|Hge]; [reflexivity|].
    change (polls docsTree) with 6 in Hj. lia.
  - apply fixedPacking_Rel_below.
  - reflexivity.
  - vm_compute. reflexivity.
  - reflexivity.
  - reflexivity.
Defined.

(** The context is done at the second poll of the file of [docs]. *)
Lemma CompressToZip_sees_cancellation_witness :
  snd (@CompressToZip (fixedPacking (Ok docsTree)) (cancelAfter 2) cwdFs
                      "docs" "out.zip")
  = Some context_Canceled.
Proof.
  apply (@CompressToZip_sees_cancellation (fixedPacking (Ok docsTree))
           (cancelAfter 2) cwdFs (<["out.zip" := Regular 420 []]> cwdFs)
           "docs" "out.zip" docsTree 2 context_Canceled).
  - discriminate.
  - apply fixedPacking_Rel_below.
  - reflexivity.
  - vm_compute. reflexivity.
  - reflexivity.
  - reflexivity.
  - split; [lia | split; [reflexivity|]].
    intros j Hj. unfold cancelAfter.
    destruct (Nat.ltb_spec j 2); [reflexivity | lia].
  - change (polls docsTree) with 6. lia.
Defined.

(* ===================================================================== *)
(** ** [CompressToZip] followed by [ExtractZip] *)
(* ===================================================================== *)

(** *** Paths below the destination *)

Lemma pathAt_snoc (root : string) (names : list string) (n : string) :
  pathAt root (names ++ [n]) = pathAt root names +:+ String Separator n.
Proof.
  destruct names as [|x names]; [reflexivity|].
  unfold pathAt. change ((x :: names) ++ [n]) with (x :: names ++ [n]).
  destruct (names ++ [n]) as [|y l] eqn:Hl; [now destruct names|].
  rewrite <- Hl. change (x :: names ++ [n]) with ((x :: names) ++ [n]).
  rewrite concat_app by discriminate. now rewrite append_assoc.
Qed.

Lemma properDir_stack (d : string) :
  properDir d -> rev (cleanElems (isRooted d) (elements d)) <> [].
Proof.
  intros (Hc & Hs & Hd) Hnil. rewrite Clean_unfold, Hnil in Hc.
  destruct (isRooted d); [now apply Hs | now apply Hd].
Qed.

Lemma Clean_child (p n : string) :
  properDir p -> realElem n ->
  Clean (p +:+ String Separator n) = p +:+ String Separator n.
Proof.
  intros Hp Hn. pose proof (properDir_stack p Hp) as Hne.
  destruct Hp as (Hc & _). rewrite <- Hc at 1. rewrite Clean_app_sep.
  rewrite (elements_of_sepfree n) by apply Hn. simpl.
  rewrite cleanStep_real by assumption. simpl.
  rewrite render_app by (assumption || discriminate).
  now rewrite <- Clean_unfold, Hc.
Qed.

Lemma properDir_child (p n : string) :
  properDir p -> realElem n -> properDir (p +:+ String Separator n).
Proof.
  intros Hp Hn. split; [now apply Clean_child|].
  destruct Hp as (Hc & _).
  assert (p <> "") as Hne by (rewrite <- Hc; apply Clean_nonempty).
  destruct p as [|c p]; [contradiction|].
  rewrite append_cons. split; intros [= _ Habs]; now destruct p.
Qed.

Lemma properDir_pathAt (root : string) (names : list string) :
  properDir root -> Forall realElem names -> properDir (pathAt root names).
Proof.
  intros Hroot. induction names as [|n names IH] using rev_ind;
    intros Hall; [exact Hroot|].
  apply Forall_app in Hall as [Hall Hn]. inversion Hn; subst.
  rewrite pathAt_snoc. apply properDir_child; [now apply IH | assumption].
Qed.

Lemma Dir_child (p n : string) :
  properDir p -> realElem n -> Dir (p +:+ String Separator n) = p.
Proof.
  intros (Hc & _) Hn. rewrite Dir_app by apply Hn.
  rewrite <- Hc at 1. rewrite Clean_trailing_sep. exact Hc.
Qed.

(** The names of the entries that [CompressToZip] writes pass the check
    of [safeJoin], with or without the slash of a directory. *)
Lemma safeJoin_names (root : string) (names : list string) (slash : bool) :
  properDir root -> names <> [] -> Forall realElem names ->
  safeJoin (root +:+ String Separator "")
           (if slash then String.concat "/" names +:+ "/"
            else String.concat "/" names)
  = (pathAt root names, None).
Proof.
  intros Hroot Hne Hall. pose proof (properDir_stack root Hroot) as Hstack.
  destruct Hroot as (Hc & _).
  assert (Forall (fun e => sepfree e = true) names) as Hsep.
  { eapply Forall_impl; [exact Hall|]. intros ? Hx. apply Hx. }
  assert (Clean (root +:+ String Separator "") = root) as Hcs.
  { rewrite <- Hc at 1. rewrite Clean_trailing_sep. exact Hc. }
  rewrite safeJoin_unfold. cbv zeta. rewrite !Hcs.
  assert (Join [root +:+ String Separator "";
                if slash then String.concat "/" names +:+ "/"
                else String.concat "/" names]
          = pathAt root names) as ->.
  { rewrite <- Hc at 1. rewrite safeJoin_filePath.
    assert (fold_left (cleanStep (isRooted root))
              (elements (if slash then String.concat "/" names +:+ "/"
                         else String.concat "/" names))
              (cleanElems (isRooted root) (elements root))
            = rev names ++ cleanElems (isRooted root) (elements root)) as ->.
    { destruct slash.
      - change (String.concat "/" names +:+ "/")
          with (String.concat "/" names +:+ String Separator "").
        rewrite elements_app_sep, fold_left_app.
        rewrite elements_concat by assumption.
        rewrite (fold_cleanStep_reals _ names) by assumption. reflexivity.
      - rewrite elements_concat by assumption.
        now rewrite fold_cleanStep_reals. }
    rewrite rev_app_distr, rev_involutive.
    rewrite render_app by assumption.
    rewrite <- Clean_unfold, Hc. now destruct names. }
  unfold HasPrefix, pathAt. destruct names as [|x names]; [contradiction|].
  replace (root +:+ String Separator (String.concat "/" (x :: names)))
    with ((root +:+ String Separator "") +:+ String.concat "/" (x :: names))
    by (now rewrite append_assoc).
  now rewrite prefix_app.
Qed.

(** *** The paths at and below an entry *)

Lemma append_inv_head (a x y : string) : a +:+ x = a +:+ y -> x = y.
Proof.
  induction a as [|c a IH]; [now rewrite !append_nil|].
  rewrite !append_cons. intros [= Heq]. now apply IH.
Qed.

Lemma underRoot_tail (q key : string) :
  underRoot q key ->
  exists rest, key = q +:+ rest
               /\ (rest = "" \/ exists x, rest = String Separator x).
Proof.
  intros [-> | Hpre].
  - exists "". split; [|now left].
    induction q as [|c q IH]; [reflexivity|].
    now rewrite append_cons, <- IH.
  - apply prefix_split in Hpre as [x ->]. exists (String Separator x).
    split; [now rewrite append_assoc | right; now exists x].
Qed.

Lemma sepfree_head_unique (n n' r r' : string) :
  sepfree n = true -> sepfree n' = true ->
  (r = "" \/ exists x, r = String Separator x) ->
  (r' = "" \/ exists x, r' = String Separator x) ->
  n +:+ r = n' +:+ r' -> n = n'.
Proof.
  revert n'. induction n as [|c n IH]; intros n' Hn Hn' Hr Hr' Heq.
  - rewrite append_nil in Heq. destruct n' as [|c' n']; [reflexivity|].
    rewrite append_cons in Heq. simpl in Hn'.
    apply andb_prop in Hn' as [Hc' _]. apply negb_true_iff in Hc'.
    destruct Hr as [-> | [x ->]]; [discriminate|].
    injection Heq as <- _. discriminate.
  - simpl in Hn. apply andb_prop in Hn as [Hc Hn].
    apply negb_true_iff in Hc.
    destruct n' as [|c' n'].
    + rewrite append_nil, append_cons in Heq.
      destruct Hr' as [-> | [x ->]]; [discriminate|].
      injection Heq as -> _. discriminate.
    + rewrite !append_cons in Heq. injection Heq as -> Heq.
      simpl in Hn'. apply andb_prop in Hn' as [_ Hn'].
      f_equal. now apply (IH n').
Qed.

(** The regions of two entries of a directory that differ in name have
    no path in common. *)
Lemma siblings_disjoint (p n n' key : string) :
  sepfree n = true -> sepfree n' = true -> n <> n' ->
  underRoot (p +:+ String Separator n) key ->
  underRoot (p +:+ String Separator n') key -> False.
Proof.
  intros Hn Hn' Hne H1 H2.
  apply underRoot_tail in H1 as (r & -> & Hr).
  apply underRoot_tail in H2 as (r' & Heq & Hr').
  rewrite !append_assoc in Heq. apply append_inv_head in Heq.
  change (String Separator n +:+ r) with (String Separator (n +:+ r)) in Heq.
  change (String Separator n' +:+ r') with (String Separator (n' +:+ r'))
    in Heq.
  injection Heq as Heq. apply Hne.
  exact (sepfree_head_unique n n' r r' Hn Hn' Hr Hr' Heq).
Qed.

(** The region of an entry lies in the region of its directory, and the
    directory itself is not in it. *)
Lemma underRoot_child (p n key : string) :
  underRoot (p +:+ String Separator n) key ->
  underRoot p key /\ key <> p.
Proof.
  intros Hu. apply underRoot_tail in Hu as (r & -> & _).
  rewrite append_assoc.
  change (String Separator n +:+ r) with (String Separator (n +:+ r)).
  split.
  - right. unfold HasPrefix.
    replace (p +:+ String Separator (n +:+ r))
      with ((p +:+ String Separator "") +:+ (n +:+ r))
      by (now rewrite append_assoc).
    apply prefix_app.
  - apply append_longer.
Qed.

(** *** The steps of the loop on the file system *)

Lemma properDir_nonempty (q : string) : properDir q -> q <> "".
Proof. intros (Hc & _). rewrite <- Hc. apply Clean_nonempty. Qed.

Lemma resolve_proper (fs : gmap string inode) (q : string) :
  properDir q -> resolve fs q = fs !! q.
Proof.
  intros Hq. unfold resolve.
  destruct (String.eqb_spec q "") as [He|_];
    [now apply properDir_nonempty in He|].
  destruct Hq as (-> & _). reflexivity.
Qed.

Lemma parentIsDir_child (fs : gmap string inode) (p n : string) (perm : Z) :
  properDir p -> realElem n -> fs !! p = Some (Directory perm) ->
  parentIsDir fs (p +:+ String Separator n) = None.
Proof.
  intros Hp Hn Hdir. unfold parentIsDir.
  rewrite Clean_child, Dir_child, resolve_proper, Hdir by assumption.
  reflexivity.
Qed.

Lemma IsDir_lor (mode : Z) : IsDir (Z.lor ModeDir mode) = true.
Proof.
  unfold IsDir. apply negb_true_iff. apply Z.eqb_neq. intros Hz.
  apply (f_equal (fun z => Z.testbit z 31)) in Hz.
  rewrite Z.land_spec, Z.lor_spec in Hz. discriminate.
Qed.

Lemma CreateDir_spec_new (fs : gmap string inode) (p n : string) (perm : Z) :
  properDir p -> realElem n ->
  fs !! p = Some (Directory perm) ->
  fs !! (p +:+ String Separator n) = None ->
  CreateDir_spec fs (p +:+ String Separator n)
  = (<[p +:+ String Separator n := Directory 488]> fs, None).
Proof.
  intros Hp Hn Hdir Hfree.
  pose proof (properDir_child p n Hp Hn) as Hq.
  unfold CreateDir_spec, os_Stat, os_Mkdir.
  rewrite resolve_proper, Hfree by assumption.
  rewrite (parentIsDir_child fs p n perm) by assumption.
  destruct (String.eqb_spec (p +:+ String Separator n) "") as [He|_];
    [now apply properDir_nonempty in He|].
  simpl. destruct Hq as (-> & _). reflexivity.
Qed.

Lemma CreateDir_spec_there (fs : gmap string inode) (p : string) (nd : inode) :
  properDir p -> fs !! p = Some nd -> CreateDir_spec fs p = (fs, None).
Proof.
  intros Hp Hnd. unfold CreateDir_spec, os_Stat.
  now rewrite resolve_proper, Hnd.
Qed.

Lemma os_Create_new (fs : gmap string inode) (p n : string) (perm : Z) :
  properDir p -> realElem n ->
  fs !! p = Some (Directory perm) ->
  fs !! (p +:+ String Separator n) = None ->
  os_Create fs (p +:+ String Separator n)
  = (<[p +:+ String Separator n := Regular 438 []]> fs, None).
Proof.
  intros Hp Hn Hdir Hfree.
  pose proof (properDir_child p n Hp Hn) as Hq.
  unfold os_Create, os_OpenFile.
  rewrite resolve_proper, Hfree by assumption.
  rewrite (parentIsDir_child fs p n perm) by assumption.
  destruct (String.eqb_spec (p +:+ String Separator n) "") as [He|_];
    [now apply properDir_nonempty in He|].
  destruct Hq as (-> & _). reflexivity.
Qed.

Lemma writeFile_new (fs : gmap string inode) (q : string) (perm : Z)
  (data : list byte) :
  properDir q ->
  writeFile (<[q := Regular perm []]> fs) q data
  = <[q := Regular perm data]> fs.
Proof.
  intros Hq. unfold writeFile.
  rewrite resolve_proper, lookup_insert_eq by assumption.
  destruct Hq as (-> & _). apply insert_insert_eq.
Qed.

Section RoundTrip.
Context `{Externals}.
Hypothesis HCreateDir : forall fs path, CreateDir fs path = CreateDir_spec fs path.
Variable root : string.
Hypothesis Hroot : properDir root.

(** One turn of the loop on the entry of a directory. *)
Lemma ExtractZip_loop_dir (i : nat) (rest : list ArchiveFile)
  (fs : gmap string inode) (names : list string) (n : string)
  (node : Tree) (perm : Z) :
  treeIsDir node = true ->
  Forall realElem names -> realElem n ->
  fs !! pathAt root names = Some (Directory perm) ->
  fs !! pathAt root (names ++ [n]) = None ->
  ExtractZip_loop Background i (root +:+ String Separator "")
    (asFile (entryOf (names ++ [n], node)) :: rest) fs
  = ExtractZip_loop Background (S i) (root +:+ String Separator "") rest
      (<[pathAt root (names ++ [n]) := Directory 488]> fs).
Proof.
  intros Hd Hall Hn Hdir Hfree.
  assert (Forall realElem (names ++ [n])) as Hall'
    by (apply Forall_app; split; [assumption | now constructor]).
  assert (names ++ [n] <> []) as Hne by (now destruct names).
  pose proof (properDir_pathAt root names Hroot Hall) as Hp.
  pose proof (safeJoin_names root (names ++ [n]) true Hroot Hne Hall')
    as Hsj.
  rewrite pathAt_snoc in Hfree, Hsj |- *.
  destruct node as [m o|m es|m err]; [discriminate| |];
    cbn [ExtractZip_loop asFile entryOf f_Name f_Mode f_Open zr_header
         zr_data zh_Name zh_Mode fst snd];
    rewrite Hsj, IsDir_lor, HCreateDir;
    now rewrite (CreateDir_spec_new fs _ n perm).
Qed.

(** One turn of the loop on the entry of a file. *)
Lemma ExtractZip_loop_file (i : nat) (rest : list ArchiveFile)
  (fs : gmap string inode) (names : list string) (n : string)
  (mode : Z) (open : result Stream) (perm : Z) :
  IsDir mode = false ->
  Forall realElem names -> realElem n ->
  fs !! pathAt root names = Some (Directory perm) ->
  fs !! pathAt root (names ++ [n]) = None ->
  ExtractZip_loop Background i (root +:+ String Separator "")
    (asFile (entryOf (names ++ [n], TFile mode open)) :: rest) fs
  = ExtractZip_loop Background (S i) (root +:+ String Separator "") rest
      (<[pathAt root (names ++ [n]) := extractedAs (TFile mode open)]> fs).
Proof.
  intros Hd Hall Hn Hdir Hfree.
  assert (Forall realElem (names ++ [n])) as Hall'
    by (apply Forall_app; split; [assumption | now constructor]).
  assert (names ++ [n] <> []) as Hne by (now destruct names).
  pose proof (properDir_pathAt root names Hroot Hall) as Hp.
  pose proof (properDir_pathAt root (names ++ [n]) Hroot Hall') as Hq.
  pose proof (safeJoin_names root (names ++ [n]) false Hroot Hne Hall')
    as Hsj.
  rewrite pathAt_snoc in Hfree, Hq, Hsj |- *.
  cbn [ExtractZip_loop asFile entryOf f_Name f_Mode f_Open zr_header
       zr_data zh_Name zh_Mode fst snd].
  rewrite Hsj, Hd, HCreateDir.
  rewrite Dir_child by assumption.
  rewrite (CreateDir_spec_there fs _ _ Hp Hdir).
  rewrite (os_Create_new fs _ n perm) by assumption.
  unfold io_Copy. rewrite LimitReader_fault by (now right).
  rewrite LimitReader_data, writeFile_new by assumption.
  now destruct open.
Qed.

Lemma underRoot_self (q : string) : underRoot q q.
Proof. now left. Qed.

Lemma prefix_sep (a b : string) :
  String.prefix (a +:+ String Separator "") (a +:+ String Separator b) = true.
Proof.
  replace (a +:+ String Separator b) with ((a +:+ String Separator "") +:+ b)
    by (now rewrite append_assoc).
  apply prefix_app.
Qed.

Lemma underRoot_pathAt (d : string) (names more : list string) :
  underRoot (pathAt d names) (pathAt d (names ++ more)).
Proof.
  destruct more as [|m more]; [rewrite app_nil_r; now left|].
  right. unfold HasPrefix.
  destruct names as [|x names]; [apply prefix_sep|].
  unfold pathAt.
  destruct ((x :: names) ++ m :: more) as [|y l] eqn:Hl; [discriminate|].
  rewrite <- Hl, concat_app by discriminate.
  replace (d +:+ String Separator
             (String.concat "/" (x :: names)
              +:+ String Separator (String.concat "/" (m :: more))))
    with ((d +:+ String Separator (String.concat "/" (x :: names)))
          +:+ String Separator (String.concat "/" (m :: more)))
    by (now rewrite append_assoc).
  apply prefix_sep.
Qed.

Lemma entriesOf_withMembers (names : list string)
  (l : list (string * Tree)) :
  map asFile
    (map entryOf (map (under names) (List.concat (map withMembers l))))
  = List.concat (map (fun e => entriesOf (names ++ [fst e]) (snd e)) l).
Proof.
  induction l as [|e l IH]; [reflexivity|].
  change (List.concat (map withMembers (e :: l)))
    with (withMembers e ++ List.concat (map withMembers l)).
  rewrite !map_app, IH, under_withMembers. reflexivity.
Qed.

(** The entries of a directory, one after the other. *)
Lemma extract_children (names : list string) :
  Forall realElem names ->
  forall l : list (string * Tree),
    List.NoDup (map fst l) ->
    Forall (fun e => realElem (fst e) /\ extractsTo root (snd e)) l ->
    forall i fs perm,
      fs !! pathAt root names = Some (Directory perm) ->
      (forall e, In e l ->
         fs !! pathAt root (names ++ [fst e]) = None
         /\ forall m, In m (members (snd e)) ->
               fs !! pathAt root ((names ++ [fst e]) ++ fst m) = None) ->
      exists fs' j,
        (forall rest,
           ExtractZip_loop Background i (root +:+ String Separator "")
             (List.concat
                (map (fun e => entriesOf (names ++ [fst e]) (snd e)) l)
              ++ rest) fs
           = ExtractZip_loop Background j (root +:+ String Separator "")
               rest fs')
        /\ (forall key,
              (forall e, In e l ->
                         ~ underRoot (pathAt root (names ++ [fst e])) key) ->
              fs' !! key = fs !! key)
        /\ (forall e, In e l ->
              fs' !! pathAt root (names ++ [fst e])
              = Some (extractedAs (snd e))
              /\ forall m, In m (members (snd e)) ->
                    fs' !! pathAt root ((names ++ [fst e]) ++ fst m)
                    = Some (extractedAs (snd m))).
Proof.
  intros Hall. pose proof (properDir_pathAt root names Hroot Hall) as Hp.
  induction l as [|e l IH]; intros Hnd HQ i fs perm Hdir Hfree.
  - exists fs, i. repeat split; intros; try reflexivity; contradiction.
  - inversion HQ as [|? ? [Hn He] HQl]; subst.
    simpl in Hnd. apply List.NoDup_cons_iff in Hnd as [Hnotin Hnd].
    destruct (He names (fst e) i fs perm Hall Hn Hdir)
      as (fs1 & j1 & Hrun1 & Hframe1 & Hown1 & Hmem1);
      [apply (Hfree e); now left | apply (Hfree e); now left |].
    assert (forall e', In e' l -> fst e' <> fst e) as Hother.
    { intros e' He' Heq. apply Hnotin. rewrite <- Heq.
      now apply in_map. }
    assert (forall e' key, In e' l ->
              underRoot (pathAt root (names ++ [fst e'])) key ->
              ~ underRoot (pathAt root (names ++ [fst e])) key) as Hdisj.
    { intros e' key He' Hk' Hk. rewrite pathAt_snoc in Hk, Hk'.
      rewrite List.Forall_forall in HQl.
      apply (siblings_disjoint (pathAt root names) (fst e) (fst e') key);
        [apply Hn | apply (HQl e' He') | | assumption | assumption].
      intros Heq. now apply (Hother e' He'). }
    destruct (IH Hnd HQl j1 fs1 perm) as (fs2 & j2 & Hrun2 & Hframe2 & Hres2).
    { rewrite Hframe1; [exact Hdir|].
      rewrite pathAt_snoc. intros Hk.
      apply underRoot_child in Hk as [_ Hk]. now apply Hk. }
    { intros e' He'. destruct (Hfree e' (or_intror He')) as [Hf1 Hf2].
      split; [|intros m Hm]; rewrite Hframe1;
        [assumption | | now apply Hf2 |];
        apply (Hdisj e' _ He');
        [apply underRoot_self | apply underRoot_pathAt]. }
    exists fs2, j2. split; [|split].
    + intros rest.
      change (List.concat
                (map (fun e0 => entriesOf (names ++ [fst e0]) (snd e0))
                     (e :: l)))
        with (entriesOf (names ++ [fst e]) (snd e)
              ++ List.concat
                   (map (fun e0 => entriesOf (names ++ [fst e0]) (snd e0))
                        l)).
      rewrite <- app_assoc, Hrun1. apply Hrun2.
    + intros key Hout. rewrite Hframe2, Hframe1.
      * reflexivity.
      * apply Hout. now left.
      * intros e' He'. apply Hout. now right.
    + intros e' [<- | He'].
      * split.
        -- rewrite Hframe2; [exact Hown1|].
           intros e' He' Hk. apply (Hdisj e' _ He' Hk). apply underRoot_self.
        -- intros m Hm. rewrite Hframe2; [now apply Hmem1|].
           intros e' He' Hk. apply (Hdisj e' _ He' Hk).
           apply underRoot_pathAt.
      * now apply Hres2.
Qed.

Lemma insertByName_perm {A : Type} (x : string * A)
  (l : list (string * A)) :
  Permutation (insertByName x l) (x :: l).
Proof.
  induction l as [|y l IH]; [reflexivity|]. simpl.
  destruct (String.leb (fst x) (fst y)); [reflexivity|].
  rewrite IH. apply perm_swap.
Qed.

(** Sorting keeps the entries. *)
Lemma sortByName_perm {A : Type} (l : list (string * A)) :
  Permutation (sortByName l) l.
Proof.
  induction l as [|x l IH]; [reflexivity|].
  change (Permutation (insertByName x (sortByName l)) (x :: l)).
  rewrite insertByName_perm. now constructor.
Qed.

Lemma distinctNames_NoDup (l : list string) :
  distinctNames l = true -> List.NoDup l.
Proof.
  induction l as [|x l IH]; [constructor|]. simpl. intros Hd.
  apply andb_prop in Hd as [Hx Hl]. constructor; [|now apply IH].
  intros Hin. apply negb_true_iff in Hx.
  assert (existsb (String.eqb x) l = true) as Hex; [|congruence].
  apply existsb_exists. exists x. split; [assumption|].
  apply String.eqb_refl.
Qed.

(** A tree is extracted from its entries, node by node. *)
Lemma extract_tree (info : Tree) :
  readable info = true -> plainTree info = true -> extractsTo root info.
Proof.
  induction info as [mode open|mode entries IH|mode err]
    using Tree_induction; intros Hread Hplain; [| |discriminate];
    intros names n i fs perm Hall Hn Hdir Hfree Hfrees;
    assert (Forall realElem (names ++ [n])) as Hall'
      by (apply Forall_app; split; [assumption | now constructor]).
  - simpl in Hplain. apply negb_true_iff in Hplain.
    exists (<[pathAt root (names ++ [n])
              := extractedAs (TFile mode open)]> fs), (S i).
    split; [|split; [|split]].
    + intros rest. unfold entriesOf. simpl members. simpl map.
      change ((asFile (entryOf (names ++ [n], TFile mode open)) :: []) ++ rest)
        with (asFile (entryOf (names ++ [n], TFile mode open)) :: rest).
      apply (ExtractZip_loop_file i rest fs names n mode open perm);
        assumption.
    + intros key Hout. apply lookup_insert_ne. intros <-.
      apply Hout, underRoot_self.
    + apply lookup_insert_eq.
    + intros m [].
  - simpl in Hread, Hplain. apply andb_prop in Hplain as [Hdist Hplain].
    rewrite forallb_forall in Hread, Hplain.
    assert (Forall (fun e => realElem (fst e) /\ extractsTo root (snd e))
                   (sortByName entries)) as HQ.
    { apply Forall_sortByName. rewrite List.Forall_forall in IH |- *.
      intros e He. specialize (Hread e He).
      apply andb_prop in Hread as [Hname Hr].
      split; [now apply entryName_real|]. apply IH; auto. }
    assert (List.NoDup (map fst (sortByName entries))) as Hnd.
    { apply (Permutation_NoDup (l := map fst entries)).
      - apply Permutation_map. symmetry. apply sortByName_perm.
      - now apply distinctNames_NoDup. }
    set (q := pathAt root (names ++ [n])) in *.
    destruct (extract_children (names ++ [n]) Hall' (sortByName entries)
                Hnd HQ (S i) (<[q := Directory 488]> fs) 488%Z)
      as (fs' & j & Hrun & Hframe & Hres).
    { apply lookup_insert_eq. }
    { intros e He.
      assert (forall m, In m (withMembers e) ->
                <[q := Directory 488]> fs
                !! pathAt root ((names ++ [n]) ++ fst m) = None) as Hw.
      { intros m Hm.
        assert (fst m <> []) as Hne.
        { destruct Hm as [<- | Hm]; [discriminate|].
          apply in_map_iff in Hm as (m' & <- & _). discriminate. }
        rewrite lookup_insert_ne.
        - apply Hfrees. rewrite members_dir. apply in_concat.
          exists (withMembers e). split; [now apply in_map | assumption].
        - unfold q. intros Heq.
          destruct (fst m) as [|x ms] eqn:Hx; [contradiction|].
          change (x :: ms) with ([x] ++ ms) in Heq.
          rewrite app_assoc in Heq.
          pose proof (underRoot_pathAt root ((names ++ [n]) ++ [x]) ms) as Hu.
          rewrite <- Heq, pathAt_snoc in Hu.
          apply underRoot_child in Hu as [_ Hu]. now apply Hu. }
      split.
      - apply (Hw ([fst e], snd e)). now left.
      - intros m Hm.
        specialize (Hw (fst e :: fst m, snd m)). simpl in Hw.
        rewrite <- app_assoc. apply Hw. right.
        apply in_map_iff. now exists m. }
    assert (forall (e : string * Tree) key,
              underRoot (pathAt root ((names ++ [n]) ++ [fst e])) key ->
              underRoot q key /\ key <> q) as Hin.
    { intros e key Hk. rewrite pathAt_snoc in Hk.
      now apply underRoot_child in Hk. }
    exists fs', j. split; [|split; [|split]].
    + intros rest. unfold entriesOf. rewrite members_dir.
      change (map asFile
                (map entryOf
                   ((names ++ [n], TDir mode entries)
                    :: map (under (names ++ [n]))
                         (List.concat (map withMembers (sortByName entries)))))
              ++ rest)
        with (asFile (entryOf (names ++ [n], TDir mode entries))
              :: (map asFile
                    (map entryOf
                       (map (under (names ++ [n]))
                          (List.concat
                             (map withMembers (sortByName entries)))))
                  ++ rest)).
      rewrite (ExtractZip_loop_dir i _ fs names n (TDir mode entries) perm);
        try assumption; [|reflexivity].
      rewrite entriesOf_withMembers. apply Hrun.
    + intros key Hout. rewrite Hframe.
      * apply lookup_insert_ne. intros <-. apply Hout, underRoot_self.
      * intros e _ Hk. apply Hout. now apply (Hin e key).
    + rewrite Hframe; [apply lookup_insert_eq|].
      intros e _ Hk. now apply (Hin e q) in Hk as [_ Hk].
    + intros m Hm. rewrite members_dir in Hm.
      apply in_concat in Hm as (ms & Hms & Hm).
      apply in_map_iff in Hms as (e & <- & He).
      destruct (Hres e He) as [Hown Hmem].
      destruct Hm as [<- | Hm]; [exact Hown|].
      apply in_map_iff in Hm as (m' & <- & Hm'). simpl.
      specialize (Hmem m' Hm'). now rewrite <- app_assoc in Hmem.
Qed.

End RoundTrip.

(** The loop of [ExtractZip] on the entries that [CompressToZip] writes
    for a tree. *)
Lemma ExtractZip_loop_archived `{Externals} (root : string) (tree : Tree)
  (fs : gmap string inode) (perm : Z) :
  (forall fs path, CreateDir fs path = CreateDir_spec fs path) ->
  properDir root ->
  readable tree = true -> plainTree tree = true ->
  fs !! root = Some (Directory perm) ->
  (forall m, In m (members tree) -> fs !! pathAt root (fst m) = None) ->
  exists fs',
    ExtractZip_loop Background 0 (root +:+ String Separator "")
      (map asFile (archived tree)) fs = (fs', None)
    /\ forall m, In m (members tree) ->
         fs' !! pathAt root (fst m) = Some (extractedAs (snd m)).
Proof.
  intros HCD Hroot Hread Hplain Hdir Hfree.
  destruct tree as [mode open|mode entries|mode err]; [| |discriminate].
  - exists fs. split; [reflexivity | intros m []].
  - simpl in Hread, Hplain. apply andb_prop in Hplain as [Hdist Hplain].
    rewrite forallb_forall in Hread, Hplain.
    assert (Forall (fun e => realElem (fst e) /\ extractsTo root (snd e))
                   (sortByName entries)) as HQ.
    { apply Forall_sortByName. rewrite List.Forall_forall.
      intros e He. specialize (Hread e He).
      apply andb_prop in Hread as [Hname Hr].
      split; [now apply entryName_real|].
      apply extract_tree; auto. }
    assert (List.NoDup (map fst (sortByName entries))) as Hnd.
    { apply (Permutation_NoDup (l := map fst entries)).
      - apply Permutation_map. symmetry. apply sortByName_perm.
      - now apply distinctNames_NoDup. }
    assert (forall e, In e (sortByName entries) ->
              forall m, In m (withMembers e) ->
                In m (members (TDir mode entries))) as Hin.
    { intros e He m Hm. rewrite members_dir. apply in_concat.
      exists (withMembers e). split; [now apply in_map | assumption]. }
    destruct (extract_children root Hroot [] (List.Forall_nil _)
                (sortByName entries) Hnd HQ 0 fs perm Hdir)
      as (fs' & j & Hrun & _ & Hres).
    { intros e He. split.
      - apply (Hfree ([fst e], snd e)). apply (Hin e He). now left.
      - intros m Hm. apply (Hfree (fst e :: fst m, snd m)).
        apply (Hin e He). right. apply in_map_iff. now exists m. }
    exists fs'. split.
    + unfold archived. rewrite members_dir.
      rewrite <- (under_nil (List.concat _)), entriesOf_withMembers.
      rewrite <- (app_nil_r (List.concat _)). now rewrite Hrun.
    + intros m Hm. rewrite members_dir in Hm.
      apply in_concat in Hm as (ms & Hms & Hm).
      apply in_map_iff in Hms as (e & <- & He).
      destruct (Hres e He) as [Hown Hmem].
      destruct Hm as [<- | Hm]; [exact Hown|].
      apply in_map_iff in Hm as (m' & <- & Hm'). exact (Hmem m' Hm').
Qed.

Lemma CreateDir_spec_exists (fs : gmap string inode) (path : string)
  (nd : inode) :
  resolve fs path = Some nd -> CreateDir_spec fs path = (fs, None).
Proof. intros Hnd. unfold CreateDir_spec, os_Stat. now rewrite Hnd. Qed.

(** X17. What [CompressToZip] has archived, [ExtractZip] restores: under
    the conditions of the whole archive (a tree that can be read, a
    context that is never done), for a tree whose directories hold
    distinct names and whose files do not have the mode of a directory,
    when the reader gives back the entries as they were written,
    [CreateDir] is the one of the spec, and the destination is a
    directory other than [/] and [.] in which no path of the tree is
    taken, [CompressToZip] returns no error, [ExtractZip] returns the
    path of the package without error, and every directory and file
    below the source is found under the destination at its names: a
    directory with mode [0o750], a file with mode [0o666] and its
    content up to the cap. *)
Theorem compress_then_extract `{Packing} `{Externals}
  (ctx : Context) (fs fs1 fs2 : gmap string inode)
  (src zipPath dest : string) (tree : Tree) (e : option error) (perm : Z) :
  src <> "" ->
  (forall i, ctx i = None) ->
  Rel_below src ->
  (forall rs h, zip_CreateHeader rs h = None) ->
  os_Create fs zipPath = (fs1, None) ->
  lstatTree fs1 src = Ok tree ->
  readable tree = true ->
  plainTree tree = true ->
  (forall fs path, CreateDir fs path = CreateDir_spec fs path) ->
  CompressToZip ctx fs src zipPath = (fs2, e) ->
  zip_OpenReader fs2 zipPath = Ok (map asFile (archived tree)) ->
  Clean dest <> "/" -> Clean dest <> "." ->
  resolve fs2 dest = Some (Directory perm) ->
  (forall m, In m (members tree) ->
             fs2 !! pathAt (Clean dest) (fst m) = None) ->
  e = None
  /\ snd (ExtractZip ctx fs2 zipPath dest)
     = (Join [Clean dest +:+ String Separator "";
              Base (TrimSuffix zipPath (Ext zipPath))], None)
  /\ forall m, In m (members tree) ->
       fst (ExtractZip ctx fs2 zipPath dest) !! pathAt (Clean dest) (fst m)
       = Some (extractedAs (snd m)).
Proof.
  intros Hsrc Hctx Hrel Hhdr Hcreate Hfound Hread Hplain HCD Hzip
         Hreader Hslash Hdot Hdest Hfree.
  unfold CompressToZip, Walk in Hzip. rewrite Hcreate, Hfound in Hzip.
  destruct (walk_source ctx src tree Hsrc Hrel Hhdr Hread) as [Hwhole _].
  rewrite Hwhole in Hzip by (intros j _; apply Hctx).
  injection Hzip as Hfs2 <-. split; [reflexivity|].
  assert (properDir (Clean dest)) as Hroot
    by (split; [apply Clean_idempotent | now split]).
  assert (fs2 !! Clean dest = Some (Directory perm)) as Hdir.
  { unfold resolve in Hdest. now destruct (String.eqb dest ""). }
  destruct (ExtractZip_loop_archived (Clean dest) tree fs2 perm
              HCD Hroot Hread Hplain Hdir Hfree) as (fs3 & Hrun & Hres).
  unfold ExtractZip. rewrite Hreader, HCD.
  rewrite (CreateDir_spec_exists fs2 dest _ Hdest).
  rewrite ExtractZip_loop_uncancelled by (intros; apply Hctx).
  rewrite Hrun. split; [reflexivity | exact Hres].
Qed.

(** The directory [docs] archived to [out.zip] and restored under
    [restored]. *)
Lemma compress_then_extract_witness :
  let fs2 := <["out.zip" := Regular 420 (helloBytes ++ helloBytes)]> cwdFs in
  let fs3 :=
    fst (@ExtractZip docsZipExternals Background fs2 "out.zip" "restored") in
  @CompressToZip (fixedPacking (Ok docsTree)) Background cwdFs
                 "docs" "out.zip" = (fs2, None)
  /\ fs3 !! "restored/hello.txt" = Some (Regular 438 helloBytes)
  /\ fs3 !! "restored/sub" = Some (Directory 488)
  /\ fs3 !! "restored/sub/again.txt" = Some (Regular 438 helloBytes).
Proof.
  cbv zeta.
  destruct (@compress_then_extract (fixedPacking (Ok docsTree))
              docsZipExternals Background cwdFs
              (<["out.zip" := Regular 420 []]> cwdFs)
              (<["out.zip" := Regular 420 (helloBytes ++ helloBytes)]> cwdFs)
              "docs" "out.zip" "restored" docsTree None 493)
    as (_ & _ & Hres).
  - discriminate.
  - reflexivity.
  - apply fixedPacking_Rel_below.
  - reflexivity.
  - vm_compute. reflexivity.
  - reflexivity.
  - reflexivity.
  - reflexivity.
  - reflexivity.
  - vm_compute. reflexivity.
  - reflexivity.
  - vm_compute. discriminate.
  - vm_compute. discriminate.
  - vm_compute. reflexivity.
  - intros m Hm. vm_compute in Hm.
    destruct Hm as [<- | [<- | [<- | []]]]; vm_compute; reflexivity.
  - split; [vm_compute; reflexivity|].
    split; [|split].
    + apply (Hres (["hello.txt"],
                   TFile 420 (Ok {| s_data := helloBytes;
                                    s_fault := None |}))).
      vm_compute. tauto.
    + apply (Hres (["sub"],
                   TDir 493
                     [("again.txt",
                       TFile 420 (Ok {| s_data := helloBytes;
                                        s_fault := None |}))])).
      vm_compute. tauto.
    + apply (Hres (["sub"; "again.txt"],
                   TFile 420 (Ok {| s_data := helloBytes;
                                    s_fault := None |}))).
      vm_compute. tauto.
Defined.

(* ===================================================================== *)
(** ** C8: the path returned on success, and the words of the spec *)
(* ===================================================================== *)












